(** * TrendWise: trend aggregation, article generation and persistence

    A shallow embedding of the services of the TrendWise backend
    ([TrendService], [OpenAIService], [ArticleService] and the
    [/generate-articles] route) together with the properties of the
    pipeline that are checked against it.

    Conventions of the embedding.
    - A JavaScript string is a [string]: a sequence of code units.  The
      built-ins that depend on the character repertoire ([toLowerCase],
      [trim], the regular expression class [\s]) are given for the code
      units 0..255 (ISO-8859-1), a range that is closed under all of them.
    - Array indices, lengths and loop counters are [nat]; a number that can
      be negative (the [limit] handed to [slice], a clock) is a [Z].
    - A score or a similarity is a [Q].  Each one the services compute is
      an integer or one quotient of two integers far below 2^53, and all
      that is done with it is to compare it or to take the sign of a
      difference of two of them; on these the correctly rounded quotient
      and the exact one agree.
    - An [async] function that can reject returns a [result]; external
      collaborators (sources, generative backend, document store) are
      arguments that give the outcome of each call. *)

From Stdlib Require Import List String Ascii Bool Arith ZArith QArith Qminmax.
From Stdlib Require Import Lia Lqa Sorting.Sorted Sorting.Permutation.
Import ListNotations.

Local Close Scope Q_scope.
Local Open Scope string_scope.
Local Open Scope list_scope.
Local Open Scope nat_scope.

(** ** Outcomes of fallible calls *)

Inductive result (A : Type) : Type :=
| Ok (value : A)
| Throw (message : string).

Arguments Ok {A} value.
Arguments Throw {A} message.

Definition bind {A B : Type} (m : result A) (k : A -> result B) : result B :=
  match m with
  | Ok a => k a
  | Throw e => Throw e
  end.

(** [tryCatch m handler] is [try { m } catch (error) { handler error }]. *)
Definition tryCatch {A : Type} (m : result A) (handler : string -> result A)
  : result A :=
  match m with
  | Ok a => Ok a
  | Throw e => handler e
  end.

Notation "x <- m ;; k" := (bind m (fun x => k))
  (at level 61, m at next level, right associativity).

(** ** String built-ins *)

Module JS.

Definition code (c : ascii) : nat := nat_of_ascii c.

(** WhiteSpace and LineTerminator code points below 256: TAB, LF, VT, FF,
    CR, SP and NBSP.  This is what [trim] strips and what [\s] matches. *)
Definition isWhiteSpace (c : ascii) : bool :=
  let n := code c in
  ((9 <=? n) && (n <=? 13)) || (n =? 32) || (n =? 160).

Definition isUpper (c : ascii) : bool :=
  let n := code c in
  ((65 <=? n) && (n <=? 90))
  || ((192 <=? n) && (n <=? 222) && negb (n =? 215)).

Definition toLowerCaseChar (c : ascii) : ascii :=
  if isUpper c then ascii_of_nat (code c + 32) else c.

Fixpoint toLowerCase (s : string) : string :=
  match s with
  | EmptyString => EmptyString
  | String c s' => String (toLowerCaseChar c) (toLowerCase s')
  end.

Fixpoint trimStart (s : string) : string :=
  match s with
  | EmptyString => EmptyString
  | String c s' => if isWhiteSpace c then trimStart s' else s
  end.

Fixpoint trimEnd (s : string) : string :=
  match s with
  | EmptyString => EmptyString
  | String c s' =>
      match trimEnd s' with
      | EmptyString => if isWhiteSpace c then EmptyString else String c EmptyString
      | r => String c r
      end
  end.

Definition trim (s : string) : string := trimEnd (trimStart s).

Definition startsWith (s prefix : string) : bool := String.prefix prefix s.

Fixpoint includes (s sub : string) : bool :=
  String.prefix sub s ||
  match s with
  | EmptyString => false
  | String _ s' => includes s' sub
  end.

Fixpoint dropChars (n : nat) (s : string) : string :=
  match n, s with
  | O, _ => s
  | S n', String _ s' => dropChars n' s'
  | S _, EmptyString => EmptyString
  end.

Fixpoint revString (acc s : string) : string :=
  match s with
  | EmptyString => acc
  | String c s' => revString (String c acc) s'
  end.

(** [s.split(sep)] for a non-empty separator.  [cur] is the piece being
    read (reversed); [skip] counts the characters of a separator that
    was just recognised and is still to be passed over. *)
Fixpoint splitLoop (sep : string) (skip : nat) (cur : string) (s : string)
  : list string :=
  match s with
  | EmptyString => [revString EmptyString cur]
  | String c s' =>
      match skip with
      | S k => splitLoop sep k cur s'
      | O =>
          if String.prefix sep s
          then revString EmptyString cur
               :: splitLoop sep (String.length sep - 1) EmptyString s'
          else splitLoop sep O (String c cur) s'
      end
  end.

Definition split (s sep : string) : list string :=
  splitLoop sep 0 EmptyString s.

(** [s.replace(pattern, replacement)] with a string pattern: only the
    first occurrence is replaced. *)
Fixpoint replaceFirst (s pattern replacement : string) : string :=
  if String.prefix pattern s
  then (replacement ++ dropChars (String.length pattern) s)%string
  else match s with
       | EmptyString => EmptyString
       | String c s' => String c (replaceFirst s' pattern replacement)
       end.

(** [s.substring(0, n)] and [s.slice(0, n)] on strings, for [0 <= n]. *)
Definition substring0 (n : nat) (s : string) : string := String.substring 0 n s.

(** [array.slice(0, end)]: a negative [end] counts from the end of the
    array. *)
Definition sliceFrom0 {A : Type} (l : list A) (stop : Z) : list A :=
  if (0 <=? stop)%Z
  then firstn (Z.to_nat stop) l
  else firstn (Z.to_nat (Z.of_nat (List.length l) + stop)) l.

(** [[...new Set(l)]]: the distinct elements in order of first
    occurrence. *)
Fixpoint setOfLoop (seen : list string) (l : list string) : list string :=
  match l with
  | [] => []
  | x :: l' =>
      if existsb (String.eqb x) seen
      then setOfLoop seen l'
      else x :: setOfLoop (x :: seen) l'
  end.

Definition distinct (l : list string) : list string := setOfLoop [] l.

(** [Set.prototype.add] on a set kept in insertion order. *)
Definition setAdd (x : string) (seen : list string) : list string :=
  if existsb (String.eqb x) seen then seen else seen ++ [x].

End JS.

(** ** Topic candidates *)

Inductive Source : Type :=
| GoogleTrends
| Twitter
| Reddit.

(** The value of the field [category] of a candidate: a string, or a
    member that an object literal inherits from [Object.prototype], which
    is what reading the table of [mapSubredditToCategory] gives at the
    name of such a member. *)
Inductive CategoryValue : Type :=
| CategoryName (name : string)
| Inherited (member : string).

Coercion CategoryName : string >-> CategoryValue.

(** [value === name] for a string [name], the comparison that
    [categories.includes(trend.category)] makes with each element. *)
Definition isCategory (value : CategoryValue) (name : string) : bool :=
  match value with
  | CategoryName c => String.eqb c name
  | Inherited _ => false
  end.

(** The fields of a candidate that the pipeline reads.  The remaining
    ones ([traffic], [relatedQueries], [articles], [url], [subreddit],
    [fetchedAt]) are carried along unread by the functions below. *)
Record Trend : Type := mkTrend {
  keyword : string;
  source : Source;
  category : CategoryValue;
  trendScore : Q;
  position : option nat
}.

(** ** TrendService: similarity and de-duplication *)

Module TrendService.

(** One cell of the matrix and the rest of its row.  [c2] is
    [str2.charAt(i - 1)], [str1] holds the characters from column [j] on,
    [diag] is [matrix[i-1][j-1]], [up] holds [matrix[i-1][j..]] and
    [left] is [matrix[i][j-1]]. *)
Fixpoint fillRow (c2 : ascii) (str1 : list ascii) (diag : nat)
         (up : list nat) (left : nat) : list nat :=
  match str1, up with
  | c1 :: str1', u :: up' =>
      let cell :=
        if Ascii.eqb c2 c1 then diag
        else Nat.min (Nat.min (diag + 1) (left + 1)) (u + 1) in
      cell :: fillRow c2 str1' u up' cell
  | _, _ => []
  end.

(** Row [i] of the matrix from row [i - 1]; column 0 holds [i]. *)
Definition nextRow (i : nat) (c2 : ascii) (str1 : list ascii)
           (prev : list nat) : list nat :=
  match prev with
  | d :: up => i :: fillRow c2 str1 d up i
  | [] => [i]
  end.

(** The outer loop over the characters of [str2], from row [i] on;
    the result is the last row of the matrix. *)
Fixpoint fillMatrix (i : nat) (str2 : list ascii) (str1 : list ascii)
         (prev : list nat) : list nat :=
  match str2 with
  | [] => prev
  | c2 :: str2' => fillMatrix (S i) str2' str1 (nextRow i c2 str1 prev)
  end.

Definition levenshteinDistance (str1 str2 : string) : nat :=
  let s1 := list_ascii_of_string str1 in
  let s2 := list_ascii_of_string str2 in
  last (fillMatrix 1 s2 s1 (seq 0 (S (List.length s1)))) 0.

Definition ofNat (n : nat) : Q := inject_Z (Z.of_nat n).

Definition calculateSimilarity (str1 str2 : string) : Q :=
  let longer :=
    if String.length str2 <? String.length str1 then str1 else str2 in
  let shorter :=
    if String.length str2 <? String.length str1 then str2 else str1 in
  if String.length longer =? 0 then 1%Q
  else
    let editDistance := levenshteinDistance longer shorter in
    ((ofNat (String.length longer) - ofNat editDistance)
     / ofNat (String.length longer))%Q.

Definition similarityThreshold : Q := (8 # 10)%Q.

(** [a > b] on numbers. *)
Definition gt (a b : Q) : bool := negb (Qle_bool a b).

Definition normalize (t : Trend) : string :=
  JS.trim (JS.toLowerCase (keyword t)).

Definition isDuplicateOf (normalizedKeyword : string) (seen : list string)
  : bool :=
  existsb
    (fun seenKeyword =>
       gt (calculateSimilarity normalizedKeyword seenKeyword)
          similarityThreshold)
    seen.

Fixpoint dedupLoop (trends : list Trend) (unique : list Trend)
         (seen : list string) : list Trend :=
  match trends with
  | [] => unique
  | trend :: rest =>
      let normalizedKeyword := normalize trend in
      if isDuplicateOf normalizedKeyword seen
      then dedupLoop rest unique seen
      else dedupLoop rest (unique ++ [trend])
                     (JS.setAdd normalizedKeyword seen)
  end.

Definition deduplicateTrends (trends : list Trend) : list Trend :=
  dedupLoop trends [] [].

(** *** Scores of the three sources *)

Definition isDigitOrComma (c : ascii) : bool :=
  let n := JS.code c in ((48 <=? n) && (n <=? 57)) || (n =? 44).

Fixpoint takeRun (s : string) : string :=
  match s with
  | EmptyString => EmptyString
  | String c s' => if isDigitOrComma c then String c (takeRun s') else EmptyString
  end.

(** [traffic.match(/[\d,]+/g)[0]], if there is a match. *)
Fixpoint firstNumberRun (s : string) : option string :=
  match s with
  | EmptyString => None
  | String c s' => if isDigitOrComma c then Some (takeRun s) else firstNumberRun s'
  end.

(** [parseInt] of a string of digits and commas with the commas removed;
    [None] is [NaN], the value for the empty string. *)
Fixpoint digitsValue (acc : option Z) (s : string) : option Z :=
  match s with
  | EmptyString => acc
  | String c s' =>
      if JS.code c =? 44 then digitsValue acc s'
      else
        let d := Z.of_nat (JS.code c - 48) in
        digitsValue (Some (match acc with Some a => 10 * a + d | None => d end)%Z) s'
  end.

Definition calculateTrendScore (traffic : option string) : Z :=
  match traffic with
  | None => 10
  | Some EmptyString => 10
  | Some t =>
      match firstNumberRun t with
      | None => 10
      | Some run =>
          match digitsValue None run with
          | None => 30
          | Some num =>
              if (1000000 <=? num) then 100
              else if (500000 <=? num) then 90
              else if (100000 <=? num) then 80
              else if (50000 <=? num) then 70
              else if (10000 <=? num) then 60
              else if (5000 <=? num) then 50
              else if (1000 <=? num) then 40
              else 30
          end
      end
  end%Z.

(** One entry of [trendingSearches] of the latest day. *)
Record TrendingSearch : Type := mkSearch {
  query : string;
  formattedTraffic : option string
}.

Definition googleTrend (category : option string) (trend : TrendingSearch)
  : Trend :=
  {| keyword := query trend;
     source := GoogleTrends;
     category := match category with
                 | Some (String c k) => String c k
                 | _ => "general"
                 end;
     trendScore := inject_Z (calculateTrendScore (formattedTraffic trend));
     position := None |}.

(** The callback handed to [page.evaluate]: [elements] are the
    [textContent] of the nodes matched by the selector, [index] the index
    of the first of them. *)
Fixpoint scrapeLoop (index : nat) (elements : list string) : list Trend :=
  match elements with
  | [] => []
  | textContent :: rest =>
      let later := scrapeLoop (S index) rest in
      if index <? 20 then
        let keyword := JS.trim textContent in
        if negb (String.eqb keyword "") && (2 <? String.length keyword)
        then {| keyword := keyword;
                source := Twitter;
                category := "general";
                trendScore :=
                  inject_Z (Z.max (100 - Z.of_nat index * 5) 10);
                position := Some (index + 1) |} :: later
        else later
      else later
  end.

Definition scrapeTrends (elements : list string) : list Trend :=
  scrapeLoop 0 elements.

Record RedditPost : Type := mkPost {
  title : string;
  ups : Z;
  subreddit : string
}.

Definition categoryMap : list (string * string) :=
  [ ("technology", "technology"); ("programming", "technology");
    ("science", "science"); ("worldnews", "politics");
    ("politics", "politics"); ("business", "business");
    ("sports", "sports"); ("entertainment", "entertainment");
    ("movies", "entertainment"); ("music", "entertainment");
    ("health", "health"); ("fitness", "health"); ("travel", "travel");
    ("food", "food"); ("fashion", "fashion") ].

Fixpoint lookup (key : string) (table : list (string * string))
  : option string :=
  match table with
  | [] => None
  | (k, v) :: table' => if String.eqb k key then Some v else lookup key table'
  end.

(** The members that [categoryMap], an object literal, inherits from
    [Object.prototype]; each of them is an object or a function, hence
    truthy. *)
Definition objectPrototypeMembers : list string :=
  [ "constructor"; "__defineGetter__"; "__defineSetter__"; "hasOwnProperty";
    "__lookupGetter__"; "__lookupSetter__"; "isPrototypeOf";
    "propertyIsEnumerable"; "toString"; "valueOf"; "__proto__";
    "toLocaleString" ].

(** [categoryMap[key]]: the own property, else the inherited member,
    else [undefined]. *)
Definition getMember (key : string) : option CategoryValue :=
  match lookup key categoryMap with
  | Some c => Some (CategoryName c)
  | None =>
      if existsb (String.eqb key) objectPrototypeMembers
      then Some (Inherited key)
      else None
  end.

Definition mapSubredditToCategory (subreddit : string) : CategoryValue :=
  match getMember (JS.toLowerCase subreddit) with
  | Some value => value
  | None => CategoryName "other"
  end.

Definition redditTrends (posts : list RedditPost) : list Trend :=
  flat_map
    (fun data =>
       if negb (String.eqb (title data) "") && (100 <? ups data)%Z
       then [ {| keyword := title data;
                 source := Reddit;
                 category := mapSubredditToCategory (subreddit data);
                 trendScore := Qmin (inject_Z (ups data) / 100)%Q 100%Q;
                 position := None |} ]
       else [])
    posts.

(** *** The sources and the aggregation *)

(** What one run of [getAllTrends] meets: the outcome of each external
    call, and the state in which earlier calls left the instance.
    - [dailyTrends geo category]: the request to the search-trends API up
      to the list [trendingSearches] of the latest day, empty when the
      reply has none;
    - [launchBrowser]: [puppeteer.launch];
    - [trendsPage]: opening the page, loading the site and reading the
      [textContent] of the list items the selector matches;
    - [hotPosts]: the request for the hot posts, up to [data.children];
    - [browserClose]: [browser.close()];
    - [thisBrowser]: whether [this.browser] is set when the run starts.
      The instance is shared by the requests: [fetchTwitterTrends] called
      on its own (GET /source/twitter) leaves the browser it launched,
      and so does a run whose [browser.close()] was rejected. *)
Record Sources : Type := mkSources {
  dailyTrends : string -> option string -> result (list TrendingSearch);
  launchBrowser : result unit;
  trendsPage : result (list string);
  hotPosts : result (list RedditPost);
  browserClose : result unit;
  thisBrowser : bool
}.

Record TrendOptions : Type := mkOptions {
  includeGoogle : bool;
  includeTwitter : bool;
  includeReddit : bool;
  geo : string;
  categoryFilter : option string;
  limit : Z
}.

Definition fetchGoogleTrends (w : Sources) (geo : string)
           (category : option string) : result (list Trend) :=
  tryCatch
    (searches <- dailyTrends w geo category ;;
     Ok (map (googleTrend category) searches))
    (fun message => Throw ("Failed to fetch Google Trends: " ++ message)%string).

(** [browser]: whether [this.browser] is set.  The second component is
    its value after the call. *)
Definition initBrowser (w : Sources) (browser : bool) : result unit * bool :=
  if browser then (Ok tt, true)
  else match launchBrowser w with
       | Ok _ => (Ok tt, true)
       | Throw e => (Throw e, false)
       end.

Definition fetchTwitterTrends (w : Sources) (browser : bool)
  : result (list Trend) * bool :=
  let '(launched, browser') := initBrowser w browser in
  (tryCatch
     (_ <- launched ;;
      elements <- trendsPage w ;;
      Ok (scrapeTrends elements))
     (fun _ => Ok []),
   browser').

Definition fetchRedditTrends (w : Sources) : result (list Trend) :=
  tryCatch
    (posts <- hotPosts w ;; Ok (redditTrends posts))
    (fun _ => Ok []).

Definition closeBrowser (w : Sources) (browser : bool) : result unit * bool :=
  if browser
  then match browserClose w with
       | Ok _ => (Ok tt, false)
       | Throw e => (Throw e, true)
       end
  else (Ok tt, false).

(** [trends.sort((a, b) => b.trendScore - a.trendScore)].  The sort of
    the language is stable, so for this comparator its result is the one
    of the stable insertion sort. *)
Fixpoint insertByScore (a : Trend) (l : list Trend) : list Trend :=
  match l with
  | [] => [a]
  | b :: l' =>
      if Qle_bool (trendScore b) (trendScore a)
      then a :: b :: l'
      else b :: insertByScore a l'
  end.

Fixpoint sortByScore (l : list Trend) : list Trend :=
  match l with
  | [] => []
  | a :: l' => insertByScore a (sortByScore l')
  end.

(** The candidates one source contributes: those of a successful fetch,
    none when the fetch threw (the [catch] around each call). *)
Definition contribution (enabled : bool) (fetched : result (list Trend))
  : list Trend :=
  if enabled
  then match fetched with
       | Ok trends => trends
       | Throw _ => []
       end
  else [].

Definition rankTrends (allTrends : list Trend) (limit : Z) : list Trend :=
  let uniqueTrends := deduplicateTrends allTrends in
  let sortedTrends := JS.sliceFrom0 (sortByScore uniqueTrends) limit in
  sortedTrends.

(** [getAllTrends], started with [this.browser] as [thisBrowser w] says.
    The body of the outer [try] cannot throw; the [finally] clause closes
    the browser, the one the instance had or the one launched, and
    replaces the outcome by its own failure if it has one. *)
Definition getAllTrends (w : Sources) (o : TrendOptions)
  : result (list Trend) :=
  let allTrends := [] in
  let allTrends :=
    allTrends
      ++ contribution (includeGoogle o)
                      (fetchGoogleTrends w (geo o) (categoryFilter o)) in
  let '(twitterTrends, browser) :=
    if includeTwitter o then fetchTwitterTrends w (thisBrowser w)
    else (Ok [], thisBrowser w) in
  let allTrends :=
    allTrends ++ contribution (includeTwitter o) twitterTrends in
  let allTrends :=
    allTrends ++ contribution (includeReddit o) (fetchRedditTrends w) in
  let outcome := Ok (rankTrends allTrends (limit o)) in
  match fst (closeBrowser w browser) with
  | Ok _ => outcome
  | Throw e => Throw e
  end.

End TrendService.

(** ** OpenAIService: parsing the replies of the generative backend *)

#[local] Set Warnings "-register-all".

(** The values a parsed JSON document is made of. *)
Inductive json : Type :=
| JNull
| JBool (b : bool)
| JNumber (q : Q)
| JString (s : string)
| JArray (items : list json)
| JObject (members : list (string * json)).

Record ArticleData : Type := mkArticleData {
  adTitle : string;
  adExcerpt : string;
  adContent : string;
  adTags : list string;
  adSlug : string
}.

Record SeoData : Type := mkSeoData {
  metaTitle : json;
  metaDescription : json;
  keywords : json;
  ogTitle : json;
  ogDescription : json
}.

(** [completion.choices[0].message.content]. *)
Inductive MessageContent : Type :=
| Text (s : string)
| Null
| Undefined.

Module OpenAIService.

(** *** generateSlug *)

Definition isSlugChar (c : ascii) : bool :=
  let n := JS.code c in
  ((97 <=? n) && (n <=? 122))
  || ((48 <=? n) && (n <=? 57))
  || JS.isWhiteSpace c
  || (n =? 45).

Definition isHyphen (c : ascii) : bool := JS.code c =? 45.

Fixpoint filterChars (keep : ascii -> bool) (s : string) : string :=
  match s with
  | EmptyString => EmptyString
  | String c s' =>
      if keep c then String c (filterChars keep s') else filterChars keep s'
  end.

(** [s.replace(/X+/g, '-')] for a character class [X]: every maximal run
    of characters of the class becomes one hyphen.  [inRun] tells that
    the previous character belonged to the class. *)
Fixpoint collapseRuns (class : ascii -> bool) (inRun : bool) (s : string)
  : string :=
  match s with
  | EmptyString => EmptyString
  | String c s' =>
      if class c
      then if inRun then collapseRuns class true s'
           else String "-"%char (collapseRuns class true s')
      else String c (collapseRuns class false s')
  end.

(** The argument of the final [trim('-')] is ignored by [trim], which
    strips white space. *)
Definition generateSlug (title : string) : string :=
  JS.trim
    (collapseRuns isHyphen false
       (collapseRuns JS.isWhiteSpace false
          (filterChars isSlugChar (JS.toLowerCase title)))).

(** *** parseGeneratedContent *)

Inductive SectionName : Type :=
| NoSection
| TitleSection
| ExcerptSection
| TagsSection
| ContentSection.

Record ParseState : Type := mkParseState {
  psTitle : string;
  psExcerpt : string;
  psTags : list string;
  psArticleContent : string;
  psCurrentSection : SectionName
}.

Definition initialState : ParseState :=
  mkParseState "" "" [] "" NoSection.

Definition newline : string := String (ascii_of_nat 10) EmptyString.

Definition isContentSection (sec : SectionName) : bool :=
  match sec with
  | ContentSection => true
  | _ => false
  end.

Definition nonEmpty (s : string) : bool := negb (String.eqb s "").

Definition parseLine (st : ParseState) (line : string) : ParseState :=
  let trimmedLine := JS.trim line in
  if JS.startsWith trimmedLine "TITLE:" then
    mkParseState (JS.trim (JS.replaceFirst trimmedLine "TITLE:" ""))
                 (psExcerpt st) (psTags st) (psArticleContent st)
                 TitleSection
  else if JS.startsWith trimmedLine "EXCERPT:" then
    mkParseState (psTitle st)
                 (JS.trim (JS.replaceFirst trimmedLine "EXCERPT:" ""))
                 (psTags st) (psArticleContent st) ExcerptSection
  else if JS.startsWith trimmedLine "TAGS:" then
    let tagString := JS.trim (JS.replaceFirst trimmedLine "TAGS:" "") in
    mkParseState (psTitle st) (psExcerpt st)
                 (map (fun tag => JS.toLowerCase (JS.trim tag))
                      (JS.split tagString ","))
                 (psArticleContent st) TagsSection
  else if JS.startsWith trimmedLine "CONTENT:" then
    mkParseState (psTitle st) (psExcerpt st) (psTags st)
                 (psArticleContent st) ContentSection
  else if isContentSection (psCurrentSection st) && nonEmpty trimmedLine then
    mkParseState (psTitle st) (psExcerpt st) (psTags st)
                 (psArticleContent st ++ line ++ newline)%string
                 ContentSection
  else st.

Definition parseLines (content : string) : ParseState :=
  fold_left parseLine (JS.split content newline) initialState.

(** [line.replace(/^#+\s*/, '')]. *)
Fixpoint dropHashes (s : string) : string :=
  match s with
  | String "#"%char s' => dropHashes s'
  | _ => JS.trimStart s
  end.

Definition stripHeading (line : string) : string :=
  if JS.startsWith line "#" then dropHashes line else line.

Fixpoint firstTitleLine (lines : list string) : string :=
  match lines with
  | [] => ""
  | line :: rest =>
      if JS.startsWith line "#" || (20 <? String.length (JS.trim line))
      then JS.trim (stripHeading line)
      else firstTitleLine rest
  end.

Record FallbackData : Type := mkFallbackData {
  fbTitle : string;
  fbExcerpt : string;
  fbContent : string;
  fbTags : list string
}.

Definition orElse (s default : string) : string :=
  if nonEmpty s then s else default.

Definition fallbackParsing (content : string) (trendData : Trend)
  : FallbackData :=
  let lines :=
    filter (fun line => nonEmpty (JS.trim line)) (JS.split content newline) in
  let title := firstTitleLine lines in
  let paragraphs :=
    filter (fun p => nonEmpty (JS.trim p) && negb (JS.startsWith p "#"))
           (JS.split content (newline ++ newline)%string) in
  let excerpt :=
    match paragraphs with
    | p :: _ => (JS.substring0 200 p ++ "...")%string
    | [] => ""
    end in
  let tags :=
    JS.toLowerCase (keyword trendData)
    :: filter (fun word => 3 <? String.length word)
              (JS.split (JS.toLowerCase (keyword trendData)) " ") in
  {| fbTitle :=
       orElse title (keyword trendData ++ ": Latest Trends and Insights")%string;
     fbExcerpt :=
       orElse excerpt
              ("Discover the latest insights about " ++ keyword trendData
               ++ " and its growing significance.")%string;
     fbContent := content;
     fbTags := JS.distinct tags |}.

(** The test that sends [parseGeneratedContent] to [fallbackParsing]. *)
Definition needsFallback (st : ParseState) : bool :=
  negb (nonEmpty (psTitle st))
  || negb (nonEmpty (psExcerpt st))
  || negb (nonEmpty (psArticleContent st)).

Definition isEmptyList {A : Type} (l : list A) : bool :=
  match l with
  | [] => true
  | _ => false
  end.

Definition parseGeneratedContent (content : string) (trendData : Trend)
  : ArticleData :=
  let st := parseLines content in
  let st :=
    if needsFallback st then
      let fallbackData := fallbackParsing content trendData in
      mkParseState
        (orElse (psTitle st) (fbTitle fallbackData))
        (orElse (psExcerpt st) (fbExcerpt fallbackData))
        (if isEmptyList (psTags st) then fbTags fallbackData else psTags st)
        (orElse (psArticleContent st) (fbContent fallbackData))
        (psCurrentSection st)
    else st in
  {| adTitle :=
       orElse (psTitle st)
              ("Understanding " ++ keyword trendData
               ++ ": A Comprehensive Guide")%string;
     adExcerpt :=
       orElse (psExcerpt st)
              ("Explore the trending topic of " ++ keyword trendData
               ++ " and discover its impact and significance.")%string;
     adContent := orElse (JS.trim (psArticleContent st)) content;
     adTags :=
       if isEmptyList (psTags st)
       then [JS.toLowerCase (keyword trendData)]
       else psTags st;
     adSlug := generateSlug (orElse (psTitle st) (keyword trendData)) |}.

(** *** generateSEOMetadata *)

Definition truthy (v : json) : bool :=
  match v with
  | JNull => false
  | JBool b => b
  | JNumber q => negb (Qeq_bool q 0)
  | JString s => nonEmpty s
  | JArray _ => true
  | JObject _ => true
  end.

Fixpoint member (key : string) (members : list (string * json))
  : option json :=
  match members with
  | [] => None
  | (k, v) :: members' => if String.eqb k key then Some v else member key members'
  end.

(** [value.key]; [None] is [undefined].  Reading a property of [null]
    throws, reading an absent one of any other value gives [undefined]. *)
Definition getProperty (value : json) (key : string) : result (option json) :=
  match value with
  | JNull =>
      Throw ("Cannot read properties of null (reading '" ++ key ++ "')")
  | JObject members => Ok (member key members)
  | _ => Ok None
  end.

(** [value || default]. *)
Definition orDefault (value : option json) (default : json) : json :=
  match value with
  | Some v => if truthy v then v else default
  | None => default
  end.

Definition defaultSeo (articleData : ArticleData) (trendData : Trend)
  : SeoData :=
  {| metaTitle := JString (adTitle articleData);
     metaDescription := JString (adExcerpt articleData);
     keywords := JArray [JString (keyword trendData)];
     ogTitle := JString (adTitle articleData);
     ogDescription := JString (adExcerpt articleData) |}.

(** [line.split(':')[1]?.trim()]. *)
Definition afterColon (line : string) : option string :=
  match JS.split line ":" with
  | _ :: second :: _ => Some (JS.trim second)
  | _ => None
  end.

Definition scanLine (seoData : SeoData) (line : string) : SeoData :=
  let trimmedLine := JS.toLowerCase (JS.trim line) in
  if JS.includes trimmedLine "meta title" || JS.includes trimmedLine "title:"
  then
    match afterColon line with
    | Some title =>
        if nonEmpty title
        then mkSeoData (JString title) (metaDescription seoData)
                       (keywords seoData) (ogTitle seoData)
                       (ogDescription seoData)
        else seoData
    | None => seoData
    end
  else if JS.includes trimmedLine "meta description"
          || JS.includes trimmedLine "description:"
  then
    match afterColon line with
    | Some description =>
        if nonEmpty description
        then mkSeoData (metaTitle seoData) (JString description)
                       (keywords seoData) (ogTitle seoData)
                       (ogDescription seoData)
        else seoData
    | None => seoData
    end
  else if JS.includes trimmedLine "keywords"
  then
    match afterColon line with
    | Some keywordList =>
        if nonEmpty keywordList
        then mkSeoData (metaTitle seoData) (metaDescription seoData)
                       (JArray (map (fun k => JString (JS.trim k))
                                    (JS.split keywordList ",")))
                       (ogTitle seoData) (ogDescription seoData)
        else seoData
    | None => seoData
    end
  else seoData.

(** [content.split] throws when the content is not a string. *)
Definition parseSEOContent (content : MessageContent)
           (articleData : ArticleData) (trendData : Trend)
  : result SeoData :=
  match content with
  | Text c =>
      Ok (fold_left scanLine (JS.split c newline)
                    (defaultSeo articleData trendData))
  | Null => Throw "Cannot read properties of null (reading 'split')"
  | Undefined => Throw "Cannot read properties of undefined (reading 'split')"
  end.

Section SeoMetadata.

(** [JSON.parse] on strings, a built-in of the language. *)
Variable JSON_parse : string -> result json.

(** [JSON.parse(seoContent)]: the argument is first converted to a string. *)
Definition parseJson (seoContent : MessageContent) : result json :=
  match seoContent with
  | Text c => JSON_parse c
  | Null => Ok JNull
  | Undefined => Throw "SyntaxError: undefined is not valid JSON"
  end.

(** [completion] is the outcome of the request to the backend up to the
    reading of [choices[0].message.content]. *)
Definition generateSEOMetadata (articleData : ArticleData)
           (trendData : Trend) (completion : result MessageContent)
  : result SeoData :=
  tryCatch
    (seoContent <- completion ;;
     tryCatch
       (seoData <- parseJson seoContent ;;
        mt <- getProperty seoData "metaTitle" ;;
        md <- getProperty seoData "metaDescription" ;;
        kw <- getProperty seoData "keywords" ;;
        ot <- getProperty seoData "ogTitle" ;;
        od <- getProperty seoData "ogDescription" ;;
        Ok {| metaTitle := orDefault mt (JString (adTitle articleData));
              metaDescription := orDefault md (JString (adExcerpt articleData));
              keywords := orDefault kw (JArray [JString (keyword trendData)]);
              ogTitle := orDefault ot (JString (adTitle articleData));
              ogDescription := orDefault od (JString (adExcerpt articleData)) |})
       (fun _ => parseSEOContent seoContent articleData trendData))
    (fun _ => Ok (defaultSeo articleData trendData)).

End SeoMetadata.

End OpenAIService.

(** ** Regular expressions

    [new RegExp(pattern, 'i')] and [test], for the patterns written with
    literal characters, [.], [^], [$], [|], capturing groups and the
    quantifiers [*], [+], [?] (greedy or lazy).  Whether a string has a
    match does not depend on the order in which the matcher tries the
    alternatives, so the matcher below only decides that. *)

Module RegExp.

Inductive regex : Type :=
| Empty
| Char (c : ascii)
| AnyChar
| InputStart
| InputEnd
| Seq (r1 r2 : regex)
| Alt (r1 r2 : regex)
| Star (r : regex)
| Plus (r : regex)
| Opt (r : regex).

(** Outcome of reading a piece of a pattern: the expression read and the
    rest of the pattern, a syntax error, or a construct that is not among
    the ones above. *)
Inductive parsing : Type :=
| Read (r : regex) (rest : string)
| SyntaxError
| Other.

Definition isQuantifier (c : ascii) : bool :=
  let n := JS.code c in (n =? 42) || (n =? 43) || (n =? 63).

Definition startsWithQuantifier (s : string) : bool :=
  match s with
  | String c _ => isQuantifier c
  | EmptyString => false
  end.

(** A quantifier, if there is one, applied to the atom just read, and a
    [?] after it, which makes it lazy, passed over. *)
Definition quantified (atom : regex) (s : string) : regex * string :=
  let lazy (rest : string) : string :=
    match rest with
    | String "?"%char rest' => rest'
    | _ => rest
    end in
  match s with
  | String "*"%char rest => (Star atom, lazy rest)
  | String "+"%char rest => (Plus atom, lazy rest)
  | String "?"%char rest => (Opt atom, lazy rest)
  | _ => (atom, s)
  end.

(** [parseTerms] reads the terms of one alternative onto [acc], up to a
    [|], a [)] or the end; [parseDisjunction] reads alternatives up to a
    [)] or the end.  Every call passes at least one character, so the
    length of the pattern bounds the depth of the calls. *)
Fixpoint parseTerms (fuel : nat) (acc : regex) (s : string) : parsing :=
  match fuel with
  | O => Other
  | S fuel' =>
      match s with
      | EmptyString => Read acc EmptyString
      | String c s' =>
          match c with
          | "|"%char | ")"%char => Read acc s
          | "*"%char | "+"%char | "?"%char => SyntaxError
          | "\"%char | "["%char | "{"%char => Other
          | "^"%char =>
              if startsWithQuantifier s' then SyntaxError
              else parseTerms fuel' (Seq acc InputStart) s'
          | "$"%char =>
              if startsWithQuantifier s' then SyntaxError
              else parseTerms fuel' (Seq acc InputEnd) s'
          | "("%char =>
              match s' with
              | String "?"%char _ => Other
              | _ =>
                  match parseDisjunction fuel' s' with
                  | Read group (String ")"%char rest) =>
                      let '(term, rest') := quantified group rest in
                      parseTerms fuel' (Seq acc term) rest'
                  | Read _ _ => SyntaxError
                  | failure => failure
                  end
              end
          | _ =>
              let atom := if JS.code c =? 46 then AnyChar else Char c in
              let '(term, rest') := quantified atom s' in
              parseTerms fuel' (Seq acc term) rest'
          end
      end
  end

with parseDisjunction (fuel : nat) (s : string) : parsing :=
  match fuel with
  | O => Other
  | S fuel' =>
      match parseTerms fuel' Empty s with
      | Read first (String "|"%char rest) =>
          match parseDisjunction fuel' rest with
          | Read others rest' => Read (Alt first others) rest'
          | failure => failure
          end
      | outcome => outcome
      end
  end.

Definition parsePattern (pattern : string) : parsing :=
  match parseDisjunction (2 * String.length pattern + 2) pattern with
  | Read r EmptyString => Read r EmptyString
  | Read _ _ => SyntaxError
  | failure => failure
  end.

(** Equality of characters under the [i] flag. *)
Definition sameLetter (c d : ascii) : bool :=
  Ascii.eqb (JS.toLowerCaseChar c) (JS.toLowerCaseChar d).

Definition isLineTerminator (c : ascii) : bool :=
  let n := JS.code c in (n =? 10) || (n =? 13).

Definition isEmptyString (s : string) : bool :=
  match s with
  | EmptyString => true
  | _ => false
  end.

(** [matchHere r atStart s k]: [r] matches a prefix of [s], which begins
    at index 0 of the input iff [atStart], and the continuation [k]
    accepts what follows.  An iteration of a starred expression that
    consumes nothing is not repeated. *)
Fixpoint matchHere (r : regex) (atStart : bool) (s : string)
         (k : bool -> string -> bool) : bool :=
  let star (body : regex) :=
    (fix iterate (n : nat) (atStart : bool) (s : string) : bool :=
       k atStart s
       || match n with
          | O => false
          | S n' =>
              matchHere body atStart s
                (fun atStart' s' =>
                   (String.length s' <? String.length s)
                   && iterate n' atStart' s')
          end) in
  match r with
  | Empty => k atStart s
  | Char c =>
      match s with
      | String d s' => sameLetter c d && k false s'
      | EmptyString => false
      end
  | AnyChar =>
      match s with
      | String d s' => negb (isLineTerminator d) && k false s'
      | EmptyString => false
      end
  | InputStart => atStart && k atStart s
  | InputEnd => isEmptyString s && k atStart s
  | Seq r1 r2 =>
      matchHere r1 atStart s (fun atStart' s' => matchHere r2 atStart' s' k)
  | Alt r1 r2 => matchHere r1 atStart s k || matchHere r2 atStart s k
  | Star body => star body (String.length s) atStart s
  | Plus body =>
      matchHere body atStart s
        (fun atStart' s' => star body (String.length s') atStart' s')
  | Opt body => matchHere body atStart s k || k atStart s
  end.

(** A match may begin at any index. *)
Fixpoint search (r : regex) (atStart : bool) (s : string) : bool :=
  matchHere r atStart s (fun _ _ => true)
  || match s with
     | EmptyString => false
     | String _ s' => search r false s'
     end.

(** [new RegExp(pattern, 'i')]: the [test] of the expression, or the
    exception of the constructor.  [elsewhere] is the constructor on the
    patterns that use other constructs. *)
Definition compile (elsewhere : string -> result (string -> bool))
           (pattern : string) : result (string -> bool) :=
  match parsePattern pattern with
  | Read r _ => Ok (search r true)
  | SyntaxError => Throw "SyntaxError: Invalid regular expression"
  | Other => elsewhere pattern
  end.

End RegExp.

(** ** Generated articles, the document store and the collaborators *)

(** A generated article as handed to the store, and a stored document. *)
Record Article : Type := mkArticle {
  articleData : ArticleData;
  seo : SeoData;
  trendData : Trend;
  articleCategory : string;
  readTime : nat
}.

Definition articleTitle (a : Article) : string := adTitle (articleData a).

(** The external collaborators of one run.
    - [sourcesAt n]: the sources as they answer the aggregation that
      follows [n] earlier ones;
    - [articleCompletion], [seoCompletion]: the outcome of the two requests
      to the generative backend, up to the reading of the content of the
      first choice;
    - [JSON_parse]: the built-in;
    - [regExpElsewhere]: the [RegExp] constructor on the patterns that
      [RegExp.compile] does not interpret;
    - [save store document]: [new Article(document).save()] on a
      collection holding [store], with the validation, hooks and indexes
      of the schema: the collection and the document as saved, or the
      exception. *)
Record World : Type := mkWorld {
  sourcesAt : nat -> TrendService.Sources;
  articleCompletion : Trend -> result MessageContent;
  seoCompletion : ArticleData -> Trend -> result MessageContent;
  JSON_parse : string -> result json;
  regExpElsewhere : string -> result (string -> bool);
  save : list Article -> Article -> result (list Article * Article)
}.

(** What a run changes: the collection of articles, and the record of the
    aggregations made, each with its options. *)
Record Env : Type := mkEnv {
  store : list Article;
  aggregations : list TrendService.TrendOptions
}.

(** A computation that reads and changes the environment and returns or
    throws. *)
Definition Eff (A : Type) : Type := Env -> result A * Env.

Definition ret {A : Type} (a : A) : Eff A := fun env => (Ok a, env).

Definition raise {A : Type} (message : string) : Eff A :=
  fun env => (Throw message, env).

Definition bindE {A B : Type} (m : Eff A) (k : A -> Eff B) : Eff B :=
  fun env =>
    match m env with
    | (Ok a, env') => k a env'
    | (Throw e, env') => (Throw e, env')
    end.

Definition tryCatchE {A : Type} (m : Eff A) (handler : string -> Eff A)
  : Eff A :=
  fun env =>
    match m env with
    | (Ok a, env') => (Ok a, env')
    | (Throw e, env') => handler e env'
    end.

Notation "x <-- m ;; k" := (bindE m (fun x => k))
  (at level 61, m at next level, right associativity).

(** [await this.trendService.getAllTrends(options)]. *)
Definition aggregate (w : World) (options : TrendService.TrendOptions)
  : Eff (list Trend) :=
  fun env =>
    (TrendService.getAllTrends (sourcesAt w (List.length (aggregations env)))
                               options,
     mkEnv (store env) (aggregations env ++ [options])).

Module Generation.

(** [Math.ceil(n / 200)]. *)
Definition ceilDiv200 (n : nat) : nat := (n + 199) / 200.

(** [generateArticle(trendData, options)]; of the options only [category]
    reaches the article, the others go into the prompt. *)
Definition generateArticle (w : World) (trend : Trend) (category : string)
  : result Article :=
  tryCatch
    (generatedContent <- articleCompletion w trend ;;
     match generatedContent with
     | Text content =>
         let parsed := OpenAIService.parseGeneratedContent content trend in
         seoData <- OpenAIService.generateSEOMetadata
                      (JSON_parse w) parsed trend
                      (seoCompletion w parsed trend) ;;
         Ok {| articleData := parsed;
               seo := seoData;
               trendData := trend;
               articleCategory := category;
               readTime :=
                 ceilDiv200 (List.length (JS.split (adContent parsed) " ")) |}
     | Null => Throw "Cannot read properties of null (reading 'split')"
     | Undefined =>
         Throw "Cannot read properties of undefined (reading 'split')"
     end)
    (fun message => Throw ("Failed to generate article: " ++ message)%string).

(** [generateMultipleArticles(trends, { delay })]: [maxArticles] and the
    options of the articles take their defaults, 5 and the category
    [general].  A failed generation is skipped.  The pauses between the
    requests change nothing that is modelled. *)
Definition generateMultipleArticles (w : World) (trends : list Trend)
  : list Article :=
  let selectedTrends := JS.sliceFrom0 trends 5 in
  flat_map
    (fun trend =>
       match generateArticle w trend "general" with
       | Ok article => [article]
       | Throw _ => []
       end)
    selectedTrends.

End Generation.

Module ArticleService.

(** [Article.findOne({ title: { $regex: new RegExp(title, 'i') } })]: the
    first document, in the order of insertion, whose title the expression
    matches.  The constructor runs, and can throw, before the query is
    sent; the store evaluates the expression, and on the constructs that
    [RegExp] interprets its matching is that of the language. *)
Definition findOneByTitle (w : World) (title : string) : Eff (option Article) :=
  fun env =>
    match RegExp.compile (regExpElsewhere w) title with
    | Ok test => (Ok (find (fun a => test (articleTitle a)) (store env)), env)
    | Throw e => (Throw e, env)
    end.

(** [new Article(articleData).save()]. *)
Definition saveNew (w : World) (document : Article) : Eff Article :=
  fun env =>
    match save w (store env) document with
    | Ok (store', saved) => (Ok saved, mkEnv store' (aggregations env))
    | Throw e => (Throw e, env)
    end.

Definition createArticle (w : World) (document : Article) : Eff Article :=
  tryCatchE
    (existingArticle <-- findOneByTitle w (articleTitle document) ;;
     match existingArticle with
     | Some existing => ret existing
     | None => saveNew w document
     end)
    (fun error => raise error).

Record GenerationOptions : Type := mkGenerationOptions {
  maxArticles : Z;
  categories : list string;
  geo : string;
  includeGoogle : bool;
  includeTwitter : bool;
  includeReddit : bool;
  (** handed over by the callers, not read by [generateArticlesFromTrends] *)
  trends : option (list Trend)
}.

Definition saveAll (w : World) (generatedArticles : list Article)
  : Eff (list Article) :=
  fold_left
    (fun (saved : Eff (list Article)) (document : Article) =>
       savedArticles <-- saved ;;
       tryCatchE
         (article <-- createArticle w document ;;
          ret (savedArticles ++ [article]))
         (fun _ => ret savedArticles))
    generatedArticles (ret []).

Definition generateArticlesFromTrends (w : World) (options : GenerationOptions)
  : Eff (list Article) :=
  tryCatchE
    (fetched <-- aggregate w
       {| TrendService.includeGoogle := includeGoogle options;
          TrendService.includeTwitter := includeTwitter options;
          TrendService.includeReddit := includeReddit options;
          TrendService.geo := geo options;
          TrendService.categoryFilter := None;
          TrendService.limit := (maxArticles options * 2)%Z |} ;;
     match fetched with
     | [] => ret []
     | _ =>
         let filteredTrends :=
           match categories options with
           | [] => fetched
           | _ => filter (fun trend =>
                            existsb (isCategory (category trend))
                                    (categories options))
                         fetched
           end in
         let selectedTrends :=
           JS.sliceFrom0 filteredTrends (maxArticles options) in
         let generatedArticles :=
           Generation.generateMultipleArticles w selectedTrends in
         saveAll w generatedArticles
     end)
    (fun error => raise error).

End ArticleService.

(** ** The route [POST /generate-articles] *)

Module TrendsRouter.

Record TrendsCache : Type := mkCache {
  data : option (list Trend);
  timestamp : option Z;
  ttl : Z
}.

Record Request : Type := mkRequest {
  reqMaxArticles : Z;
  reqCategories : list string;
  reqUseCache : bool
}.

Inductive Response : Type :=
| Success (articles : list Article) (trendsUsed : list string)
| Failure (message : string).

(** The cached candidates, when the cache is to be used, is filled and is
    younger than its time to live; an empty array otherwise. *)
Definition cachedTrends (cache : TrendsCache) (now : Z) (useCache : bool)
  : list Trend :=
  match useCache, data cache, timestamp cache with
  | true, Some cached, Some stamp =>
      if (stamp =? 0)%Z then []
      else
        let cacheAge := (now - stamp)%Z in
        if (cacheAge <? ttl cache)%Z then cached else []
  | _, _, _ => []
  end.

Definition generateArticlesHandler (w : World) (cache : TrendsCache)
           (now : Z) (req : Request) : Env -> Response * Env :=
  fun env =>
    let run : Eff Response :=
      let cached := cachedTrends cache now (reqUseCache req) in
      candidates <--
        match cached with
        | [] =>
            aggregate w
              {| TrendService.includeGoogle := true;
                 TrendService.includeTwitter := true;
                 TrendService.includeReddit := false;
                 TrendService.geo := "US";
                 TrendService.categoryFilter := None;
                 TrendService.limit := (reqMaxArticles req * 3)%Z |}
        | _ => ret cached
        end ;;
      articles <--
        ArticleService.generateArticlesFromTrends w
          {| ArticleService.maxArticles := reqMaxArticles req;
             ArticleService.categories := reqCategories req;
             ArticleService.geo := "US";
             ArticleService.includeGoogle := true;
             ArticleService.includeTwitter := true;
             ArticleService.includeReddit := false;
             ArticleService.trends :=
               Some (JS.sliceFrom0 candidates (reqMaxArticles req * 2)) |} ;;
      ret (Success articles
                   (map keyword
                        (JS.sliceFrom0 candidates (reqMaxArticles req)))) in
    match run env with
    | (Ok response, env') => (response, env')
    | (Throw message, env') => (Failure message, env')
    end.

(** *** The routes [GET /], [POST /fetch] and [DELETE /cache]

    The handlers share the variable [trendsCache]; each returns its value
    after the request. *)

Inductive SourceChoice : Type :=
| AllSources
| OnlyGoogle
| OnlyTwitter
| OnlyReddit.

(** The query of [GET /] after validation, with its defaults filled in. *)
Record TrendsQuery : Type := mkTrendsQuery {
  qSource : SourceChoice;
  qCategory : option string;
  qGeo : string;
  qLimit : Z;
  qFresh : bool
}.

Inductive TrendsResponse : Type :=
| FromCache (cachedData : list Trend) (cacheAgeMinutes : Z)
| Fetched (fetchedData : list Trend) (totalFetched : nat)
| Refreshed (refreshedData : list Trend)
| CacheCleared
| Unauthorized
| ServerError (message : string).

(** The cached candidates and their age, when the cache is filled, has a
    time stamp and is younger than its time to live. *)
Definition freshEntry (cache : TrendsCache) (now : Z)
  : option (list Trend * Z) :=
  match data cache, timestamp cache with
  | Some cached, Some stamp =>
      if (stamp =? 0)%Z then None
      else
        let cacheAge := (now - stamp)%Z in
        if (cacheAge <? ttl cache)%Z then Some (cached, cacheAge) else None
  | _, _ => None
  end.

Definition includes (choice wanted : SourceChoice) : bool :=
  match choice, wanted with
  | AllSources, _ => true
  | OnlyGoogle, OnlyGoogle => true
  | OnlyTwitter, OnlyTwitter => true
  | OnlyReddit, OnlyReddit => true
  | _, _ => false
  end.

Definition queryAggregation (q : TrendsQuery) : TrendService.TrendOptions :=
  {| TrendService.includeGoogle := includes (qSource q) OnlyGoogle;
     TrendService.includeTwitter := includes (qSource q) OnlyTwitter;
     TrendService.includeReddit := includes (qSource q) OnlyReddit;
     TrendService.geo := qGeo q;
     TrendService.categoryFilter := qCategory q;
     TrendService.limit := (qLimit q * 2)%Z |}.

(** [GET /].  [now] is the clock when the age of the cache is taken,
    [later] the clock when the cache is written. *)
Definition getTrendsHandler (w : World) (cache : TrendsCache)
           (now later : Z) (q : TrendsQuery)
  : Env -> TrendsResponse * TrendsCache * Env :=
  fun env =>
    match (if qFresh q then None else freshEntry cache now) with
    | Some (cached, cacheAge) =>
        (FromCache (JS.sliceFrom0 cached (qLimit q)) (cacheAge / 1000 / 60)%Z,
         cache, env)
    | None =>
        match aggregate w (queryAggregation q) env with
        | (Ok fetched, env') =>
            (Fetched (JS.sliceFrom0 fetched (qLimit q)) (List.length fetched),
             mkCache (Some fetched) (Some later) (ttl cache),
             env')
        | (Throw message, env') => (ServerError message, cache, env')
        end
    end.

(** The body of [POST /fetch] after validation, with its defaults. *)
Record FetchRequest : Type := mkFetchRequest {
  fSources : list SourceChoice;
  fGeo : string;
  fCategories : list string;
  fLimit : Z
}.

Definition named (wanted : SourceChoice) (sources : list SourceChoice) : bool :=
  existsb (fun choice =>
             match choice, wanted with
             | OnlyGoogle, OnlyGoogle => true
             | OnlyTwitter, OnlyTwitter => true
             | OnlyReddit, OnlyReddit => true
             | _, _ => false
             end)
          sources.

Definition fetchAggregation (r : FetchRequest) : TrendService.TrendOptions :=
  {| TrendService.includeGoogle := named OnlyGoogle (fSources r);
     TrendService.includeTwitter := named OnlyTwitter (fSources r);
     TrendService.includeReddit := named OnlyReddit (fSources r);
     TrendService.geo := fGeo r;
     TrendService.categoryFilter := None;
     TrendService.limit := fLimit r |}.

(** [POST /fetch]; [authorized] tells that the request carries a bearer
    token, which [authenticateAdmin] requires. *)
Definition fetchTrendsHandler (w : World) (cache : TrendsCache) (now : Z)
           (authorized : bool) (r : FetchRequest)
  : Env -> TrendsResponse * TrendsCache * Env :=
  fun env =>
    if authorized then
      match aggregate w (fetchAggregation r) env with
      | (Ok fetched, env') =>
          let filteredTrends :=
            match fCategories r with
            | [] => fetched
            | _ => filter (fun trend =>
                             existsb (isCategory (category trend))
                                     (fCategories r))
                          fetched
            end in
          (Refreshed filteredTrends,
           mkCache (Some filteredTrends) (Some now) (ttl cache),
           env')
      | (Throw message, env') => (ServerError message, cache, env')
      end
    else (Unauthorized, cache, env).

(** [DELETE /cache]. *)
Definition clearCacheHandler (cache : TrendsCache) (authorized : bool)
  : TrendsResponse * TrendsCache :=
  if authorized
  then (CacheCleared, mkCache None None (ttl cache))
  else (Unauthorized, cache).

End TrendsRouter.

(** ** Reference definitions used in the statements and proofs *)

Module Reference.

(** The edit distance by recursion on the two sequences, comparing their
    first elements: the textbook recurrence that the matrix of
    [levenshteinDistance] tabulates (there on the prefixes, read from
    their last characters). *)
Fixpoint dist (s : list ascii) : list ascii -> nat :=
  fix inner (t : list ascii) : nat :=
    match s, t with
    | [], _ => List.length t
    | _, [] => List.length s
    | a :: s', b :: t' =>
        if Ascii.eqb a b then dist s' t'
        else Nat.min (Nat.min (dist s' t' + 1) (inner t' + 1))
                     (dist s' t + 1)
    end.

(** The reversed prefixes [c1 :: p], [c2 :: c1 :: p], ... of [p]
    extended by the characters of [rest] one at a time. *)
Fixpoint extensions (p rest : list ascii) : list (list ascii) :=
  match rest with
  | [] => []
  | c :: rest' => (c :: p) :: extensions (c :: p) rest'
  end.

(** Row of the matrix for the prefix of [str2] whose reversal is [p2]. *)
Definition row (p2 s1 : list ascii) : list nat :=
  dist p2 [] :: map (dist p2) (extensions [] s1).

(** [similar t u]: the test of [deduplicateTrends] on the normalized
    keywords of two candidates. *)
Definition similar (t u : Trend) : bool :=
  TrendService.gt
    (TrendService.calculateSimilarity (TrendService.normalize t)
                                      (TrendService.normalize u))
    TrendService.similarityThreshold.

(** Retained candidates are pairwise dissimilar: no two of them pass the
    similarity test. *)
Definition dissimilar (unique : list Trend) : Prop :=
  forall i j a b,
    i <> j ->
    nth_error unique i = Some a ->
    nth_error unique j = Some b ->
    similar a b = false.

(** One iteration of the loop of [deduplicateTrends], on the list of
    retained candidates alone. *)
Definition dedupStep (unique : list Trend) (t : Trend) : list Trend :=
  if existsb (similar t) unique then unique else unique ++ [t].

(** First-seen-wins read over all pairs of input candidates: of two
    input candidates that are similar, the earlier one is retained. *)
Definition earlierOfSimilarPairRetained (trends : list Trend) : Prop :=
  forall i j a b,
    i < j ->
    nth_error trends i = Some a ->
    nth_error trends j = Some b ->
    similar a b = true ->
    In a (TrendService.deduplicateTrends trends).

(** The score of a social-trends candidate as a rank decay from the
    1-based position [p] itself. *)
Definition scoreDecaysFromPosition (t : Trend) : Prop :=
  exists p,
    position t = Some p
    /\ trendScore t = inject_Z (Z.max (100 - 5 * Z.of_nat p) 10).

Definition descendingByScore (l : list Trend) : Prop :=
  forall i j a b,
    i < j ->
    nth_error l i = Some a ->
    nth_error l j = Some b ->
    (trendScore b <= trendScore a)%Q.

(** What one source yields for the aggregation: the candidates made from
    the reply of its external call, none when the source is disabled or
    the call failed. *)
Definition candidatesOf {A : Type} (enabled : bool) (reply : result A)
           (convert : A -> list Trend) : list Trend :=
  if enabled
  then match reply with
       | Ok a => convert a
       | Throw _ => []
       end
  else [].

Definition failed {A : Type} (reply : result A) : Prop :=
  exists e, reply = Throw e.

(** What the social-trends page yields in one run: the browser is
    launched first unless the instance holds one. *)
Definition twitterReply (w : TrendService.Sources) : result (list string) :=
  if TrendService.thisBrowser w then TrendService.trendsPage w
  else (_ <- TrendService.launchBrowser w ;; TrendService.trendsPage w).

(** The run ends with a browser to close: the instance held one, or the
    social-trends source launched one. *)
Definition holdsBrowser (w : TrendService.Sources)
           (o : TrendService.TrendOptions) : Prop :=
  TrendService.thisBrowser w = true
  \/ (TrendService.includeTwitter o = true
      /\ TrendService.launchBrowser w = Ok tt).

(** The candidates gathered from the sources of one aggregation, in the
    order in which the sources are queried. *)
Definition gathered (w : TrendService.Sources) (o : TrendService.TrendOptions)
  : list Trend :=
  candidatesOf (TrendService.includeGoogle o)
               (TrendService.dailyTrends w (TrendService.geo o)
                                         (TrendService.categoryFilter o))
               (map (TrendService.googleTrend (TrendService.categoryFilter o)))
  ++ candidatesOf (TrendService.includeTwitter o)
                  (twitterReply w)
                  TrendService.scrapeTrends
  ++ candidatesOf (TrendService.includeReddit o)
                  (TrendService.hotPosts w)
                  TrendService.redditTrends.

Definition desc (a b : Trend) : Prop := (trendScore b <= trendScore a)%Q.

(** No line of the reply is a TAGS line: none starts, once trimmed,
    with the marker. *)
Definition tagsMarkerAbsent (content : string) : Prop :=
  Forall (fun line => JS.startsWith (JS.trim line) "TAGS:" = false)
         (JS.split content OpenAIService.newline).

(** The tags made from a keyword alone: the lowercased keyword followed
    by its words of more than three characters, without repetition. *)
Definition keywordTags (keyword : string) : list string :=
  JS.distinct
    (JS.toLowerCase keyword
     :: filter (fun word => 3 <? String.length word)
               (JS.split (JS.toLowerCase keyword) " ")).




(** A string without white space. *)
Fixpoint noWhiteSpace (s : string) : bool :=
  match s with
  | EmptyString => true
  | String c s' => negb (JS.isWhiteSpace c) && noWhiteSpace s'
  end.

(** The characters with a meaning of their own in a pattern. *)
Definition isPatternCharacter (c : ascii) : bool :=
  existsb (Ascii.eqb c) (list_ascii_of_string "^$\.*+?()[{|").

(** A title without any of them. *)
Fixpoint plain (s : string) : bool :=
  match s with
  | EmptyString => true
  | String c s' => negb (isPatternCharacter c) && plain s'
  end.

(** The pattern that a plain title is read as: its characters in
    sequence after [acc]. *)
Fixpoint literal (acc : RegExp.regex) (s : string) : RegExp.regex :=
  match s with
  | EmptyString => acc
  | String c s' => literal (RegExp.Seq acc (RegExp.Char c)) s'
  end.

(** [s] is, up to the case of the letters, a prefix of [t], and [k]
    accepts what follows. *)
Fixpoint matchLiteral (s : string) (atStart : bool) (t : string)
         (k : bool -> string -> bool) : bool :=
  match s with
  | EmptyString => k atStart t
  | String c s' =>
      match t with
      | String d t' => RegExp.sameLetter c d && matchLiteral s' false t' k
      | EmptyString => false
      end
  end.

(** A computation that makes no aggregation. *)
Definition keepsAggregations {A : Type} (m : Eff A) : Prop :=
  forall env, aggregations (snd (m env)) = aggregations env.

(** The options of the aggregation of [generateArticlesFromTrends]. *)
Definition serviceAggregation (options : ArticleService.GenerationOptions)
  : TrendService.TrendOptions :=
  {| TrendService.includeGoogle := ArticleService.includeGoogle options;
     TrendService.includeTwitter := ArticleService.includeTwitter options;
     TrendService.includeReddit := ArticleService.includeReddit options;
     TrendService.geo := ArticleService.geo options;
     TrendService.categoryFilter := None;
     TrendService.limit := (ArticleService.maxArticles options * 2)%Z |}.

End Reference.

(** ** Concrete inputs *)

Module Inputs.

Definition candidate (k : string) (score : Q) : Trend :=
  mkTrend k GoogleTrends "general" score None.

(** Three keywords in a chain: each is one edit from the next, the first
    and the last are two edits apart. *)
Definition chainA : Trend := candidate "aaaaaa" (90 # 1).
Definition chainB : Trend := candidate "aaaaab" (85 # 1).
Definition chainC : Trend := candidate "aaaabb" (70 # 1).
Definition chain : list Trend := [chainA; chainB; chainC].

Definition noSources : TrendService.Sources :=
  {| TrendService.dailyTrends := fun _ _ => Throw "ETIMEDOUT";
     TrendService.launchBrowser := Throw "Failed to launch the browser process";
     TrendService.trendsPage := Throw "Navigation timeout";
     TrendService.hotPosts := Throw "Request failed with status code 429";
     TrendService.browserClose := Ok tt;
     TrendService.thisBrowser := false |}.

(** Only the search-trends source answers. *)
Definition googleOnly : TrendService.Sources :=
  {| TrendService.dailyTrends := fun _ _ =>
       Ok [ TrendService.mkSearch "Quantum Computing" (Some "500,000+");
            TrendService.mkSearch "Climate Change" (Some "2,000,000+");
            TrendService.mkSearch "Olympic Games" (Some "20,000+") ];
     TrendService.launchBrowser := Throw "Failed to launch the browser process";
     TrendService.trendsPage := Throw "Navigation timeout";
     TrendService.hotPosts := Throw "Request failed with status code 429";
     TrendService.browserClose := Ok tt;
     TrendService.thisBrowser := false |}.

(** Only the social-trends source answers; its browser is launched and
    closed. *)
Definition twitterOnly : TrendService.Sources :=
  {| TrendService.dailyTrends := fun _ _ => Throw "ETIMEDOUT";
     TrendService.launchBrowser := Ok tt;
     TrendService.trendsPage := Ok [" #Rocq "; "ab"; "Formal proofs"];
     TrendService.hotPosts := Throw "Request failed with status code 429";
     TrendService.browserClose := Ok tt;
     TrendService.thisBrowser := false |}.




Definition allSources (limit : Z) : TrendService.TrendOptions :=
  {| TrendService.includeGoogle := true;
     TrendService.includeTwitter := true;
     TrendService.includeReddit := true;
     TrendService.geo := "US";
     TrendService.categoryFilter := None;
     TrendService.limit := limit |}.

(** An article whose title has a parenthesised word. *)
Definition groupedTitle : Article :=
  {| articleData :=
       {| adTitle := "Why AI (Really) Matters";
          adExcerpt := "Artificial intelligence is changing how we work.";
          adContent := "Artificial intelligence is changing how we work and live.";
          adTags := ["ai"; "technology"];
          adSlug := "why-ai-really-matters" |};
     seo :=
       {| metaTitle := JString "Why AI (Really) Matters";
          metaDescription :=
            JString "Artificial intelligence is changing how we work.";
          keywords := JArray [JString "AI"];
          ogTitle := JString "Why AI (Really) Matters";
          ogDescription :=
            JString "Artificial intelligence is changing how we work." |};
     trendData := candidate "AI" (90 # 1);
     articleCategory := "technology";
     readTime := 1 |}.

(** The title of [groupedTitle] read as a pattern. *)
Definition groupedPattern : RegExp.regex :=
  Eval vm_compute in
    match RegExp.parsePattern "Why AI (Really) Matters" with
    | RegExp.Read r _ => r
    | _ => RegExp.Empty
    end.

(** A world whose sources and backend are down and whose collection
    accepts every document as it is. *)
Definition acceptingStore : World :=
  {| sourcesAt := fun _ => noSources;
     articleCompletion := fun _ => Throw "ECONNREFUSED";
     seoCompletion := fun _ _ => Throw "ECONNREFUSED";
     JSON_parse := fun _ => Throw "SyntaxError: Unexpected token";
     regExpElsewhere := fun _ => Throw "SyntaxError: Invalid regular expression";
     save := fun documents document => Ok (documents ++ [document], document) |}.

(** A cache filled one second before the request, with the default time
    to live of thirty minutes. *)
Definition freshCache : TrendsRouter.TrendsCache :=
  {| TrendsRouter.data := Some chain;
     TrendsRouter.timestamp := Some 1700000000000%Z;
     TrendsRouter.ttl := (30 * 60 * 1000)%Z |}.

Definition requestTime : Z := 1700000001000%Z.

Definition cachedRequest : TrendsRouter.Request :=
  {| TrendsRouter.reqMaxArticles := 3;
     TrendsRouter.reqCategories := ["technology"; "business"; "health"];
     TrendsRouter.reqUseCache := true |}.

End Inputs.

(** ** Further notions used in the statements *)

Module Notions.

(** [l1] is [l2] with some elements left out, the others in their order. *)
Inductive subsequence {A : Type} : list A -> list A -> Prop :=
| subsequence_nil : subsequence [] []
| subsequence_skip (x : A) (l1 l2 : list A) :
    subsequence l1 l2 -> subsequence l1 (x :: l2)
| subsequence_keep (x : A) (l1 l2 : list A) :
    subsequence l1 l2 -> subsequence (x :: l1) (x :: l2).

(** The categories [mapSubredditToCategory] can return. *)
Definition subredditCategories : list string :=
  [ "technology"; "science"; "politics"; "business"; "sports";
    "entertainment"; "health"; "travel"; "food"; "fashion"; "other" ].

(** Two candidates pass the similarity test in neither order. *)
Definition unlike (t u : Trend) : Prop := Reference.similar t u = false.

(** The candidates of [l] whose score is [q]. *)
Definition withScore (q : Q) (l : list Trend) : list Trend :=
  filter (fun t => Qeq_bool (trendScore t) q) l.

(** [a] was scraped before [b]: its position is smaller and its score is
    not lower. *)
Definition ranksBefore (a b : Trend) : Prop :=
  exists p q,
    position a = Some p /\ position b = Some q /\ p < q
    /\ (trendScore b <= trendScore a)%Q.

(** The characters of a slug: lowercase letters, digits and the hyphen. *)
Definition isSlugLetter (c : ascii) : bool :=
  let n := JS.code c in
  ((97 <=? n) && (n <=? 122)) || ((48 <=? n) && (n <=? 57)) || (n =? 45).

Fixpoint allChars (p : ascii -> bool) (s : string) : bool :=
  match s with
  | EmptyString => true
  | String c s' => p c && allChars p s'
  end.

(** No hyphen of [s] follows a hyphen; [afterHyphen] tells that a hyphen
    precedes [s]. *)
Fixpoint hyphensApart (afterHyphen : bool) (s : string) : bool :=
  match s with
  | EmptyString => true
  | String c s' =>
      if OpenAIService.isHyphen c
      then negb afterHyphen && hyphensApart true s'
      else hyphensApart false s'
  end.

(** A string without a line feed. *)
Fixpoint oneLine (s : string) : bool :=
  match s with
  | EmptyString => true
  | String c s' => negb (JS.code c =? 10) && oneLine s'
  end.

(** A piece of text that fills one line of a reply: not empty, on one
    line, without white space at either end. *)
Definition cleanLine (s : string) : Prop :=
  s <> "" /\ oneLine s = true /\ JS.trim s = s.

(** A line that begins with none of the four section markers. *)
Definition unmarked (s : string) : Prop :=
  JS.startsWith s "TITLE:" = false
  /\ JS.startsWith s "EXCERPT:" = false
  /\ JS.startsWith s "TAGS:" = false
  /\ JS.startsWith s "CONTENT:" = false.

(** A reply in the format that the prompt asks for, with a body of one
    line. *)
Definition formattedReply (title excerpt tags body : string) : string :=
  ("TITLE: " ++ title ++ OpenAIService.newline
   ++ "EXCERPT: " ++ excerpt ++ OpenAIService.newline
   ++ "TAGS: " ++ tags ++ OpenAIService.newline
   ++ "CONTENT:" ++ OpenAIService.newline
   ++ body)%string.

(** The sentence [fallbackParsing] uses when it finds no paragraph. *)
Definition defaultExcerpt (keyword : string) : string :=
  ("Discover the latest insights about " ++ keyword
   ++ " and its growing significance.")%string.

(** The backend answered with a text. *)
Definition hasText (reply : result MessageContent) : bool :=
  match reply with
  | Ok (Text _) => true
  | _ => false
  end.

(** [within title stored]: [stored] contains [title], up to the case of
    the letters. *)
Definition within (title stored : string) : bool :=
  JS.includes (JS.toLowerCase stored) (JS.toLowerCase title).

End Notions.

(** ** Further concrete inputs *)

Module MoreInputs.

(** The search-trends source answers with two searches of one traffic
    bucket; the other sources are down. *)
Definition tiedSearches : TrendService.Sources :=
  {| TrendService.dailyTrends := fun _ _ =>
       Ok [ TrendService.mkSearch "Alpha topic" (Some "500,000+");
            TrendService.mkSearch "Beta subject" (Some "600,000+");
            TrendService.mkSearch "Gamma matter" (Some "2,000+") ];
     TrendService.launchBrowser := Throw "Failed to launch the browser process";
     TrendService.trendsPage := Throw "Navigation timeout";
     TrendService.hotPosts := Throw "Request failed with status code 429";
     TrendService.browserClose := Ok tt;
     TrendService.thisBrowser := false |}.

(** Two articles whose titles differ in the case of the letters only. *)
Definition shouting : Article :=
  {| articleData :=
       {| adTitle := "WHY PROOFS MATTER";
          adExcerpt := "Proofs catch what tests miss.";
          adContent := "Testing samples the behaviour; a proof covers it.";
          adTags := ["proofs"];
          adSlug := "why-proofs-matter" |};
     seo := OpenAIService.defaultSeo
              (mkArticleData "WHY PROOFS MATTER" "Proofs catch what tests miss."
                             "" [] "")
              (Inputs.candidate "formal proofs" (90 # 1));
     trendData := Inputs.candidate "formal proofs" (90 # 1);
     articleCategory := "technology";
     readTime := 1 |}.

Definition quiet : Article :=
  {| articleData :=
       {| adTitle := "Why Proofs Matter";
          adExcerpt := "Proofs catch what tests miss.";
          adContent := "Testing samples the behaviour; a proof covers it.";
          adTags := ["proofs"];
          adSlug := "why-proofs-matter" |};
     seo := OpenAIService.defaultSeo
              (mkArticleData "Why Proofs Matter" "Proofs catch what tests miss."
                             "" [] "")
              (Inputs.candidate "formal proofs" (90 # 1));
     trendData := Inputs.candidate "formal proofs" (90 # 1);
     articleCategory := "technology";
     readTime := 1 |}.

(** An article whose title is not a well-formed pattern. *)
Definition plusPlus : Article :=
  {| articleData :=
       {| adTitle := "C++ Guide";
          adExcerpt := "A short guide.";
          adContent := "Templates, for a start.";
          adTags := ["c++"];
          adSlug := "c-guide" |};
     seo := OpenAIService.defaultSeo
              (mkArticleData "C++ Guide" "A short guide." "" [] "")
              (Inputs.candidate "c++" (60 # 1));
     trendData := Inputs.candidate "c++" (60 # 1);
     articleCategory := "technology";
     readTime := 1 |}.

(** A world in which the search-trends source answers, the backend writes
    an article for one of the keywords only, and the collection accepts
    every document. *)
Definition oneArticle : World :=
  {| sourcesAt := fun _ => Inputs.googleOnly;
     articleCompletion := fun trend =>
       if String.eqb (keyword trend) "Quantum Computing"
       then Ok (Text "Some words about quantum computing.")
       else Throw "429 Too Many Requests";
     seoCompletion := fun _ _ => Throw "ECONNREFUSED";
     JSON_parse := fun _ => Throw "SyntaxError: Unexpected token";
     regExpElsewhere := fun _ => Throw "SyntaxError: Invalid regular expression";
     save := fun documents document => Ok (documents ++ [document], document) |}.

Definition defaultGeneration : ArticleService.GenerationOptions :=
  {| ArticleService.maxArticles := 5;
     ArticleService.categories :=
       ["technology"; "business"; "health"; "entertainment"];
     ArticleService.geo := "US";
     ArticleService.includeGoogle := true;
     ArticleService.includeTwitter := true;
     ArticleService.includeReddit := false;
     ArticleService.trends := None |}.

(** An article whose title is a word of the title of [shouting]. *)
Definition short : Article :=
  {| articleData :=
       {| adTitle := "Proofs";
          adExcerpt := "What a proof is.";
          adContent := "A proof is an argument that leaves no case out.";
          adTags := ["proofs"];
          adSlug := "proofs" |};
     seo := OpenAIService.defaultSeo
              (mkArticleData "Proofs" "What a proof is." "" [] "")
              (Inputs.candidate "proofs" (80 # 1));
     trendData := Inputs.candidate "proofs" (80 # 1);
     articleCategory := "technology";
     readTime := 1 |}.

(** The cache before any request, with the time to live of the route. *)
Definition emptyCache : TrendsRouter.TrendsCache :=
  {| TrendsRouter.data := None;
     TrendsRouter.timestamp := None;
     TrendsRouter.ttl := (30 * 60 * 1000)%Z |}.

Definition topTwo : TrendsRouter.TrendsQuery :=
  {| TrendsRouter.qSource := TrendsRouter.AllSources;
     TrendsRouter.qCategory := None;
     TrendsRouter.qGeo := "US";
     TrendsRouter.qLimit := 2;
     TrendsRouter.qFresh := false |}.

Definition redditHealth : TrendsRouter.TrendsQuery :=
  {| TrendsRouter.qSource := TrendsRouter.OnlyReddit;
     TrendsRouter.qCategory := Some "health";
     TrendsRouter.qGeo := "DE";
     TrendsRouter.qLimit := 20;
     TrendsRouter.qFresh := false |}.

(** What the search-trends source of [Inputs.googleOnly] yields, ranked. *)
Definition googleRanking : list Trend :=
  [ mkTrend "Climate Change" GoogleTrends "general" (100 # 1) None;
    mkTrend "Quantum Computing" GoogleTrends "general" (90 # 1) None;
    mkTrend "Olympic Games" GoogleTrends "general" (60 # 1) None ].

Definition generalOnly : TrendsRouter.FetchRequest :=
  {| TrendsRouter.fSources := [TrendsRouter.OnlyGoogle; TrendsRouter.OnlyTwitter];
     TrendsRouter.fGeo := "US";
     TrendsRouter.fCategories := ["general"];
     TrendsRouter.fLimit := 50 |}.

End MoreInputs.

(* ================================================================== *)
(** * Properties *)

Module LevenshteinFacts.
Import TrendService Reference.

Lemma dist_nil_r (s : list ascii) : dist s [] = List.length s.
Proof. destruct s; reflexivity. Qed.

Lemma dist_nil_l (t : list ascii) : dist [] t = List.length t.
Proof. destruct t; reflexivity. Qed.

Lemma dist_cons_cons (a b : ascii) (s t : list ascii) :
  dist (a :: s) (b :: t) =
  if Ascii.eqb a b then dist s t
  else Nat.min (Nat.min (dist s t + 1) (dist (a :: s) t + 1))
               (dist s (b :: t) + 1).
Proof. reflexivity. Qed.

Lemma dist_sym (s t : list ascii) : dist s t = dist t s.
Proof.
  revert t; induction s as [|a s IHs]; intros t.
  - now rewrite dist_nil_l, dist_nil_r.
  - induction t as [|b t IHt].
    + now rewrite dist_nil_l, dist_nil_r.
    + rewrite !dist_cons_cons, (Ascii.eqb_sym b a).
      rewrite <- IHt, <- (IHs t), <- (IHs (b :: t)).
      destruct (Ascii.eqb a b); lia.
Qed.

Lemma dist_refl (s : list ascii) : dist s s = 0.
Proof.
  induction s as [|a s IHs]; [reflexivity|].
  now rewrite dist_cons_cons, Ascii.eqb_refl.
Qed.

Lemma dist_le_max (s t : list ascii) :
  dist s t <= Nat.max (List.length s) (List.length t).
Proof.
  revert t; induction s as [|a s IHs]; intros t.
  - rewrite dist_nil_l; simpl; lia.
  - destruct t as [|b t].
    + rewrite dist_nil_r; simpl; lia.
    + rewrite dist_cons_cons. specialize (IHs t). simpl List.length.
      destruct (Ascii.eqb a b); lia.
Qed.

Lemma fillRow_spec (c2 : ascii) (p2 rest p1 : list ascii) :
  fillRow c2 rest (dist p2 p1) (map (dist p2) (extensions p1 rest))
          (dist (c2 :: p2) p1)
  = map (dist (c2 :: p2)) (extensions p1 rest).
Proof.
  revert p1; induction rest as [|c1 rest IH]; intros p1; [reflexivity|].
  cbn [extensions map fillRow].
  rewrite (dist_cons_cons c2 c1 p2 p1).
  f_equal.
  rewrite <- (dist_cons_cons c2 c1 p2 p1).
  apply IH.
Qed.

Lemma nextRow_spec (c2 : ascii) (p2 s1 : list ascii) :
  nextRow (S (List.length p2)) c2 s1 (row p2 s1) = row (c2 :: p2) s1.
Proof.
  unfold row, nextRow.
  rewrite (dist_nil_r (c2 :: p2)). cbn [List.length]. f_equal.
  pose proof (fillRow_spec c2 p2 s1 []) as H.
  rewrite (dist_nil_r (c2 :: p2)) in H. exact H.
Qed.

Lemma fillMatrix_spec (s2 p2 s1 : list ascii) :
  fillMatrix (S (List.length p2)) s2 s1 (row p2 s1) = row (rev s2 ++ p2) s1.
Proof.
  revert p2; induction s2 as [|c2 s2 IH]; intros p2; [reflexivity|].
  cbn [fillMatrix rev]. rewrite nextRow_spec.
  rewrite <- app_assoc. cbn [app]. exact (IH (c2 :: p2)).
Qed.

Lemma lengths_of_extensions (s1 p : list ascii) :
  map (@List.length ascii) (extensions p s1)
  = seq (S (List.length p)) (List.length s1).
Proof.
  revert p; induction s1 as [|c s1 IH]; intros p; [reflexivity|].
  cbn [extensions map List.length seq]. f_equal. exact (IH (c :: p)).
Qed.

Lemma row_nil (s1 : list ascii) : row [] s1 = seq 0 (S (List.length s1)).
Proof.
  unfold row. rewrite dist_nil_l. cbn [seq List.length]. f_equal.
  pose proof (lengths_of_extensions s1 []) as H. cbn [List.length] in H.
  rewrite <- H. apply map_ext; intros t; apply dist_nil_l.
Qed.

Lemma last_of_extensions (f : list ascii -> nat) (s1 p : list ascii) :
  last (f p :: map f (extensions p s1)) 0 = f (rev s1 ++ p).
Proof.
  revert p; induction s1 as [|c s1 IH]; intros p; [reflexivity|].
  cbn [extensions map rev]. rewrite <- app_assoc. cbn [app].
  rewrite <- (IH (c :: p)). reflexivity.
Qed.

(** The matrix computes the edit distance of the two strings. *)
Lemma levenshteinDistance_dist (str1 str2 : string) :
  levenshteinDistance str1 str2
  = dist (rev (list_ascii_of_string str2)) (rev (list_ascii_of_string str1)).
Proof.
  unfold levenshteinDistance; cbv zeta.
  rewrite <- row_nil.
  pose proof (fillMatrix_spec (list_ascii_of_string str2) []
                              (list_ascii_of_string str1)) as H.
  cbn [List.length] in H. rewrite H.
  rewrite app_nil_r. unfold row.
  rewrite (last_of_extensions (dist (rev (list_ascii_of_string str2)))).
  now rewrite app_nil_r.
Qed.

Lemma levenshteinDistance_sym (a b : string) :
  levenshteinDistance a b = levenshteinDistance b a.
Proof. rewrite !levenshteinDistance_dist. apply dist_sym. Qed.

Lemma levenshteinDistance_refl (a : string) : levenshteinDistance a a = 0.
Proof. rewrite levenshteinDistance_dist. apply dist_refl. Qed.

Lemma length_chars (s : string) :
  List.length (list_ascii_of_string s) = String.length s.
Proof. induction s; simpl; congruence. Qed.

Lemma levenshteinDistance_le (a b : string) :
  levenshteinDistance a b <= Nat.max (String.length a) (String.length b).
Proof.
  rewrite levenshteinDistance_dist.
  pose proof (dist_le_max (rev (list_ascii_of_string b))
                          (rev (list_ascii_of_string a))) as H.
  rewrite !length_rev, !length_chars in H. lia.
Qed.

End LevenshteinFacts.

Module SimilarityFacts.
Import TrendService LevenshteinFacts.

Lemma ofNat_le (n m : nat) : n <= m -> (ofNat n <= ofNat m)%Q.
Proof. intros H. unfold ofNat. rewrite <- Zle_Qle. lia. Qed.

Lemma ofNat_pos (n : nat) : 0 < n -> (0 < ofNat n)%Q.
Proof.
  intros H. unfold ofNat. change 0%Q with (inject_Z 0).
  rewrite <- Zlt_Qlt. lia.
Qed.

Lemma ratio_bounds (L d : nat) :
  0 < L -> d <= L ->
  (0 <= (ofNat L - ofNat d) / ofNat L)%Q
  /\ ((ofNat L - ofNat d) / ofNat L <= 1)%Q.
Proof.
  intros HL Hd.
  pose proof (ofNat_pos L HL) as HposL.
  pose proof (ofNat_le d L Hd) as HdL.
  assert (0 <= ofNat d)%Q as Hd0.
  { change 0%Q with (ofNat 0). apply ofNat_le. lia. }
  split.
  - apply Qle_shift_div_l; [exact HposL|]. lra.
  - apply Qle_shift_div_r; [exact HposL|]. lra.
Qed.

Lemma ratio_full (L : nat) :
  0 < L -> ((ofNat L - ofNat 0) / ofNat L == 1)%Q.
Proof.
  intros HL. pose proof (ofNat_pos L HL) as HposL.
  change (ofNat 0) with 0%Q. field. lra.
Qed.

Lemma calculateSimilarity_sym (a b : string) :
  calculateSimilarity a b = calculateSimilarity b a.
Proof.
  unfold calculateSimilarity.
  destruct (Nat.ltb_spec (String.length b) (String.length a)) as [Hba|Hba];
    destruct (Nat.ltb_spec (String.length a) (String.length b)) as [Hab|Hab];
    try reflexivity; try lia.
  assert (String.length a = String.length b) as E by lia.
  rewrite E, (levenshteinDistance_sym b a). reflexivity.
Qed.

Lemma calculateSimilarity_range (a b : string) :
  (0 <= calculateSimilarity a b)%Q /\ (calculateSimilarity a b <= 1)%Q.
Proof.
  unfold calculateSimilarity.
  set (longer := if String.length b <? String.length a then a else b).
  set (shorter := if String.length b <? String.length a then b else a).
  destruct (Nat.eqb_spec (String.length longer) 0) as [E|NE].
  - split; lra.
  - apply ratio_bounds; [lia|].
    pose proof (levenshteinDistance_le longer shorter) as H.
    assert (String.length shorter <= String.length longer) as Hls.
    { subst longer shorter.
      destruct (Nat.ltb_spec (String.length b) (String.length a)); lia. }
    lia.
Qed.

Lemma calculateSimilarity_refl (a : string) :
  (calculateSimilarity a a == 1)%Q.
Proof.
  unfold calculateSimilarity. rewrite Nat.ltb_irrefl.
  destruct (Nat.eqb_spec (String.length a) 0) as [E|NE]; [reflexivity|].
  rewrite levenshteinDistance_refl. apply ratio_full. lia.
Qed.

(** C10. [calculateSimilarity] is symmetric, its value lies in the closed
    interval from 0 to 1, a string compared with itself gives 1, and two
    empty strings give the literal 1. *)
Theorem calculateSimilarity_symmetric_unit_interval (a b : string) :
  calculateSimilarity a b = calculateSimilarity b a
  /\ (0 <= calculateSimilarity a b)%Q
  /\ (calculateSimilarity a b <= 1)%Q
  /\ (calculateSimilarity a a == 1)%Q
  /\ calculateSimilarity "" "" = 1%Q.
Proof.
  pose proof (calculateSimilarity_range a b) as [H0 H1].
  repeat split.
  - apply calculateSimilarity_sym.
  - exact H0.
  - exact H1.
  - apply calculateSimilarity_refl.
Qed.

End SimilarityFacts.

Module DedupFacts.
Import TrendService Reference LevenshteinFacts SimilarityFacts.

Lemma gt_true_iff (x y : Q) : gt x y = true <-> (y < x)%Q.
Proof.
  unfold gt. rewrite negb_true_iff.
  split; intros H.
  - apply Qnot_le_lt. intros Hle. apply Qle_bool_iff in Hle. congruence.
  - destruct (Qle_bool x y) eqn:E; [|reflexivity].
    apply Qle_bool_iff in E. exfalso. exact (Qlt_not_le _ _ H E).
Qed.

Lemma gt_false_iff (x y : Q) : gt x y = false <-> (x <= y)%Q.
Proof.
  unfold gt. rewrite negb_false_iff. apply Qle_bool_iff.
Qed.


Lemma similar_sym (t u : Trend) : similar t u = similar u t.
Proof. unfold similar. now rewrite calculateSimilarity_sym. Qed.

Lemma isDuplicateOf_map (t : Trend) (unique : list Trend) :
  isDuplicateOf (normalize t) (map normalize unique)
  = existsb (similar t) unique.
Proof.
  unfold isDuplicateOf. induction unique as [|u unique IH]; [reflexivity|].
  cbn [map existsb]. now rewrite IH.
Qed.

(** A keyword that passes the test is not yet in the set, so [add]
    appends it. *)
Lemma setAdd_fresh (t : Trend) (unique : list Trend) :
  existsb (similar t) unique = false ->
  JS.setAdd (normalize t) (map normalize unique)
  = map normalize (unique ++ [t]).
Proof.
  intros Hfresh. unfold JS.setAdd.
  destruct (existsb (String.eqb (normalize t)) (map normalize unique)) eqn:E.
  - apply existsb_exists in E. destruct E as [k [Hin Hk]].
    apply String.eqb_eq in Hk. subst k.
    apply in_map_iff in Hin. destruct Hin as [u [Hu Hin]].
    assert (existsb (similar t) unique = true) as Habs.
    { apply existsb_exists. exists u. split; [exact Hin|].
      unfold similar. rewrite Hu. apply gt_true_iff.
      rewrite calculateSimilarity_refl. reflexivity. }
    congruence.
  - now rewrite map_app.
Qed.

Lemma dedupLoop_fold (trends unique : list Trend) :
  dedupLoop trends unique (map normalize unique)
  = fold_left dedupStep trends unique.
Proof.
  revert unique; induction trends as [|t trends IH]; intros unique;
    [reflexivity|].
  cbn [dedupLoop fold_left]. rewrite isDuplicateOf_map. unfold dedupStep at 2.
  destruct (existsb (similar t) unique) eqn:E.
  - apply IH.
  - rewrite (setAdd_fresh t unique E). apply IH.
Qed.

Lemma deduplicateTrends_fold (trends : list Trend) :
  deduplicateTrends trends = fold_left dedupStep trends [].
Proof. exact (dedupLoop_fold trends []). Qed.

Lemma deduplicateTrends_snoc (trends : list Trend) (t : Trend) :
  deduplicateTrends (trends ++ [t])
  = dedupStep (deduplicateTrends trends) t.
Proof. now rewrite !deduplicateTrends_fold, fold_left_app. Qed.

Lemma dissimilar_snoc (unique : list Trend) (t : Trend) :
  dissimilar unique ->
  existsb (similar t) unique = false ->
  dissimilar (unique ++ [t]).
Proof.
  intros Hd Hfresh i j a b Hij Ha Hb.
  assert (forall u, In u unique -> similar t u = false) as Ht.
  { intros u Hu. destruct (similar t u) eqn:E; [|reflexivity].
    assert (existsb (similar t) unique = true) as Habs
        by (apply existsb_exists; eauto).
    congruence. }
  destruct (Nat.lt_ge_cases i (List.length unique)) as [Hi|Hi];
    destruct (Nat.lt_ge_cases j (List.length unique)) as [Hj|Hj].
  - rewrite nth_error_app1 in Ha, Hb by assumption. eapply Hd; eauto.
  - rewrite nth_error_app1 in Ha by assumption.
    rewrite nth_error_app2 in Hb by assumption.
    destruct (j - List.length unique) as [|k] eqn:Ek; cbn in Hb;
      [|destruct k; discriminate].
    injection Hb as <-. rewrite similar_sym.
    apply Ht. eapply nth_error_In; eauto.
  - rewrite nth_error_app2 in Ha by assumption.
    rewrite nth_error_app1 in Hb by assumption.
    destruct (i - List.length unique) as [|k] eqn:Ek; cbn in Ha;
      [|destruct k; discriminate].
    injection Ha as <-. apply Ht. eapply nth_error_In; eauto.
  - rewrite nth_error_app2 in Ha, Hb by assumption.
    destruct (i - List.length unique) as [|k] eqn:Ei; cbn in Ha;
      [|destruct k; discriminate].
    destruct (j - List.length unique) as [|k] eqn:Ej; cbn in Hb;
      [|destruct k; discriminate].
    lia.
Qed.

Lemma fold_dedupStep_dissimilar (trends unique : list Trend) :
  dissimilar unique -> dissimilar (fold_left dedupStep trends unique).
Proof.
  revert unique; induction trends as [|t trends IH]; intros unique Hd;
    [exact Hd|].
  cbn [fold_left]. apply IH. unfold dedupStep.
  destruct (existsb (similar t) unique) eqn:E; [exact Hd|].
  now apply dissimilar_snoc.
Qed.

Lemma deduplicateTrends_dissimilar (trends : list Trend) :
  dissimilar (deduplicateTrends trends).
Proof.
  rewrite deduplicateTrends_fold. apply fold_dedupStep_dissimilar.
  intros i j a b _ Ha. destruct i; discriminate.
Qed.

(** C1, as amended.  No two retained candidates have a similarity above
    0.8, and a candidate is dropped exactly when a candidate retained
    before it is that similar to it; otherwise it is appended to the
    retained ones, which are never removed afterwards. *)
Theorem deduplicateTrends_pairwise_and_greedy
        (trends : list Trend) (t : Trend) :
  (forall i j a b,
      i <> j ->
      nth_error (deduplicateTrends trends) i = Some a ->
      nth_error (deduplicateTrends trends) j = Some b ->
      (calculateSimilarity (normalize a) (normalize b)
       <= similarityThreshold)%Q)
  /\ deduplicateTrends (trends ++ [t])
     = if existsb
            (fun u => gt (calculateSimilarity (normalize t) (normalize u))
                         similarityThreshold)
            (deduplicateTrends trends)
       then deduplicateTrends trends
       else deduplicateTrends trends ++ [t].
Proof.
  split.
  - intros i j a b Hij Ha Hb. apply gt_false_iff.
    exact (deduplicateTrends_dissimilar trends i j a b Hij Ha Hb).
  - apply deduplicateTrends_snoc.
Qed.

(** C1, as stated, fails on a chain of three keywords: the second and the
    third are similar, the second was dropped against the first, and the
    third, dissimilar to the first, is retained. *)
Lemma deduplicateTrends_chain_keeps_later :
  deduplicateTrends Inputs.chain = [Inputs.chainA; Inputs.chainC]
  /\ similar Inputs.chainB Inputs.chainC = true
  /\ ~ earlierOfSimilarPairRetained Inputs.chain.
Proof.
  assert (deduplicateTrends Inputs.chain = [Inputs.chainA; Inputs.chainC])
    as Hout by (vm_compute; reflexivity).
  assert (similar Inputs.chainB Inputs.chainC = true)
    as Hsim by (vm_compute; reflexivity).
  split; [exact Hout|split; [exact Hsim|]].
  intros H.
  specialize (H 1 2 Inputs.chainB Inputs.chainC (Nat.lt_succ_diag_r 1)
                eq_refl eq_refl Hsim).
  rewrite Hout in H.
  destruct H as [H|[H|[]]]; discriminate H.
Qed.

End DedupFacts.

Module AdapterFacts.
Import TrendService Reference.

Lemma scrapeLoop_score (elements : list string) (index : nat) (t : Trend) :
  In t (scrapeLoop index elements) ->
  exists p text,
    position t = Some p
    /\ index + 1 <= p <= 20
    /\ trendScore t = inject_Z (Z.max (100 - 5 * (Z.of_nat p - 1)) 10)
    /\ nth_error elements (p - 1 - index) = Some text
    /\ keyword t = JS.trim text.
Proof.
  revert index; induction elements as [|text rest IH]; intros index Hin;
    [contradiction|].
  cbn [scrapeLoop] in Hin.
  assert (In t (scrapeLoop (S index) rest) ->
          exists p text',
            position t = Some p
            /\ index + 1 <= p <= 20
            /\ trendScore t = inject_Z (Z.max (100 - 5 * (Z.of_nat p - 1)) 10)
            /\ nth_error (text :: rest) (p - 1 - index) = Some text'
            /\ keyword t = JS.trim text') as Hlater.
  { intros H. destruct (IH (S index) H) as (p & text' & Hp & Hr & Hs & Hn & Hk).
    exists p, text'. repeat split; try assumption; try lia.
    replace (p - 1 - index) with (S (p - 1 - S index)) by lia. exact Hn. }
  destruct (Nat.ltb_spec index 20) as [Hlt|Hge]; [|auto].
  destruct (negb (String.eqb (JS.trim text) "")
            && (2 <? String.length (JS.trim text))); [|auto].
  destruct Hin as [<-|Hin]; [|auto].
  exists (index + 1), text. cbn [position trendScore keyword].
  repeat split; try lia.
  - do 2 f_equal. lia.
  - replace (index + 1 - 1 - index) with 0 by lia. reflexivity.
Qed.

(** C5, as amended.  Every candidate of the social-trends adapter carries
    its 1-based position [p] in the scraped list, at most 20, and its
    score is [max (100 - 5 * (p - 1)) 10]: 100 for the first entry, 95
    for the second, down to 10 for the last two. *)
Theorem fetchTwitterTrends_score_by_index
        (w : Sources) (browser : bool) (trends : list Trend) (t : Trend) :
  fst (fetchTwitterTrends w browser) = Ok trends ->
  In t trends ->
  exists p elements text,
    position t = Some p
    /\ 1 <= p <= 20
    /\ trendScore t = inject_Z (Z.max (100 - 5 * (Z.of_nat p - 1)) 10)
    /\ trendsPage w = Ok elements
    /\ nth_error elements (p - 1) = Some text
    /\ keyword t = JS.trim text.
Proof.
  unfold fetchTwitterTrends.
  destruct (initBrowser w browser) as [launched browser'].
  cbn [fst]. intros Hfetch Hin.
  destruct launched as [[]|e]; cbn in Hfetch;
    [|injection Hfetch as <-; contradiction].
  destruct (trendsPage w) as [elements|e]; cbn in Hfetch;
    injection Hfetch as <-; [|contradiction].
  destruct (scrapeLoop_score _ 0 t Hin) as (p & text & Hp & Hr & Hs & Hn & Hk).
  exists p, elements, text. rewrite Nat.sub_0_r in Hn.
  repeat split; try assumption; lia.
Qed.

Lemma fetchTwitterTrends_score_by_index_witness :
  exists p elements text,
    position (mkTrend "#Rocq" Twitter "general" (100 # 1) (Some 1)) = Some p
    /\ 1 <= p <= 20
    /\ trendScore (mkTrend "#Rocq" Twitter "general" (100 # 1) (Some 1))
       = inject_Z (Z.max (100 - 5 * (Z.of_nat p - 1)) 10)
    /\ Ok [" #Rocq "] = Ok elements
    /\ nth_error elements (p - 1) = Some text
    /\ "#Rocq" = JS.trim text.
Proof.
  apply (fetchTwitterTrends_score_by_index
           (mkSources (fun _ _ => Throw "") (Ok tt) (Ok [" #Rocq "])
                      (Throw "") (Ok tt) false)
           false
           [mkTrend "#Rocq" Twitter "general" (100 # 1) (Some 1)]).
  - vm_compute. reflexivity.
  - left. reflexivity.
Defined.

(** C5, as stated, fails on the first scraped entry: its position is 1
    and its score is 100, not 95. *)
Lemma scrapeTrends_first_entry_scores_100 :
  scrapeTrends [" #Rocq "]
  = [mkTrend "#Rocq" Twitter "general" (100 # 1) (Some 1)]
  /\ ~ (forall t, In t (scrapeTrends [" #Rocq "]) ->
                  scoreDecaysFromPosition t).
Proof.
  split; [vm_compute; reflexivity|].
  intros H.
  destruct (H (mkTrend "#Rocq" Twitter "general" (100 # 1) (Some 1)))
    as (p & Hp & Hs).
  - vm_compute. left. reflexivity.
  - cbn in Hp, Hs. injection Hp as <-. discriminate Hs.
Qed.

End AdapterFacts.

Module AggregationFacts.
Import TrendService Reference.

Lemma Forall_insertByScore (P : Trend -> Prop) (a : Trend) (l : list Trend) :
  P a -> Forall P l -> Forall P (insertByScore a l).
Proof.
  intros Ha Hl. induction Hl as [|b l Hb Hl IH]; cbn [insertByScore].
  - constructor; [exact Ha|constructor].
  - destruct (Qle_bool (trendScore b) (trendScore a)).
    + constructor; [exact Ha|]. constructor; assumption.
    + constructor; assumption.
Qed.

Lemma insertByScore_sorted (a : Trend) (l : list Trend) :
  StronglySorted desc l -> StronglySorted desc (insertByScore a l).
Proof.
  intros Hs. induction Hs as [|b l Hs IH Hb]; cbn [insertByScore].
  - constructor; constructor.
  - destruct (Qle_bool (trendScore b) (trendScore a)) eqn:E.
    + apply Qle_bool_iff in E.
      constructor; [constructor; assumption|].
      constructor; [exact E|].
      eapply Forall_impl; [|exact Hb].
      intros c Hc. unfold desc in *. eapply Qle_trans; eassumption.
    + constructor; [exact IH|].
      apply Forall_insertByScore; [|exact Hb].
      unfold desc. apply Qlt_le_weak. apply Qnot_le_lt.
      intros Hle. apply Qle_bool_iff in Hle. congruence.
Qed.

Lemma sortByScore_sorted (l : list Trend) : StronglySorted desc (sortByScore l).
Proof.
  induction l as [|a l IH]; cbn [sortByScore];
    [constructor|now apply insertByScore_sorted].
Qed.

Lemma In_firstn {A : Type} (x : A) (n : nat) (l : list A) :
  In x (firstn n l) -> In x l.
Proof.
  revert n; induction l as [|a l IH]; intros [|n] H; cbn in H;
    try contradiction.
  destruct H as [H|H]; [now left|right; eauto].
Qed.

Lemma firstn_sorted (n : nat) (l : list Trend) :
  StronglySorted desc l -> StronglySorted desc (firstn n l).
Proof.
  intros Hs. revert n.
  induction Hs as [|a l Hs IH Ha]; intros [|n]; cbn [firstn];
    try constructor.
  - apply IH.
  - apply Forall_forall. intros x Hx.
    apply (proj1 (Forall_forall _ _) Ha). eapply In_firstn; eauto.
Qed.

Lemma sliceFrom0_sorted (l : list Trend) (stop : Z) :
  StronglySorted desc l -> StronglySorted desc (JS.sliceFrom0 l stop).
Proof.
  intros Hs. unfold JS.sliceFrom0.
  destruct (0 <=? stop)%Z; now apply firstn_sorted.
Qed.

Lemma sliceFrom0_length {A : Type} (l : list A) (stop : Z) :
  (0 <= stop)%Z -> (Z.of_nat (List.length (JS.sliceFrom0 l stop)) <= stop)%Z.
Proof.
  intros H. unfold JS.sliceFrom0.
  destruct (Z.leb_spec 0 stop) as [_|Hneg]; [|lia].
  pose proof (firstn_le_length (Z.to_nat stop) l) as Hlen.
  rewrite length_firstn. lia.
Qed.

Lemma sorted_descending (l : list Trend) :
  StronglySorted desc l -> descendingByScore l.
Proof.
  intros Hs. induction Hs as [|a l Hs IH Ha]; intros i j x y Hij Hx Hy.
  - destruct i; discriminate.
  - destruct j as [|j]; [lia|]. cbn in Hy.
    destruct i as [|i]; cbn in Hx.
    + injection Hx as <-.
      apply (proj1 (Forall_forall _ _) Ha). eapply nth_error_In; eauto.
    + apply (IH i j); [lia|assumption|assumption].
Qed.

Lemma rankTrends_descending (allTrends : list Trend) (limit : Z) :
  descendingByScore (rankTrends allTrends limit).
Proof.
  apply sorted_descending, sliceFrom0_sorted, sortByScore_sorted.
Qed.

Lemma rankTrends_length (allTrends : list Trend) (limit : Z) :
  (0 <= limit)%Z ->
  (Z.of_nat (List.length (rankTrends allTrends limit)) <= limit)%Z.
Proof. apply sliceFrom0_length. Qed.











(** The aggregation ranks what the sources yielded; the only exception
    that can leave it is the one of closing the browser that the instance
    holds when the run ends. *)
Lemma getAllTrends_outcome (w : Sources) (o : TrendOptions) :
  getAllTrends w o = Ok (rankTrends (gathered w o) (limit o))
  \/ exists e,
       getAllTrends w o = Throw e
       /\ holdsBrowser w o
       /\ browserClose w = Throw e.
Proof.
  unfold getAllTrends, gathered, twitterReply, holdsBrowser, candidatesOf,
    contribution, fetchGoogleTrends, fetchTwitterTrends, fetchRedditTrends,
    initBrowser, closeBrowser.
  destruct (includeGoogle o), (includeTwitter o), (includeReddit o),
    (thisBrowser w),
    (dailyTrends w (geo o) (categoryFilter o)), (launchBrowser w) as [[]|],
    (trendsPage w), (hotPosts w), (browserClose w) as [[]|] eqn:Hclose;
    cbn; rewrite ?Hclose; cbn; rewrite ?app_nil_r, <- ?app_assoc; eauto 7.
Qed.

(** Closing the browser that the instance holds when the run ends
    fails: the run throws that failure, whatever the sources yielded. *)
Lemma getAllTrends_close_fails (w : Sources) (o : TrendOptions) (e : string) :
  holdsBrowser w o -> browserClose w = Throw e -> getAllTrends w o = Throw e.
Proof.
  unfold getAllTrends, holdsBrowser, fetchTwitterTrends, initBrowser,
    closeBrowser.
  intros [Hheld|[Htwitter Hlaunch]] Hclose.
  - rewrite Hheld. destruct (includeTwitter o); cbn; rewrite Hclose;
      reflexivity.
  - rewrite Htwitter, Hlaunch.
    destruct (thisBrowser w); cbn; rewrite Hclose; reflexivity.
Qed.

End AggregationFacts.

Module AggregationClaims.
Import TrendService Reference AggregationFacts.




(** C8, as amended.  The sequence returned by [getAllTrends] is in
    non-increasing order of score, and it has at most [limit] elements
    when [limit] is not negative. *)
Theorem getAllTrends_sorted_and_bounded
        (w : Sources) (o : TrendOptions) (trends : list Trend) :
  getAllTrends w o = Ok trends ->
  descendingByScore trends
  /\ ((0 <= limit o)%Z -> (Z.of_nat (List.length trends) <= limit o)%Z).
Proof.
  intros Hret.
  destruct (getAllTrends_outcome w o) as [H|(e & H & _)];
    rewrite H in Hret; [|discriminate].
  injection Hret as <-. split.
  - apply rankTrends_descending.
  - apply rankTrends_length.
Qed.

Lemma getAllTrends_sorted_and_bounded_witness :
  descendingByScore
    [ mkTrend "Climate Change" GoogleTrends "general" (100 # 1) None;
      mkTrend "Quantum Computing" GoogleTrends "general" (90 # 1) None ]
  /\ ((0 <= 2)%Z -> (2 <= 2)%Z).
Proof.
  apply (getAllTrends_sorted_and_bounded
           Inputs.googleOnly (Inputs.allSources 2)).
  vm_compute. reflexivity.
Defined.

(** C8, as stated, fails for a negative limit: [slice(0, -1)] drops the
    last element only, so two candidates are returned for limit -1. *)
Lemma getAllTrends_negative_limit :
  getAllTrends Inputs.googleOnly (Inputs.allSources (-1))
  = Ok [ mkTrend "Climate Change" GoogleTrends "general" (100 # 1) None;
         mkTrend "Quantum Computing" GoogleTrends "general" (90 # 1) None ]
  /\ ~ (forall trends,
          getAllTrends Inputs.googleOnly (Inputs.allSources (-1)) = Ok trends ->
          (Z.of_nat (List.length trends) <= -1)%Z).
Proof.
  assert (getAllTrends Inputs.googleOnly (Inputs.allSources (-1))
          = Ok [ mkTrend "Climate Change" GoogleTrends "general" (100 # 1) None;
                 mkTrend "Quantum Computing" GoogleTrends "general" (90 # 1) None ])
    as Hrun by (vm_compute; reflexivity).
  split; [exact Hrun|].
  intros H. specialize (H _ Hrun). cbn in H. lia.
Qed.

End AggregationClaims.

Module GenerationFacts.
Import OpenAIService Reference.

Lemma parseLine_keeps_tags (st : ParseState) (line : string) :
  JS.startsWith (JS.trim line) "TAGS:" = false ->
  psTags (parseLine st line) = psTags st.
Proof.
  intros Hno. unfold parseLine. cbv zeta. rewrite Hno.
  destruct (JS.startsWith (JS.trim line) "TITLE:"); [reflexivity|].
  destruct (JS.startsWith (JS.trim line) "EXCERPT:"); [reflexivity|].
  destruct (JS.startsWith (JS.trim line) "CONTENT:"); [reflexivity|].
  destruct (isContentSection (psCurrentSection st) && nonEmpty (JS.trim line));
    reflexivity.
Qed.

Lemma fold_parseLine_keeps_tags (lines : list string) (st : ParseState) :
  Forall (fun line => JS.startsWith (JS.trim line) "TAGS:" = false) lines ->
  psTags (fold_left parseLine lines st) = psTags st.
Proof.
  intros Hno. revert st.
  induction Hno as [|line lines Hline Hno IH]; intros st; [reflexivity|].
  cbn [fold_left]. rewrite IH. now apply parseLine_keeps_tags.
Qed.

Lemma parseLines_no_tags (content : string) :
  tagsMarkerAbsent content -> psTags (parseLines content) = [].
Proof.
  intros Hno. unfold parseLines.
  now rewrite (fold_parseLine_keeps_tags _ initialState Hno).
Qed.

Lemma keywordTags_head (keyword : string) :
  exists rest, keywordTags keyword = JS.toLowerCase keyword :: rest.
Proof. unfold keywordTags, JS.distinct. cbn [JS.setOfLoop existsb]. eauto. Qed.

Lemma fallbackParsing_tags (content : string) (trendData : Trend) :
  fbTags (fallbackParsing content trendData)
  = keywordTags (keyword trendData).
Proof. reflexivity. Qed.

(** C9.  When no line of the reply carries the TAGS marker, the parsed
    article has a non-empty list of tags whose first element is the
    lowercased keyword: the keyword alone when the other three sections
    were found, and on fallback the keyword followed by its words of
    more than three characters, without repetition. *)
Theorem parseGeneratedContent_tags_without_marker
        (content : string) (trendData : Trend) :
  tagsMarkerAbsent content ->
  adTags (parseGeneratedContent content trendData) <> []
  /\ hd_error (adTags (parseGeneratedContent content trendData))
     = Some (JS.toLowerCase (keyword trendData))
  /\ (needsFallback (parseLines content) = false ->
      adTags (parseGeneratedContent content trendData)
      = [JS.toLowerCase (keyword trendData)])
  /\ (needsFallback (parseLines content) = true ->
      adTags (parseGeneratedContent content trendData)
      = keywordTags (keyword trendData)).
Proof.
  intros Hno. pose proof (parseLines_no_tags content Hno) as Htags.
  destruct (keywordTags_head (keyword trendData)) as [rest Hrest].
  assert (adTags (parseGeneratedContent content trendData)
          = if needsFallback (parseLines content)
            then keywordTags (keyword trendData)
            else [JS.toLowerCase (keyword trendData)]) as Heq.
  { unfold parseGeneratedContent. cbv zeta.
    destruct (needsFallback (parseLines content)); cbn [adTags psTags].
    - rewrite Htags. cbn [isEmptyList]. rewrite fallbackParsing_tags, Hrest.
      reflexivity.
    - rewrite Htags. reflexivity. }
  rewrite Heq.
  destruct (needsFallback (parseLines content)).
  - rewrite Hrest. repeat split; try discriminate; reflexivity.
  - repeat split; try discriminate; reflexivity.
Qed.

Lemma parseGeneratedContent_tags_without_marker_witness :
  adTags (parseGeneratedContent "# Quantum leap" (mkTrend "Quantum Computing Now" GoogleTrends "general" 1 None)) <> []
  /\ hd_error (adTags (parseGeneratedContent "# Quantum leap" (mkTrend "Quantum Computing Now" GoogleTrends "general" 1 None)))
     = Some (JS.toLowerCase "Quantum Computing Now")
  /\ (needsFallback (parseLines "# Quantum leap") = false ->
      adTags (parseGeneratedContent "# Quantum leap" (mkTrend "Quantum Computing Now" GoogleTrends "general" 1 None))
      = [JS.toLowerCase "Quantum Computing Now"])
  /\ (needsFallback (parseLines "# Quantum leap") = true ->
      adTags (parseGeneratedContent "# Quantum leap" (mkTrend "Quantum Computing Now" GoogleTrends "general" 1 None))
      = keywordTags "Quantum Computing Now").
Proof.
  apply (parseGeneratedContent_tags_without_marker
           "# Quantum leap"
           (mkTrend "Quantum Computing Now" GoogleTrends "general" 1 None)).
  unfold tagsMarkerAbsent. vm_compute. repeat constructor.
Defined.

Lemma collapse_white_space (inRun : bool) (s : string) :
  noWhiteSpace (collapseRuns JS.isWhiteSpace inRun s) = true.
Proof.
  revert inRun; induction s as [|c s IH]; intros inRun; [reflexivity|].
  cbn [collapseRuns]. destruct (JS.isWhiteSpace c) eqn:E.
  - destruct inRun; [apply IH|]. cbn [noWhiteSpace]. rewrite IH. reflexivity.
  - cbn [noWhiteSpace]. rewrite E, IH. reflexivity.
Qed.

Lemma collapse_hyphens_no_white_space (inRun : bool) (s : string) :
  noWhiteSpace s = true ->
  noWhiteSpace (collapseRuns isHyphen inRun s) = true.
Proof.
  revert inRun; induction s as [|c s IH]; intros inRun H; [reflexivity|].
  cbn [noWhiteSpace] in H. apply andb_prop in H. destruct H as [Hc Hs].
  cbn [collapseRuns]. destruct (isHyphen c).
  - destruct inRun; [now apply IH|]. cbn [noWhiteSpace].
    rewrite (IH true Hs). reflexivity.
  - cbn [noWhiteSpace]. rewrite Hc, (IH false Hs). reflexivity.
Qed.

Lemma trimEnd_no_white_space (s : string) :
  noWhiteSpace s = true -> JS.trimEnd s = s.
Proof.
  induction s as [|c s IH]; intros H; [reflexivity|].
  cbn [noWhiteSpace] in H. apply andb_prop in H. destruct H as [Hc Hs].
  apply negb_true_iff in Hc.
  cbn [JS.trimEnd]. rewrite (IH Hs), Hc. destruct s; reflexivity.
Qed.

Lemma trim_no_white_space (s : string) :
  noWhiteSpace s = true -> JS.trim s = s.
Proof.
  intros H. unfold JS.trim.
  assert (JS.trimStart s = s) as ->.
  { destruct s as [|c s]; [reflexivity|].
    cbn [noWhiteSpace] in H. apply andb_prop in H. destruct H as [Hc _].
    apply negb_true_iff in Hc. cbn [JS.trimStart]. now rewrite Hc. }
  now apply trimEnd_no_white_space.
Qed.

(** By the time [trim] is called no white space is left, so the call
    returns its receiver: the slug is what the three replacements made. *)
Lemma generateSlug_trim_changes_nothing (title : string) :
  generateSlug title
  = collapseRuns isHyphen false
      (collapseRuns JS.isWhiteSpace false
         (filterChars isSlugChar (JS.toLowerCase title))).
Proof.
  unfold generateSlug. apply trim_no_white_space.
  apply collapse_hyphens_no_white_space, collapse_white_space.
Qed.

(** C6 at two titles: the closing [trim] takes no hyphen away, so a
    hyphen left at either end of the slug stays there. *)
Theorem generateSlug_keeps_outer_hyphens :
  generateSlug "Quoi de neuf ?" = "quoi-de-neuf-"
  /\ generateSlug "- Breaking News" = "-breaking-news".
Proof. split; vm_compute; reflexivity. Qed.

End GenerationFacts.

Module SeoFacts.
Import OpenAIService Reference.


Lemma orDefault_absent (default : json) : orDefault None default = default.
Proof. reflexivity. Qed.




Section Seo.

Variable JSON_parse : string -> result json.
Variable articleData : ArticleData.
Variable trendData : Trend.


End Seo.

End SeoFacts.

Module PersistenceFacts.
Import ArticleService Reference.

Lemma keeps_ret (A : Type) (a : A) : keepsAggregations (ret a).
Proof. intros env. reflexivity. Qed.

Lemma keeps_raise (A : Type) (e : string) : keepsAggregations (@raise A e).
Proof. intros env. reflexivity. Qed.

Lemma keeps_bindE (A B : Type) (m : Eff A) (k : A -> Eff B) :
  keepsAggregations m ->
  (forall a, keepsAggregations (k a)) ->
  keepsAggregations (bindE m k).
Proof.
  intros Hm Hk env. unfold bindE. specialize (Hm env).
  destruct (m env) as [[a|e] env']; cbn [snd] in *.
  - rewrite Hk. exact Hm.
  - exact Hm.
Qed.

Lemma keeps_tryCatchE (A : Type) (m : Eff A) (handler : string -> Eff A) :
  keepsAggregations m ->
  (forall e, keepsAggregations (handler e)) ->
  keepsAggregations (tryCatchE m handler).
Proof.
  intros Hm Hh env. unfold tryCatchE. specialize (Hm env).
  destruct (m env) as [[a|e] env']; cbn [snd] in *.
  - exact Hm.
  - rewrite Hh. exact Hm.
Qed.

Lemma keeps_findOneByTitle (w : World) (title : string) :
  keepsAggregations (findOneByTitle w title).
Proof.
  intros env. unfold findOneByTitle.
  destruct (RegExp.compile (regExpElsewhere w) title); reflexivity.
Qed.

Lemma keeps_saveNew (w : World) (document : Article) :
  keepsAggregations (saveNew w document).
Proof.
  intros env. unfold saveNew.
  destruct (save w (store env) document) as [[store' saved]|e]; reflexivity.
Qed.

Lemma keeps_createArticle (w : World) (document : Article) :
  keepsAggregations (createArticle w document).
Proof.
  unfold createArticle.
  apply keeps_tryCatchE; [|intros e; apply keeps_raise].
  apply keeps_bindE; [apply keeps_findOneByTitle|].
  intros [existing|]; [apply keeps_ret|apply keeps_saveNew].
Qed.

Lemma keeps_saveAll (w : World) (generatedArticles : list Article) :
  keepsAggregations (saveAll w generatedArticles).
Proof.
  unfold saveAll.
  generalize (keeps_ret (list Article) []).
  generalize (@ret (list Article) []).
  induction generatedArticles as [|document rest IH]; intros saved Hsaved;
    [exact Hsaved|].
  cbn [fold_left]. apply IH.
  apply keeps_bindE; [exact Hsaved|]. intros savedArticles.
  apply keeps_tryCatchE; [|intros e; apply keeps_ret].
  apply keeps_bindE; [apply keeps_createArticle|].
  intros article. apply keeps_ret.
Qed.

(** [generateArticlesFromTrends] makes one aggregation, whatever its
    options hold. *)
Lemma generateArticlesFromTrends_aggregates
      (w : World) (options : GenerationOptions) (env : Env) :
  aggregations (snd (generateArticlesFromTrends w options env))
  = aggregations env ++ [serviceAggregation options].
Proof.
  unfold generateArticlesFromTrends, tryCatchE, bindE, aggregate, raise.
  fold (serviceAggregation options).
  destruct (TrendService.getAllTrends _ _) as [fetched|e]; cbn [snd];
    [|reflexivity].
  destruct fetched as [|trend fetched]; [reflexivity|].
  match goal with
  | |- context [saveAll w ?l ?e] =>
      pose proof (keeps_saveAll w l e) as H;
      destruct (saveAll w l e) as [[saved|err] env']
  end; exact H.
Qed.

End PersistenceFacts.

Module PatternFacts.
Import RegExp Reference.

Lemma parseTerms_plain_step (fuel : nat) (acc : regex) (c : ascii) (s : string) :
  isPatternCharacter c = false ->
  parseTerms (S fuel) acc (String c s)
  = let '(term, rest) := quantified (Char c) s in
    parseTerms fuel (Seq acc term) rest.
Proof.
  intros Hc.
  destruct c as [b0 b1 b2 b3 b4 b5 b6 b7].
  destruct b0, b1, b2, b3, b4, b5, b6, b7;
    first [discriminate Hc | reflexivity].
Qed.

Lemma quantified_plain (atom : regex) (s : string) :
  plain s = true -> quantified atom s = (atom, s).
Proof.
  destruct s as [|c s]; [reflexivity|].
  cbn [plain]. intros H. apply andb_prop in H. destruct H as [Hc _].
  apply negb_true_iff in Hc.
  destruct c as [b0 b1 b2 b3 b4 b5 b6 b7].
  destruct b0, b1, b2, b3, b4, b5, b6, b7;
    first [discriminate Hc | reflexivity].
Qed.

Lemma parseTerms_plain (s : string) (fuel : nat) (acc : regex) :
  plain s = true ->
  String.length s < fuel ->
  parseTerms fuel acc s = Read (literal acc s) EmptyString.
Proof.
  revert fuel acc; induction s as [|c s IH]; intros fuel acc Hplain Hfuel.
  - destruct fuel; [inversion Hfuel|reflexivity].
  - destruct fuel as [|fuel]; [inversion Hfuel|].
    cbn [plain] in Hplain. apply andb_prop in Hplain.
    destruct Hplain as [Hc Hs]. apply negb_true_iff in Hc.
    rewrite (parseTerms_plain_step fuel acc c s Hc).
    rewrite (quantified_plain (Char c) s Hs).
    cbn [literal String.length] in *. apply IH; [exact Hs|lia].
Qed.

Lemma parsePattern_plain (s : string) :
  plain s = true -> parsePattern s = Read (literal Empty s) EmptyString.
Proof.
  intros Hplain. unfold parsePattern.
  replace (2 * String.length s + 2) with (S (S (2 * String.length s))) by lia.
  cbn [parseDisjunction].
  rewrite (parseTerms_plain s _ Empty Hplain) by lia.
  reflexivity.
Qed.

Lemma matchHere_literal (s : string) (acc : regex) (atStart : bool)
      (t : string) (k : bool -> string -> bool) :
  matchHere (literal acc s) atStart t k
  = matchHere acc atStart t (fun atStart' t' => matchLiteral s atStart' t' k).
Proof.
  revert acc atStart t; induction s as [|c s IH]; intros acc atStart t;
    [reflexivity|].
  cbn [literal]. rewrite IH. reflexivity.
Qed.

Lemma matchLiteral_same_letters (s t : string) (atStart : bool) :
  JS.toLowerCase t = JS.toLowerCase s ->
  matchLiteral s atStart t (fun _ _ => true) = true.
Proof.
  revert t atStart; induction s as [|c s IH]; intros t atStart H;
    [reflexivity|].
  destruct t as [|d t]; [discriminate H|].
  cbn [JS.toLowerCase] in H. injection H as Hd Ht.
  cbn [matchLiteral]. rewrite (IH t false Ht), andb_true_r.
  unfold sameLetter. rewrite Hd. apply Ascii.eqb_refl.
Qed.

(** A plain title, read as a pattern, finds every string that is equal
    to it up to the case of the letters. *)
Lemma compile_plain (elsewhere : string -> result (string -> bool))
      (title : string) :
  plain title = true ->
  exists test,
    compile elsewhere title = Ok test
    /\ forall t, JS.toLowerCase t = JS.toLowerCase title -> test t = true.
Proof.
  intros Hplain. unfold compile. rewrite (parsePattern_plain title Hplain).
  eexists. split; [reflexivity|].
  intros t Ht. destruct t as [|d t]; cbn [search];
    rewrite matchHere_literal; cbn [matchHere];
    rewrite (matchLiteral_same_letters title _ true Ht); reflexivity.
Qed.

End PatternFacts.

Module PersistenceClaims.
Import ArticleService Reference PersistenceFacts PatternFacts.

Lemma groupedTitle_pattern :
  RegExp.parsePattern (articleTitle Inputs.groupedTitle)
  = RegExp.Read Inputs.groupedPattern EmptyString
  /\ RegExp.search Inputs.groupedPattern true
                    (articleTitle Inputs.groupedTitle) = false
  /\ RegExp.search Inputs.groupedPattern true "why ai really matters" = true.
Proof. repeat split; vm_compute; reflexivity. Qed.

(** For a title without pattern characters the check does what it is
    meant to do: when the collection holds an article with the same title
    up to the case of the letters, [createArticle] returns a stored
    article and leaves the collection as it is. *)
Lemma createArticle_returns_existing_for_plain_title
      (w : World) (document existing : Article) (env : Env) :
  plain (articleTitle document) = true ->
  In existing (store env) ->
  JS.toLowerCase (articleTitle existing)
  = JS.toLowerCase (articleTitle document) ->
  exists found,
    createArticle w document env = (Ok found, env) /\ In found (store env).
Proof.
  intros Hplain Hin Hsame.
  destruct (compile_plain (regExpElsewhere w) _ Hplain) as (test & Hc & Htest).
  unfold createArticle, tryCatchE, bindE, findOneByTitle. rewrite Hc.
  destruct (find (fun a => test (articleTitle a)) (store env)) as [found|] eqn:E.
  - exists found. split; [reflexivity|]. now apply find_some in E.
  - exfalso. pose proof (find_none _ _ E existing Hin) as Hnone.
    cbn beta in Hnone. rewrite (Htest _ Hsame) in Hnone. discriminate.
Qed.

(** C3 at a stored article whose title has a parenthesised word.  The
    title is used as the pattern, in which the parentheses group and match
    nothing themselves, so the stored title is not found: [createArticle]
    hands the article to [save] instead of returning the stored one, and a
    collection that accepts the document then holds two with one title. *)
Theorem createArticle_misses_title_with_group
        (w : World) (made : list TrendService.TrendOptions) :
  createArticle w Inputs.groupedTitle (mkEnv [Inputs.groupedTitle] made)
  = saveNew w Inputs.groupedTitle (mkEnv [Inputs.groupedTitle] made)
  /\ createArticle Inputs.acceptingStore Inputs.groupedTitle
                   (mkEnv [Inputs.groupedTitle] made)
     = (Ok Inputs.groupedTitle,
        mkEnv [Inputs.groupedTitle; Inputs.groupedTitle] made).
Proof.
  destruct groupedTitle_pattern as (Hparse & Hmiss & _).
  assert (forall w',
             createArticle w' Inputs.groupedTitle
                           (mkEnv [Inputs.groupedTitle] made)
             = saveNew w' Inputs.groupedTitle
                       (mkEnv [Inputs.groupedTitle] made)) as Hsave.
  { intros w'.
    unfold createArticle, tryCatchE, bindE, findOneByTitle, RegExp.compile.
    rewrite Hparse. cbn [store find]. rewrite Hmiss.
    unfold saveNew, raise. cbn [store aggregations].
    destruct (save w' [Inputs.groupedTitle] Inputs.groupedTitle)
      as [[store' saved]|e]; reflexivity. }
  split; [apply Hsave|].
  rewrite Hsave. reflexivity.
Qed.

End PersistenceClaims.

Module RouterClaims.
Import TrendsRouter Reference PersistenceFacts.

(** C4 at a request that asks for the cache while the cache is fresh.
    The handler takes the cached candidates, and
    [generateArticlesFromTrends], which does not read the candidates it is
    handed, queries the sources all the same, with the limit
    [maxArticles * 2]. *)
Theorem generateArticlesHandler_queries_sources_despite_cache
        (w : World) (env : Env) :
  cachedTrends Inputs.freshCache Inputs.requestTime
               (reqUseCache Inputs.cachedRequest) = Inputs.chain
  /\ aggregations
       (snd (generateArticlesHandler w Inputs.freshCache Inputs.requestTime
                                     Inputs.cachedRequest env))
     = aggregations env
       ++ [ {| TrendService.includeGoogle := true;
               TrendService.includeTwitter := true;
               TrendService.includeReddit := false;
               TrendService.geo := "US";
               TrendService.categoryFilter := None;
               TrendService.limit := 6 |} ].
Proof.
  split; [reflexivity|].
  unfold generateArticlesHandler.
  change (cachedTrends Inputs.freshCache Inputs.requestTime
                       (reqUseCache Inputs.cachedRequest))
    with Inputs.chain.
  unfold Inputs.chain at 1. cbv iota. unfold bindE at 1. unfold ret at 1.
  unfold bindE.
  match goal with
  | |- context [ArticleService.generateArticlesFromTrends w ?o env] =>
      pose proof (generateArticlesFromTrends_aggregates w o env) as H;
      destruct (ArticleService.generateArticlesFromTrends w o env)
        as [[articles|e] env']
  end; exact H.
Qed.

End RouterClaims.

(* ================================================================== *)
(** * Further properties of the services *)

Module DistanceProperties.
Import TrendService Reference LevenshteinFacts SimilarityFacts.

Lemma dist_zero (s t : list ascii) : dist s t = 0 -> s = t.
Proof.
  revert t; induction s as [|a s IHs]; intros t H.
  - rewrite dist_nil_l in H. now destruct t.
  - destruct t as [|b t]; [rewrite dist_nil_r in H; discriminate|].
    rewrite dist_cons_cons in H.
    destruct (Ascii.eqb_spec a b) as [->|Hab]; [|lia].
    f_equal. now apply IHs.
Qed.

Lemma dist_ge_gap (s t : list ascii) :
  List.length s - List.length t <= dist s t
  /\ List.length t - List.length s <= dist s t.
Proof.
  revert t; induction s as [|a s IHs]; intros t.
  - rewrite dist_nil_l. cbn. lia.
  - induction t as [|b t IHt].
    + rewrite dist_nil_r. cbn. lia.
    + rewrite dist_cons_cons. cbn [List.length].
      pose proof (IHs t) as H1. pose proof (IHs (b :: t)) as H2.
      cbn [List.length] in *.
      destruct (Ascii.eqb a b); lia.
Qed.

Lemma chars_injective (a b : string) :
  list_ascii_of_string a = list_ascii_of_string b -> a = b.
Proof.
  intros H. rewrite <- (string_of_list_ascii_of_string a),
    <- (string_of_list_ascii_of_string b). now rewrite H.
Qed.

(** X1.  The distance of two strings is 0 exactly when they are equal. *)
Theorem levenshteinDistance_zero_iff_equal (a b : string) :
  levenshteinDistance a b = 0 <-> a = b.
Proof.
  split.
  - rewrite levenshteinDistance_dist. intros H. apply dist_zero in H.
    apply chars_injective. apply (f_equal (@rev ascii)) in H.
    rewrite !rev_involutive in H. congruence.
  - intros ->. apply levenshteinDistance_refl.
Qed.

Lemma levenshteinDistance_ge_gap (a b : string) :
  Nat.max (String.length a) (String.length b)
  - Nat.min (String.length a) (String.length b)
  <= levenshteinDistance a b.
Proof.
  rewrite levenshteinDistance_dist.
  pose proof (dist_ge_gap (rev (list_ascii_of_string b))
                          (rev (list_ascii_of_string a))) as [H1 H2].
  rewrite !length_rev, !length_chars in H1, H2. lia.
Qed.

(** X2.  The distance is at least the difference of the two lengths and at
    most the greater of them; against the empty string it is the length. *)
Theorem levenshteinDistance_between_gap_and_longer (a b : string) :
  Nat.max (String.length a) (String.length b)
  - Nat.min (String.length a) (String.length b)
  <= levenshteinDistance a b
  /\ levenshteinDistance a b <= Nat.max (String.length a) (String.length b)
  /\ levenshteinDistance a "" = String.length a
  /\ levenshteinDistance "" b = String.length b.
Proof.
  split; [apply levenshteinDistance_ge_gap|].
  split; [apply levenshteinDistance_le|]. split.
  - pose proof (levenshteinDistance_ge_gap a "") as H1.
    pose proof (levenshteinDistance_le a "") as H2. cbn in *. lia.
  - pose proof (levenshteinDistance_ge_gap "" b) as H1.
    pose proof (levenshteinDistance_le "" b) as H2. cbn in *. lia.
Qed.

Lemma ratio_le (L d m : nat) :
  0 < L -> L - d <= m ->
  ((ofNat L - ofNat d) / ofNat L <= ofNat m / ofNat L)%Q.
Proof.
  intros HL Hm. pose proof (ofNat_pos L HL) as HposL.
  apply Qle_shift_div_l; [exact HposL|].
  setoid_replace ((ofNat L - ofNat d) / ofNat L * ofNat L)%Q
    with (ofNat L - ofNat d)%Q by (field; lra).
  destruct (Nat.le_gt_cases d L) as [HdL|HdL].
  - assert (ofNat L <= ofNat d + ofNat m)%Q.
    { unfold ofNat. rewrite <- inject_Z_plus, <- Zle_Qle. lia. }
    lra.
  - assert (ofNat L <= ofNat d)%Q by (apply ofNat_le; lia).
    assert (0 <= ofNat m)%Q
      by (change 0%Q with (ofNat 0); apply ofNat_le; lia).
    lra.
Qed.

(** X3.  The similarity of two strings that are not both empty is at
    most the quotient of the shorter length by the longer one.  So two
    strings of which the shorter has at most four fifths of the length of
    the longer never pass the test of [deduplicateTrends]. *)
Theorem calculateSimilarity_at_most_length_ratio (a b : string) :
  0 < Nat.max (String.length a) (String.length b) ->
  (calculateSimilarity a b
   <= ofNat (Nat.min (String.length a) (String.length b))
      / ofNat (Nat.max (String.length a) (String.length b)))%Q
  /\ (5 * Nat.min (String.length a) (String.length b)
      <= 4 * Nat.max (String.length a) (String.length b) ->
      gt (calculateSimilarity a b) similarityThreshold = false).
Proof.
  intros Hpos.
  assert (calculateSimilarity a b
          <= ofNat (Nat.min (String.length a) (String.length b))
             / ofNat (Nat.max (String.length a) (String.length b)))%Q as Hle.
  { pose proof (levenshteinDistance_ge_gap a b) as Hab.
    pose proof (levenshteinDistance_ge_gap b a) as Hba.
    unfold calculateSimilarity.
    destruct (Nat.ltb_spec (String.length b) (String.length a)) as [Hlt|Hge].
    - destruct (Nat.eqb_spec (String.length a) 0) as [E|NE]; [lia|].
      replace (Nat.max (String.length a) (String.length b))
        with (String.length a) by lia.
      apply ratio_le; lia.
    - destruct (Nat.eqb_spec (String.length b) 0) as [E|NE]; [lia|].
      replace (Nat.max (String.length a) (String.length b))
        with (String.length b) by lia.
      apply ratio_le; lia. }
  split; [exact Hle|]. intros Hratio.
  unfold gt. rewrite negb_false_iff. apply Qle_bool_iff.
  eapply Qle_trans; [exact Hle|].
  apply Qle_shift_div_r; [now apply ofNat_pos|].
  unfold similarityThreshold, ofNat, Qle, Qmult, inject_Z. cbn [Qnum Qden].
  lia.
Qed.

Lemma calculateSimilarity_at_most_length_ratio_witness :
  (calculateSimilarity "ai" "ai regulation"
   <= ofNat (Nat.min 2 13) / ofNat (Nat.max 2 13))%Q
  /\ (5 * Nat.min 2 13 <= 4 * Nat.max 2 13 ->
      gt (calculateSimilarity "ai" "ai regulation") similarityThreshold = false).
Proof.
  apply (calculateSimilarity_at_most_length_ratio "ai" "ai regulation").
  cbn. lia.
Defined.

End DistanceProperties.

Module DedupProperties.
Import TrendService Reference Notions DedupFacts.

Lemma subsequence_refl {A : Type} (l : list A) : subsequence l l.
Proof.
  induction l; [apply subsequence_nil|now apply subsequence_keep].
Qed.

Lemma subsequence_snoc_keep {A : Type} (l1 l2 : list A) (x : A) :
  subsequence l1 l2 -> subsequence (l1 ++ [x]) (l2 ++ [x]).
Proof.
  induction 1; cbn.
  - apply subsequence_keep, subsequence_nil.
  - now apply subsequence_skip.
  - now apply subsequence_keep.
Qed.

Lemma subsequence_snoc_skip {A : Type} (l1 l2 : list A) (x : A) :
  subsequence l1 l2 -> subsequence l1 (l2 ++ [x]).
Proof.
  induction 1; cbn.
  - apply subsequence_skip, subsequence_nil.
  - now apply subsequence_skip.
  - now apply subsequence_keep.
Qed.

Lemma subsequence_In {A : Type} (l1 l2 : list A) (x : A) :
  subsequence l1 l2 -> In x l1 -> In x l2.
Proof.
  induction 1; intros Hin; [contradiction| |].
  - right. auto.
  - destruct Hin as [->|Hin]; [now left|right; auto].
Qed.

Lemma deduplicateTrends_subsequence (trends : list Trend) :
  subsequence (deduplicateTrends trends) trends.
Proof.
  induction trends as [|t trends IH] using rev_ind; [constructor|].
  rewrite deduplicateTrends_snoc. unfold dedupStep.
  destruct (existsb (similar t) (deduplicateTrends trends)).
  - now apply subsequence_snoc_skip.
  - now apply subsequence_snoc_keep.
Qed.

Lemma dedupStep_eq (unique : list Trend) (t : Trend) :
  dedupStep unique t
  = if existsb (similar t) unique then unique else unique ++ [t].
Proof. reflexivity. Qed.

Lemma fold_dedupStep_head (trends unique : list Trend) (t : Trend) :
  exists rest, fold_left dedupStep trends (t :: unique) = t :: rest.
Proof.
  revert unique; induction trends as [|u trends IH]; intros unique;
    [eexists; reflexivity|].
  cbn [fold_left]. rewrite dedupStep_eq.
  destruct (existsb (similar u) (t :: unique)); [apply IH|].
  cbn [app]. apply IH.
Qed.

(** X4.  What [deduplicateTrends] returns is its argument with some
    candidates left out: the retained candidates are unchanged and in their
    order, and the first candidate is always retained. *)
Theorem deduplicateTrends_keeps_order_and_first (trends : list Trend) :
  subsequence (deduplicateTrends trends) trends
  /\ List.length (deduplicateTrends trends) <= List.length trends
  /\ hd_error (deduplicateTrends trends) = hd_error trends.
Proof.
  pose proof (deduplicateTrends_subsequence trends) as Hsub.
  split; [exact Hsub|]. split.
  - clear - Hsub. induction Hsub; cbn; lia.
  - destruct trends as [|t trends]; [reflexivity|].
    rewrite deduplicateTrends_fold. cbn [fold_left]. rewrite dedupStep_eq.
    cbn [existsb app].
    destruct (fold_dedupStep_head trends [] t) as [rest ->]. reflexivity.
Qed.

Lemma fold_dedupStep_dissimilar_id (trends unique : list Trend) :
  dissimilar (unique ++ trends) ->
  fold_left dedupStep trends unique = unique ++ trends.
Proof.
  revert unique; induction trends as [|t trends IH]; intros unique Hd.
  - now rewrite app_nil_r.
  - cbn [fold_left]. rewrite dedupStep_eq.
    assert (existsb (similar t) unique = false) as ->.
    { destruct (existsb (similar t) unique) eqn:E; [|reflexivity].
      apply existsb_exists in E. destruct E as (u & Hu & Hsim).
      apply In_nth_error in Hu. destruct Hu as [i Hi].
      assert (i < List.length unique) as Hlt
          by (apply nth_error_Some; congruence).
      rewrite (Hd (List.length unique) i t u) in Hsim.
      - discriminate.
      - lia.
      - rewrite nth_error_app2 by lia. now rewrite Nat.sub_diag.
      - now rewrite nth_error_app1. }
    rewrite IH; rewrite <- app_assoc; [reflexivity|exact Hd].
Qed.

(** X5.  [deduplicateTrends] is idempotent: applied to its own result it
    drops nothing more. *)
Theorem deduplicateTrends_idempotent (trends : list Trend) :
  deduplicateTrends (deduplicateTrends trends) = deduplicateTrends trends.
Proof.
  rewrite (deduplicateTrends_fold (deduplicateTrends trends)).
  apply (fold_dedupStep_dissimilar_id (deduplicateTrends trends) []).
  apply deduplicateTrends_dissimilar.
Qed.

End DedupProperties.

Module SourceProperties.
Import TrendService Reference Notions.

(** X6.  [calculateTrendScore] returns one of the nine values 10, 30, 40,
    50, 60, 70, 80, 90 and 100, and 10 when there is no traffic string,
    when it is empty and when it has no digit or comma. *)
Theorem calculateTrendScore_buckets (traffic : option string) :
  In (calculateTrendScore traffic) [10; 30; 40; 50; 60; 70; 80; 90; 100]%Z
  /\ (10 <= calculateTrendScore traffic <= 100)%Z
  /\ calculateTrendScore None = 10%Z
  /\ calculateTrendScore (Some "") = 10%Z
  /\ (forall t, firstNumberRun t = None ->
                calculateTrendScore (Some t) = 10%Z).
Proof.
  assert (In (calculateTrendScore traffic)
             [10; 30; 40; 50; 60; 70; 80; 90; 100]%Z) as Hin.
  { unfold calculateTrendScore.
    destruct traffic as [[|c t]|]; cbn [In]; auto.
    destruct (firstNumberRun (String c t)); auto.
    destruct (digitsValue None s) as [num|]; auto 10.
    repeat match goal with
           | |- context [(?a <=? ?b)%Z] => destruct (a <=? b)%Z
           end; auto 10. }
  split; [exact Hin|]. split.
  - cbn [In] in Hin.
    repeat (destruct Hin as [<-|Hin]; [lia|]). contradiction.
  - split; [reflexivity|]. split; [reflexivity|].
    intros t Hnone. unfold calculateTrendScore. rewrite Hnone.
    now destruct t.
Qed.

(** X7.  Every candidate made from the hot posts comes from a post with a
    title and more than 100 upvotes, and its score, a hundredth of the
    upvotes capped at 100, is above 1 and at most 100. *)
Theorem redditTrends_scores (posts : list RedditPost) (t : Trend) :
  In t (redditTrends posts) ->
  source t = Reddit
  /\ (1 < trendScore t)%Q
  /\ (trendScore t <= 100)%Q
  /\ exists post,
       In post posts
       /\ keyword t = title post
       /\ title post <> ""
       /\ (100 < ups post)%Z
       /\ trendScore t = Qmin (inject_Z (ups post) / 100) 100.
Proof.
  unfold redditTrends. intros Hin. apply in_flat_map in Hin.
  destruct Hin as (post & Hpost & Hin).
  destruct (negb (String.eqb (title post) "") && (100 <? ups post)%Z) eqn:E;
    [|contradiction].
  destruct Hin as [<-|[]]. apply andb_prop in E. destruct E as [Ht Hu].
  apply negb_true_iff in Ht. apply String.eqb_neq in Ht.
  apply Z.ltb_lt in Hu. cbn [source trendScore keyword].
  assert (1 < inject_Z (ups post) / 100)%Q as Hq.
  { apply Qlt_shift_div_l; [reflexivity|].
    unfold Qlt, Qmult, inject_Z. cbn [Qnum Qden]. lia. }
  split; [reflexivity|]. split.
  - apply Q.min_glb_lt; [exact Hq|reflexivity].
  - split; [apply Q.le_min_r|]. exists post. auto.
Qed.

Lemma redditTrends_scores_witness :
  source (mkTrend "Rocq 9.3 released" Reddit "technology" (500 # 100) None) = Reddit
  /\ (1 < trendScore (mkTrend "Rocq 9.3 released" Reddit "technology" (500 # 100) None))%Q
  /\ (trendScore (mkTrend "Rocq 9.3 released" Reddit "technology" (500 # 100) None) <= 100)%Q
  /\ exists post,
       In post [mkPost "Rocq 9.3 released" 500 "Programming";
                mkPost "Quiet post" 100 "science"]
       /\ keyword (mkTrend "Rocq 9.3 released" Reddit "technology" (500 # 100) None)
          = title post
       /\ title post <> ""
       /\ (100 < ups post)%Z
       /\ trendScore (mkTrend "Rocq 9.3 released" Reddit "technology" (500 # 100) None)
          = Qmin (inject_Z (ups post) / 100) 100.
Proof.
  apply (redditTrends_scores
           [mkPost "Rocq 9.3 released" 500 "Programming";
            mkPost "Quiet post" 100 "science"]).
  vm_compute. left. reflexivity.
Defined.

Lemma toLowerCaseChar_idempotent (c : ascii) :
  JS.toLowerCaseChar (JS.toLowerCaseChar c) = JS.toLowerCaseChar c.
Proof.
  destruct c as [b0 b1 b2 b3 b4 b5 b6 b7].
  destruct b0, b1, b2, b3, b4, b5, b6, b7; vm_compute; reflexivity.
Qed.

Lemma toLowerCase_idempotent (s : string) :
  JS.toLowerCase (JS.toLowerCase s) = JS.toLowerCase s.
Proof.
  induction s as [|c s IH]; [reflexivity|].
  cbn [JS.toLowerCase]. now rewrite toLowerCaseChar_idempotent, IH.
Qed.

Lemma lookup_In (key : string) (table : list (string * string)) (v : string) :
  lookup key table = Some v -> In v (map snd table).
Proof.
  induction table as [|[k v'] table IH]; [discriminate|].
  cbn [lookup map snd In]. destruct (String.eqb k key).
  - intros H. injection H as ->. now left.
  - intros H. right. auto.
Qed.

Lemma toLowerCaseChar_not_upper (c : ascii) :
  JS.isUpper (JS.toLowerCaseChar c) = false.
Proof.
  destruct c as [b0 b1 b2 b3 b4 b5 b6 b7].
  destruct b0, b1, b2, b3, b4, b5, b6, b7; vm_compute; reflexivity.
Qed.

Lemma toLowerCase_not_upper (s : string) :
  allChars (fun c => negb (JS.isUpper c)) (JS.toLowerCase s) = true.
Proof.
  induction s as [|c s IH]; [reflexivity|].
  cbn [JS.toLowerCase allChars].
  now rewrite toLowerCaseChar_not_upper, IH.
Qed.

(** Of the inherited members only two have a name that a lowercased
    string can be. *)
Lemma inherited_lowercase (s : string) :
  existsb (String.eqb (JS.toLowerCase s)) objectPrototypeMembers = true ->
  JS.toLowerCase s = "constructor" \/ JS.toLowerCase s = "__proto__".
Proof.
  intros H. apply existsb_exists in H. destruct H as (m & Hm & Heq).
  apply String.eqb_eq in Heq. pose proof (toLowerCase_not_upper s) as Hlow.
  rewrite Heq in *. unfold objectPrototypeMembers in Hm. cbn [In] in Hm.
  repeat (destruct Hm as [<-|Hm];
          [first [now left | now right | vm_compute in Hlow; discriminate]|]).
  contradiction.
Qed.

(** X8.  [mapSubredditToCategory] does not depend on the case of the
    letters of the name.  For a name that is [constructor] or [__proto__]
    up to the case of the letters, the table yields the member that it
    inherits, which is not a category.  For every other name the result is
    one of eleven categories, and [other] when the name is not in the
    table. *)
Theorem mapSubredditToCategory_case_and_range (subreddit : string) :
  mapSubredditToCategory (JS.toLowerCase subreddit)
  = mapSubredditToCategory subreddit
  /\ (JS.toLowerCase subreddit = "constructor" ->
      mapSubredditToCategory subreddit = Inherited "constructor")
  /\ (JS.toLowerCase subreddit = "__proto__" ->
      mapSubredditToCategory subreddit = Inherited "__proto__")
  /\ (JS.toLowerCase subreddit <> "constructor" ->
      JS.toLowerCase subreddit <> "__proto__" ->
      exists name,
        mapSubredditToCategory subreddit = CategoryName name
        /\ In name subredditCategories
        /\ (lookup (JS.toLowerCase subreddit) categoryMap = None ->
            name = "other")).
Proof.
  split; [|split; [|split]].
  - unfold mapSubredditToCategory. now rewrite toLowerCase_idempotent.
  - unfold mapSubredditToCategory. intros ->. reflexivity.
  - unfold mapSubredditToCategory. intros ->. reflexivity.
  - intros Hc Hp. unfold mapSubredditToCategory, getMember.
    destruct (lookup (JS.toLowerCase subreddit) categoryMap) as [c|] eqn:E.
    + exists c. split; [reflexivity|]. split; [|discriminate].
      apply lookup_In in E. cbn in E. unfold subredditCategories. cbn.
      intuition.
    + destruct (existsb (String.eqb (JS.toLowerCase subreddit))
                        objectPrototypeMembers) eqn:Hm.
      * destruct (inherited_lowercase subreddit Hm); contradiction.
      * exists "other". split; [reflexivity|].
        split; [|reflexivity].
        unfold subredditCategories. cbn. intuition.
Qed.

Lemma trimEnd_idempotent (s : string) :
  JS.trimEnd (JS.trimEnd s) = JS.trimEnd s.
Proof.
  induction s as [|c s IH]; [reflexivity|].
  cbn [JS.trimEnd]. destruct (JS.trimEnd s) as [|d r] eqn:E.
  - destruct (JS.isWhiteSpace c) eqn:Hc; [reflexivity|].
    cbn [JS.trimEnd]. now rewrite Hc.
  - cbn [JS.trimEnd]. cbn [JS.trimEnd] in IH.
    destruct (JS.trimEnd r) as [|d' r'] eqn:Er.
    + destruct (JS.isWhiteSpace d); [discriminate IH|].
      now rewrite IH.
    + now rewrite IH.
Qed.

Lemma trimStart_trimEnd (s : string) :
  JS.trimStart s = s -> JS.trimStart (JS.trimEnd s) = JS.trimEnd s.
Proof.
  destruct s as [|c s]; [reflexivity|].
  cbn [JS.trimStart JS.trimEnd].
  destruct (JS.isWhiteSpace c) eqn:Hc.
  - intros H. exfalso.
    assert (String.length (JS.trimStart s) <= String.length s) as Hlen.
    { clear. induction s as [|d s IH]; [reflexivity|].
      cbn [JS.trimStart]. destruct (JS.isWhiteSpace d); cbn; lia. }
    rewrite H in Hlen. cbn in Hlen. lia.
  - intros _. destruct (JS.trimEnd s); cbn [JS.trimStart]; now rewrite Hc.
Qed.

Lemma trimStart_idempotent (s : string) :
  JS.trimStart (JS.trimStart s) = JS.trimStart s.
Proof.
  induction s as [|c s IH]; [reflexivity|].
  cbn [JS.trimStart]. destruct (JS.isWhiteSpace c) eqn:Hc; [exact IH|].
  cbn [JS.trimStart]. now rewrite Hc.
Qed.

Lemma trim_idempotent (s : string) : JS.trim (JS.trim s) = JS.trim s.
Proof.
  unfold JS.trim.
  rewrite (trimStart_trimEnd _ (trimStart_idempotent s)).
  apply trimEnd_idempotent.
Qed.

Lemma scrapeLoop_length (elements : list string) (index : nat) :
  List.length (scrapeLoop index elements) <= 20 - index
  /\ List.length (scrapeLoop index elements) <= List.length elements.
Proof.
  revert index; induction elements as [|text rest IH]; intros index;
    [cbn; lia|].
  cbn [scrapeLoop List.length]. destruct (IH (S index)) as [H1 H2].
  destruct (Nat.ltb_spec index 20); [|lia].
  destruct (negb (String.eqb (JS.trim text) "")
            && (2 <? String.length (JS.trim text))); cbn [List.length]; lia.
Qed.

Lemma scrapeLoop_keyword (elements : list string) (index : nat) (t : Trend) :
  In t (scrapeLoop index elements) ->
  3 <= String.length (keyword t)
  /\ JS.trim (keyword t) = keyword t
  /\ source t = Twitter
  /\ category t = "general".
Proof.
  revert index; induction elements as [|text rest IH]; intros index Hin;
    [contradiction|].
  cbn [scrapeLoop] in Hin.
  destruct (index <? 20); [|eauto].
  destruct (negb (String.eqb (JS.trim text) "")
            && (2 <? String.length (JS.trim text))) eqn:E; [|eauto].
  destruct Hin as [<-|Hin]; [|eauto].
  apply andb_prop in E. destruct E as [_ Hlen]. apply Nat.ltb_lt in Hlen.
  cbn [keyword source category].
  repeat split; [lia|apply trim_idempotent].
Qed.

(** X9.  The social-trends scrape yields at most 20 candidates and at most
    one per scraped entry; each keyword is trimmed and at least three
    characters long, and each candidate has the category [general]. *)
Theorem scrapeTrends_at_most_twenty (elements : list string) :
  List.length (scrapeTrends elements) <= 20
  /\ List.length (scrapeTrends elements) <= List.length elements
  /\ forall t,
       In t (scrapeTrends elements) ->
       3 <= String.length (keyword t)
       /\ JS.trim (keyword t) = keyword t
       /\ source t = Twitter
       /\ category t = "general".
Proof.
  destruct (scrapeLoop_length elements 0) as [H1 H2].
  split; [unfold scrapeTrends; lia|]. split; [exact H2|].
  intros t. apply scrapeLoop_keyword.
Qed.

Lemma scrapeLoop_ranked (elements : list string) (index : nat) :
  StronglySorted ranksBefore (scrapeLoop index elements).
Proof.
  revert index; induction elements as [|text rest IH]; intros index;
    [constructor|].
  cbn [scrapeLoop].
  destruct (Nat.ltb_spec index 20) as [Hlt|Hge]; [|apply IH].
  destruct (negb (String.eqb (JS.trim text) "")
            && (2 <? String.length (JS.trim text))); [|apply IH].
  constructor; [apply IH|].
  apply Forall_forall. intros t Hin.
  destruct (AdapterFacts.scrapeLoop_score rest (S index) t Hin)
    as (p & text' & Hp & Hr & Hs & _).
  exists (index + 1), p. cbn [position trendScore].
  repeat split; [exact Hp|lia|].
  rewrite Hs, <- Zle_Qle. lia.
Qed.

(** X10.  The candidates of the social-trends scrape come out in the order
    of the scraped list: positions increase strictly and scores never
    increase along the sequence. *)
Theorem scrapeTrends_in_rank_order (elements : list string)
        (i j : nat) (a b : Trend) :
  i < j ->
  nth_error (scrapeTrends elements) i = Some a ->
  nth_error (scrapeTrends elements) j = Some b ->
  ranksBefore a b.
Proof.
  unfold scrapeTrends. generalize (scrapeLoop_ranked elements 0).
  generalize (scrapeLoop 0 elements). intros l Hs. revert i j.
  induction Hs as [|x l Hs IH Hx]; intros i j Hij Ha Hb.
  - destruct i; discriminate.
  - destruct j as [|j]; [lia|]. cbn in Hb.
    destruct i as [|i]; cbn in Ha.
    + injection Ha as <-.
      apply (proj1 (Forall_forall _ _) Hx). eapply nth_error_In; eauto.
    + apply (IH i j); [lia|assumption|assumption].
Qed.

Lemma scrapeTrends_in_rank_order_witness :
  ranksBefore (mkTrend "#Rocq" Twitter "general" (100 # 1) (Some 1))
              (mkTrend "Formal proofs" Twitter "general" (90 # 1) (Some 3)).
Proof.
  apply (scrapeTrends_in_rank_order
           [" #Rocq "; "ab"; "Formal proofs"] 0 1);
    [lia|reflexivity|reflexivity].
Defined.

End SourceProperties.

Module AggregationProperties.
Import TrendService Reference Notions DedupFacts AggregationFacts
       DedupProperties.

(** X11.  [getAllTrends] throws exactly when the instance holds a browser
    when the run ends, one left by an earlier call or one launched for the
    social-trends source, and closing it is rejected; it then throws that
    rejection.  So in a run that starts without a browser and in which the
    social-trends source is disabled or its browser cannot be launched,
    nothing can throw: the run returns the ranking of what the other
    sources yielded, whatever they do. *)
Theorem getAllTrends_without_browser_never_throws
        (w : Sources) (o : TrendOptions) :
  (forall e,
      getAllTrends w o = Throw e
      <-> holdsBrowser w o /\ browserClose w = Throw e)
  /\ (thisBrowser w = false ->
      includeTwitter o = false \/ failed (launchBrowser w) ->
      getAllTrends w o = Ok (rankTrends (gathered w o) (limit o))).
Proof.
  split.
  - intros e. split.
    + intros Hthrow.
      destruct (getAllTrends_outcome w o) as [Hok|(e' & He' & Hheld & Hclose)];
        [congruence|].
      rewrite He' in Hthrow. injection Hthrow as <-. now split.
    + intros [Hheld Hclose]. now apply getAllTrends_close_fails.
  - intros Hunset H.
    destruct (getAllTrends_outcome w o)
      as [Hok|(e & _ & [Hheld|[Ht Hl]] & _)]; [exact Hok|congruence|].
    destruct H as [H|[e' H]]; congruence.
Qed.

Lemma getAllTrends_without_browser_never_throws_witness :
  getAllTrends
    (mkSources (fun _ _ => Throw "ETIMEDOUT") (Ok tt) (Throw "timeout")
               (Throw "429") (Throw "Protocol error") false)
    (mkOptions true false true "US" None 10)
  = Ok (rankTrends
          (gathered
             (mkSources (fun _ _ => Throw "ETIMEDOUT") (Ok tt) (Throw "timeout")
                        (Throw "429") (Throw "Protocol error") false)
             (mkOptions true false true "US" None 10))
          10).
Proof.
  apply (proj2 (getAllTrends_without_browser_never_throws
                  (mkSources (fun _ _ => Throw "ETIMEDOUT") (Ok tt)
                             (Throw "timeout") (Throw "429")
                             (Throw "Protocol error") false)
                  (mkOptions true false true "US" None 10))).
  - reflexivity.
  - left. reflexivity.
Defined.

Lemma insertByScore_permutation (a : Trend) (l : list Trend) :
  Permutation (insertByScore a l) (a :: l).
Proof.
  induction l as [|b l IH]; cbn [insertByScore]; [reflexivity|].
  destruct (Qle_bool (trendScore b) (trendScore a)); [reflexivity|].
  rewrite IH. apply perm_swap.
Qed.

Lemma sortByScore_permutation (l : list Trend) :
  Permutation (sortByScore l) l.
Proof.
  induction l as [|a l IH]; cbn [sortByScore]; [reflexivity|].
  rewrite insertByScore_permutation. now constructor.
Qed.

Lemma sliceFrom0_firstn {A : Type} (l : list A) (stop : Z) :
  exists n, JS.sliceFrom0 l stop = firstn n l.
Proof. unfold JS.sliceFrom0. destruct (0 <=? stop)%Z; eauto. Qed.

Lemma unlike_sym (t u : Trend) : unlike t u -> unlike u t.
Proof. unfold unlike. now rewrite similar_sym. Qed.

Lemma dissimilar_pairs (l : list Trend) :
  dissimilar l -> ForallOrdPairs unlike l.
Proof.
  induction l as [|a l IH]; intros Hd; constructor.
  - apply Forall_forall. intros b Hb. apply In_nth_error in Hb.
    destruct Hb as [j Hj]. exact (Hd 0 (S j) a b (Nat.neq_0_succ j) eq_refl Hj).
  - apply IH. intros i j x y Hij Hx Hy.
    apply (Hd (S i) (S j)); [lia|exact Hx|exact Hy].
Qed.

Lemma pairs_permutation (l l' : list Trend) :
  Permutation l l' -> ForallOrdPairs unlike l -> ForallOrdPairs unlike l'.
Proof.
  induction 1 as [|x l l' Hp IH|x y l|l l' l'' H1 IH1 H2 IH2]; intros Hf.
  - exact Hf.
  - inversion Hf as [|? ? Hx Hl]; subst. constructor; [|auto].
    eapply Permutation_Forall; eauto.
  - inversion Hf as [|? ? Hy Hl]; subst.
    inversion Hl as [|? ? Hx Hl']; subst.
    inversion Hy as [|? ? Hyx Hyl]; subst.
    constructor; [constructor; [now apply unlike_sym|assumption]|].
    constructor; assumption.
  - auto.
Qed.

Lemma pairs_firstn (n : nat) (l : list Trend) :
  ForallOrdPairs unlike l -> ForallOrdPairs unlike (firstn n l).
Proof.
  intros Hf. revert n. induction Hf as [|a l Ha Hf IH]; intros [|n];
    cbn [firstn]; try constructor.
  - apply Forall_forall. intros x Hx.
    apply (proj1 (Forall_forall _ _) Ha). eapply In_firstn; eauto.
  - apply IH.
Qed.

Lemma pairs_nth (l : list Trend) (i j : nat) (a b : Trend) :
  ForallOrdPairs unlike l -> i <> j ->
  nth_error l i = Some a -> nth_error l j = Some b -> unlike a b.
Proof.
  intros Hf. revert i j. induction Hf as [|x l Hx Hf IH]; intros i j Hij Ha Hb.
  - destruct i; discriminate.
  - destruct i as [|i], j as [|j]; cbn in Ha, Hb; try lia.
    + injection Ha as <-.
      apply (proj1 (Forall_forall _ _) Hx). eapply nth_error_In; eauto.
    + injection Hb as <-. apply unlike_sym.
      apply (proj1 (Forall_forall _ _) Hx). eapply nth_error_In; eauto.
    + apply (IH i j); [lia|assumption|assumption].
Qed.

Lemma rankTrends_pairs (allTrends : list Trend) (limit : Z) :
  ForallOrdPairs unlike (rankTrends allTrends limit).
Proof.
  unfold rankTrends. cbv zeta.
  destruct (sliceFrom0_firstn (sortByScore (deduplicateTrends allTrends)) limit)
    as [n ->].
  apply pairs_firstn.
  apply (pairs_permutation (deduplicateTrends allTrends)).
  - symmetry. apply sortByScore_permutation.
  - apply dissimilar_pairs, deduplicateTrends_dissimilar.
Qed.

Lemma rankTrends_In (allTrends : list Trend) (limit : Z) (t : Trend) :
  In t (rankTrends allTrends limit) -> In t allTrends.
Proof.
  unfold rankTrends. cbv zeta.
  destruct (sliceFrom0_firstn (sortByScore (deduplicateTrends allTrends)) limit)
    as [n ->].
  intros Hin. apply In_firstn in Hin.
  apply (Permutation_in _ (sortByScore_permutation _)) in Hin.
  eapply subsequence_In; [apply deduplicateTrends_subsequence|exact Hin].
Qed.

(** X12.  Every candidate that [getAllTrends] returns was yielded, as it
    is, by an enabled source that answered, and no two returned candidates
    have normalized keywords with a similarity above 0.8. *)
Theorem getAllTrends_returns_distinct_source_candidates
        (w : Sources) (o : TrendOptions) (trends : list Trend) :
  getAllTrends w o = Ok trends ->
  (forall t, In t trends -> In t (gathered w o))
  /\ (forall i j a b,
         i <> j ->
         nth_error trends i = Some a ->
         nth_error trends j = Some b ->
         (calculateSimilarity (normalize a) (normalize b)
          <= similarityThreshold)%Q).
Proof.
  intros Hret.
  destruct (getAllTrends_outcome w o) as [H|(e & H & _)];
    rewrite H in Hret; [|discriminate].
  injection Hret as <-. split.
  - intros t. apply rankTrends_In.
  - intros i j a b Hij Ha Hb. apply gt_false_iff.
    exact (pairs_nth _ i j a b (rankTrends_pairs _ _) Hij Ha Hb).
Qed.

Lemma getAllTrends_returns_distinct_source_candidates_witness :
  (forall t,
      In t [ mkTrend "#Rocq" Twitter "general" (100 # 1) (Some 1);
             mkTrend "Formal proofs" Twitter "general" (90 # 1) (Some 3) ] ->
      In t (gathered Inputs.twitterOnly (Inputs.allSources 10)))
  /\ (forall i j a b,
         i <> j ->
         nth_error [ mkTrend "#Rocq" Twitter "general" (100 # 1) (Some 1);
                     mkTrend "Formal proofs" Twitter "general" (90 # 1) (Some 3) ]
                   i = Some a ->
         nth_error [ mkTrend "#Rocq" Twitter "general" (100 # 1) (Some 1);
                     mkTrend "Formal proofs" Twitter "general" (90 # 1) (Some 3) ]
                   j = Some b ->
         (calculateSimilarity (normalize a) (normalize b)
          <= similarityThreshold)%Q).
Proof.
  apply (getAllTrends_returns_distinct_source_candidates
           Inputs.twitterOnly (Inputs.allSources 10)).
  vm_compute. reflexivity.
Defined.

Lemma firstn_all_Z {A : Type} (l : list A) (stop : Z) :
  (Z.of_nat (List.length l) <= stop)%Z -> JS.sliceFrom0 l stop = l.
Proof.
  intros H. unfold JS.sliceFrom0.
  destruct (Z.leb_spec 0 stop); [|lia].
  apply firstn_all2. lia.
Qed.

(** X13.  With a limit that is at least the number of candidates left by
    the de-duplication, the truncation removes nothing: [getAllTrends]
    returns those candidates, each once, in another order. *)
Theorem getAllTrends_keeps_all_within_limit
        (w : Sources) (o : TrendOptions) (trends : list Trend) :
  getAllTrends w o = Ok trends ->
  (Z.of_nat (List.length (deduplicateTrends (gathered w o))) <= limit o)%Z ->
  Permutation trends (deduplicateTrends (gathered w o)).
Proof.
  intros Hret Hlimit.
  destruct (getAllTrends_outcome w o) as [H|(e & H & _)];
    rewrite H in Hret; [|discriminate].
  injection Hret as <-. unfold rankTrends. cbv zeta.
  rewrite firstn_all_Z.
  - apply sortByScore_permutation.
  - rewrite (Permutation_length (sortByScore_permutation _)). exact Hlimit.
Qed.

Lemma getAllTrends_keeps_all_within_limit_witness :
  Permutation
    [ mkTrend "Climate Change" GoogleTrends "general" (100 # 1) None;
      mkTrend "Quantum Computing" GoogleTrends "general" (90 # 1) None;
      mkTrend "Olympic Games" GoogleTrends "general" (60 # 1) None ]
    (deduplicateTrends (gathered Inputs.googleOnly (Inputs.allSources 3))).
Proof.
  apply (getAllTrends_keeps_all_within_limit
           Inputs.googleOnly (Inputs.allSources 3)).
  - vm_compute. reflexivity.
  - vm_compute. discriminate.
Defined.

Lemma withScore_insertByScore (q : Q) (a : Trend) (l : list Trend) :
  withScore q (insertByScore a l) = withScore q (a :: l).
Proof.
  induction l as [|b l IH]; [reflexivity|].
  cbn [insertByScore].
  destruct (Qle_bool (trendScore b) (trendScore a)) eqn:E; [reflexivity|].
  unfold withScore in *. cbn [filter] in *. rewrite IH.
  destruct (Qeq_bool (trendScore a) q) eqn:Ea;
    destruct (Qeq_bool (trendScore b) q) eqn:Eb; try reflexivity.
  exfalso. apply Qeq_bool_iff in Ea, Eb.
  assert (Qle_bool (trendScore b) (trendScore a) = true) as Habs.
  { apply Qle_bool_iff. rewrite Ea, Eb. apply Qle_refl. }
  congruence.
Qed.

Lemma withScore_sortByScore (q : Q) (l : list Trend) :
  withScore q (sortByScore l) = withScore q l.
Proof.
  induction l as [|a l IH]; [reflexivity|].
  cbn [sortByScore]. rewrite withScore_insertByScore.
  unfold withScore in *. cbn [filter]. now rewrite IH.
Qed.

Lemma filter_firstn {A : Type} (f : A -> bool) (n : nat) (l : list A) :
  exists m, filter f (firstn n l) = firstn m (filter f l).
Proof.
  revert n; induction l as [|a l IH]; intros [|n]; cbn [firstn filter].
  - exists 0. reflexivity.
  - exists 0. reflexivity.
  - exists 0. reflexivity.
  - destruct (IH n) as [m Hm]. destruct (f a).
    + exists (S m). cbn [firstn]. now rewrite Hm.
    + exists m. exact Hm.
Qed.

(** X14.  The ranking is stable: among the candidates of one score, those
    that [getAllTrends] returns are the first of them in the order in
    which the sources were queried and answered, in that order. *)
Theorem getAllTrends_ties_keep_source_order
        (w : Sources) (o : TrendOptions) (trends : list Trend) (q : Q) :
  getAllTrends w o = Ok trends ->
  exists n,
    withScore q trends
    = firstn n (withScore q (deduplicateTrends (gathered w o))).
Proof.
  intros Hret.
  destruct (getAllTrends_outcome w o) as [H|(e & H & _)];
    rewrite H in Hret; [|discriminate].
  injection Hret as <-. unfold rankTrends. cbv zeta.
  destruct (sliceFrom0_firstn
              (sortByScore (deduplicateTrends (gathered w o))) (limit o))
    as [n ->].
  destruct (filter_firstn (fun t => Qeq_bool (trendScore t) q) n
                          (sortByScore (deduplicateTrends (gathered w o))))
    as [m Hm].
  exists m. unfold withScore at 1. rewrite Hm.
  fold (withScore q (sortByScore (deduplicateTrends (gathered w o)))).
  now rewrite withScore_sortByScore.
Qed.

Lemma getAllTrends_ties_keep_source_order_witness :
  exists n,
    withScore (90 # 1)
      [ mkTrend "Alpha topic" GoogleTrends "general" (90 # 1) None;
        mkTrend "Beta subject" GoogleTrends "general" (90 # 1) None ]
    = firstn n
        (withScore (90 # 1)
           (deduplicateTrends
              (gathered MoreInputs.tiedSearches (Inputs.allSources 2)))).
Proof.
  apply (getAllTrends_ties_keep_source_order
           MoreInputs.tiedSearches (Inputs.allSources 2)).
  vm_compute. reflexivity.
Defined.

End AggregationProperties.

Module SlugProperties.
Import OpenAIService Reference Notions GenerationFacts.

Lemma isHyphen_eq (c : ascii) : isHyphen c = true -> c = "-"%char.
Proof.
  destruct c as [b0 b1 b2 b3 b4 b5 b6 b7].
  destruct b0, b1, b2, b3, b4, b5, b6, b7; vm_compute;
    first [discriminate | reflexivity].
Qed.

Lemma slugChar_not_space (c : ascii) :
  isSlugChar c = true -> JS.isWhiteSpace c = false -> isSlugLetter c = true.
Proof.
  unfold isSlugChar, isSlugLetter. cbv zeta. intros H Hw. rewrite Hw in H.
  rewrite orb_false_r in H. exact H.
Qed.

Lemma slugLetter_facts (c : ascii) :
  isSlugLetter c = true ->
  JS.toLowerCaseChar c = c
  /\ isSlugChar c = true
  /\ JS.isWhiteSpace c = false.
Proof.
  destruct c as [b0 b1 b2 b3 b4 b5 b6 b7].
  destruct b0, b1, b2, b3, b4, b5, b6, b7; vm_compute;
    first [discriminate | repeat split].
Qed.

Lemma filterChars_all (keep : ascii -> bool) (s : string) :
  allChars keep (filterChars keep s) = true.
Proof.
  induction s as [|c s IH]; [reflexivity|].
  cbn [filterChars]. destruct (keep c) eqn:E; [|exact IH].
  cbn [allChars]. now rewrite E, IH.
Qed.

Lemma collapse_white_space_letters (inRun : bool) (s : string) :
  allChars isSlugChar s = true ->
  allChars isSlugLetter (collapseRuns JS.isWhiteSpace inRun s) = true.
Proof.
  revert inRun; induction s as [|c s IH]; intros inRun H; [reflexivity|].
  cbn [allChars] in H. apply andb_prop in H. destruct H as [Hc Hs].
  cbn [collapseRuns]. destruct (JS.isWhiteSpace c) eqn:Hw.
  - destruct inRun; [now apply IH|]. cbn [allChars]. now rewrite IH.
  - cbn [allChars]. now rewrite (slugChar_not_space c Hc Hw), IH.
Qed.

Lemma collapse_hyphens_letters (inRun : bool) (s : string) :
  allChars isSlugLetter s = true ->
  allChars isSlugLetter (collapseRuns isHyphen inRun s) = true.
Proof.
  revert inRun; induction s as [|c s IH]; intros inRun H; [reflexivity|].
  cbn [allChars] in H. apply andb_prop in H. destruct H as [Hc Hs].
  cbn [collapseRuns]. destruct (isHyphen c).
  - destruct inRun; [now apply IH|]. cbn [allChars]. now rewrite IH.
  - cbn [allChars]. now rewrite Hc, IH.
Qed.

Lemma collapse_hyphens_apart (inRun : bool) (s : string) :
  hyphensApart inRun (collapseRuns isHyphen inRun s) = true.
Proof.
  revert inRun; induction s as [|c s IH]; intros inRun; [reflexivity|].
  cbn [collapseRuns]. destruct (isHyphen c) eqn:Hc.
  - destruct inRun; [apply IH|]. cbn [hyphensApart].
    change (isHyphen "-") with true. cbn. apply IH.
  - cbn [hyphensApart]. rewrite Hc. apply IH.
Qed.

Lemma hyphensApart_no_double (afterHyphen : bool) (s : string) :
  hyphensApart afterHyphen s = true -> JS.includes s "--" = false.
Proof.
  revert afterHyphen; induction s as [|c s IH]; intros afterHyphen H;
    [reflexivity|].
  cbn [JS.includes]. cbn [hyphensApart] in H.
  destruct (isHyphen c) eqn:Hc.
  - apply andb_prop in H. destruct H as [_ H]. rewrite (IH true H).
    rewrite orb_false_r. apply isHyphen_eq in Hc. subst c.
    destruct s as [|d s]; [reflexivity|].
    cbn [hyphensApart] in H.
    destruct (isHyphen d) eqn:Hd; [discriminate H|].
    cbn [String.prefix]. destruct (ascii_dec "-" "-") as [_|N]; [|congruence].
    destruct (ascii_dec "-" d) as [<-|_]; [discriminate Hd|reflexivity].
  - rewrite (IH false H), orb_false_r. cbn [String.prefix].
    destruct (ascii_dec "-" c) as [<-|_]; [discriminate Hc|reflexivity].
Qed.

Lemma generateSlug_letters (title : string) :
  allChars isSlugLetter (generateSlug title) = true
  /\ hyphensApart false (generateSlug title) = true.
Proof.
  rewrite generateSlug_trim_changes_nothing. split.
  - apply collapse_hyphens_letters, collapse_white_space_letters,
      filterChars_all.
  - apply collapse_hyphens_apart.
Qed.

(** X15.  A slug consists of lowercase letters, digits and hyphens only,
    and never has two hyphens in a row. *)
Theorem generateSlug_alphabet (title : string) :
  allChars isSlugLetter (generateSlug title) = true
  /\ JS.includes (generateSlug title) "--" = false.
Proof.
  destruct (generateSlug_letters title) as [H1 H2].
  split; [exact H1|]. exact (hyphensApart_no_double false _ H2).
Qed.

Lemma toLowerCase_letters (s : string) :
  allChars isSlugLetter s = true -> JS.toLowerCase s = s.
Proof.
  induction s as [|c s IH]; intros H; [reflexivity|].
  cbn [allChars] in H. apply andb_prop in H. destruct H as [Hc Hs].
  cbn [JS.toLowerCase]. destruct (slugLetter_facts c Hc) as (-> & _).
  now rewrite IH.
Qed.

Lemma filterChars_letters (s : string) :
  allChars isSlugLetter s = true -> filterChars isSlugChar s = s.
Proof.
  induction s as [|c s IH]; intros H; [reflexivity|].
  cbn [allChars] in H. apply andb_prop in H. destruct H as [Hc Hs].
  cbn [filterChars]. destruct (slugLetter_facts c Hc) as (_ & -> & _).
  now rewrite IH.
Qed.

Lemma collapse_white_space_letters_id (s : string) :
  allChars isSlugLetter s = true ->
  collapseRuns JS.isWhiteSpace false s = s.
Proof.
  induction s as [|c s IH]; intros H; [reflexivity|].
  cbn [allChars] in H. apply andb_prop in H. destruct H as [Hc Hs].
  cbn [collapseRuns]. destruct (slugLetter_facts c Hc) as (_ & _ & ->).
  now rewrite IH.
Qed.

Lemma collapse_hyphens_apart_id (inRun : bool) (s : string) :
  hyphensApart inRun s = true -> collapseRuns isHyphen inRun s = s.
Proof.
  revert inRun; induction s as [|c s IH]; intros inRun H; [reflexivity|].
  cbn [hyphensApart] in H. cbn [collapseRuns].
  destruct (isHyphen c) eqn:Hc.
  - apply andb_prop in H. destruct H as [Hrun H].
    apply negb_true_iff in Hrun. subst inRun.
    apply isHyphen_eq in Hc. subst c. now rewrite IH.
  - now rewrite IH.
Qed.

(** X16.  [generateSlug] is idempotent: the slug of a slug is that slug. *)
Theorem generateSlug_idempotent (title : string) :
  generateSlug (generateSlug title) = generateSlug title.
Proof.
  destruct (generateSlug_letters title) as [Hletters Hapart].
  rewrite (generateSlug_trim_changes_nothing (generateSlug title)).
  rewrite (toLowerCase_letters _ Hletters).
  rewrite (filterChars_letters _ Hletters).
  rewrite (collapse_white_space_letters_id _ Hletters).
  apply collapse_hyphens_apart_id. exact Hapart.
Qed.

End SlugProperties.

Module ParsingProperties.
Import OpenAIService Reference Notions SourceProperties.

Lemma nonEmpty_true (s : string) : nonEmpty s = true <-> s <> "".
Proof.
  unfold nonEmpty. rewrite negb_true_iff. apply String.eqb_neq.
Qed.

Lemma orElse_nonempty (s default : string) :
  default <> "" -> orElse s default <> "".
Proof.
  intros Hd. unfold orElse. destruct (nonEmpty s) eqn:E; [|exact Hd].
  now apply nonEmpty_true.
Qed.

Lemma orElse_keeps (s default : string) : s <> "" -> orElse s default = s.
Proof.
  intros H. unfold orElse. apply nonEmpty_true in H. now rewrite H.
Qed.

(** X17.  Whatever the backend replied, the parsed article has a title,
    an excerpt and at least one tag, and it has a content unless the reply
    is the empty string. *)
Theorem parseGeneratedContent_fields_filled
        (content : string) (trendData : Trend) :
  adTitle (parseGeneratedContent content trendData) <> ""
  /\ adExcerpt (parseGeneratedContent content trendData) <> ""
  /\ adTags (parseGeneratedContent content trendData) <> []
  /\ (content <> "" ->
      adContent (parseGeneratedContent content trendData) <> "").
Proof.
  unfold parseGeneratedContent. cbv zeta.
  cbn [adTitle adExcerpt adTags adContent].
  repeat split.
  - apply orElse_nonempty. discriminate.
  - apply orElse_nonempty. discriminate.
  - match goal with
    | |- (if isEmptyList ?l then _ else _) <> _ => destruct l; discriminate
    end.
  - intros H. now apply orElse_nonempty.
Qed.

Lemma setOfLoop_NoDup (seen l : list string) :
  NoDup (JS.setOfLoop seen l)
  /\ forall x, In x (JS.setOfLoop seen l) <-> In x l /\ ~ In x seen.
Proof.
  revert seen; induction l as [|a l IH]; intros seen.
  - split; [constructor|]. cbn. intuition.
  - cbn [JS.setOfLoop].
    destruct (existsb (String.eqb a) seen) eqn:E.
    + destruct (IH seen) as [Hnd Hin]. split; [exact Hnd|].
      intros x. rewrite Hin. cbn [In]. split; [intuition|].
      intros [[<-|Hx] Hs]; [|auto].
      exfalso. apply Hs. apply existsb_exists in E.
      destruct E as (y & Hy & Hay). apply String.eqb_eq in Hay. now subst.
    + destruct (IH (a :: seen)) as [Hnd Hin].
      assert (~ In a seen) as Ha.
      { intros Hina. assert (existsb (String.eqb a) seen = true) as Habs.
        { apply existsb_exists. exists a. split; [exact Hina|].
          apply String.eqb_refl. }
        congruence. }
      split.
      * constructor; [|exact Hnd]. rewrite Hin. cbn [In]. intuition.
      * intros x. cbn [In]. rewrite Hin. cbn [In].
        destruct (string_dec a x) as [->|Hax]; intuition.
Qed.

Lemma substring0_length (n : nat) (s : string) :
  String.length (JS.substring0 n s) <= n.
Proof.
  unfold JS.substring0. revert s; induction n as [|n IH]; intros s.
  - destruct s; cbn; lia.
  - destruct s as [|c s]; [cbn; lia|]. cbn [String.substring String.length].
    specialize (IH s). lia.
Qed.

Lemma length_append (a b : string) :
  String.length (a ++ b)%string = String.length a + String.length b.
Proof. induction a as [|c a IH]; cbn; [reflexivity|now rewrite IH]. Qed.

(** X18.  The fallback gives a title and an excerpt that are not empty,
    the reply itself as content, and tags without repetition that begin
    with the lowercased keyword and hold each of its words of more than
    three characters.  The excerpt is the default sentence or has at most
    203 characters. *)
Theorem fallbackParsing_result (content : string) (trendData : Trend) :
  fbTitle (fallbackParsing content trendData) <> ""
  /\ fbExcerpt (fallbackParsing content trendData) <> ""
  /\ (fbExcerpt (fallbackParsing content trendData)
      = defaultExcerpt (keyword trendData)
      \/ String.length (fbExcerpt (fallbackParsing content trendData)) <= 203)
  /\ fbContent (fallbackParsing content trendData) = content
  /\ NoDup (fbTags (fallbackParsing content trendData))
  /\ hd_error (fbTags (fallbackParsing content trendData))
     = Some (JS.toLowerCase (keyword trendData))
  /\ (forall word,
         In word (JS.split (JS.toLowerCase (keyword trendData)) " ") ->
         3 < String.length word ->
         In word (fbTags (fallbackParsing content trendData))).
Proof.
  unfold fallbackParsing. cbv zeta.
  cbn [fbTitle fbExcerpt fbContent fbTags].
  split; [apply orElse_nonempty; destruct (keyword trendData); discriminate|].
  split; [apply orElse_nonempty; discriminate|].
  split.
  { fold (defaultExcerpt (keyword trendData)).
    match goal with
    | |- orElse ?e _ = _ \/ _ =>
        unfold orElse; destruct (nonEmpty e) eqn:E; [right|now left]
    end.
    destruct (filter _ (JS.split content _)) as [|p ps]; [discriminate E|].
    rewrite length_append. pose proof (substring0_length 200 p). cbn. lia. }
  split; [reflexivity|].
  unfold JS.distinct.
  match goal with
  | |- NoDup (JS.setOfLoop [] ?l) /\ _ =>
      destruct (setOfLoop_NoDup [] l) as [Hnd Hin]
  end.
  split; [exact Hnd|]. split; [reflexivity|].
  intros word Hword Hlen. apply Hin. split; [|intros []].
  right. apply filter_In. split; [exact Hword|]. now apply Nat.ltb_lt.
Qed.

Lemma revString_twice (s a b : string) :
  JS.revString b (JS.revString a s) = JS.revString (s ++ b)%string a.
Proof.
  revert a b; induction s as [|c s IH]; intros a b; [reflexivity|].
  cbn [JS.revString]. rewrite IH. reflexivity.
Qed.

Lemma append_empty (s : string) : (s ++ "")%string = s.
Proof. induction s as [|c s IH]; [reflexivity|]. cbn. now rewrite IH. Qed.

Lemma append_assoc (a b c : string) :
  ((a ++ b) ++ c)%string = (a ++ (b ++ c))%string.
Proof. induction a as [|x a IH]; [reflexivity|]. cbn. now rewrite IH. Qed.

(** Splitting at the line feeds: a first line without one is cut off at
    the first line feed, and a string without one is a single line. *)
Lemma splitLoop_line (line cur rest : string) :
  oneLine line = true ->
  JS.splitLoop newline 0 cur (line ++ newline ++ rest)%string
  = JS.revString "" (JS.revString cur line)
    :: JS.splitLoop newline 0 "" rest.
Proof.
  revert cur; induction line as [|c line IH]; intros cur H.
  - unfold newline. cbn [append JS.splitLoop String.prefix String.length].
    destruct (ascii_dec (ascii_of_nat 10) (ascii_of_nat 10)); [|congruence].
    destruct rest; reflexivity.
  - cbn [oneLine] in H. apply andb_prop in H. destruct H as [Hc Hl].
    apply negb_true_iff in Hc.
    cbn [append JS.splitLoop].
    assert (String.prefix newline (String c (line ++ newline ++ rest)) = false)
      as ->.
    { unfold newline. cbn [String.prefix].
      destruct (ascii_dec (ascii_of_nat 10) c) as [<-|_];
        [discriminate Hc|reflexivity]. }
    rewrite IH by exact Hl. reflexivity.
Qed.

Lemma splitLoop_last (line cur : string) :
  oneLine line = true ->
  JS.splitLoop newline 0 cur line = [JS.revString "" (JS.revString cur line)].
Proof.
  revert cur; induction line as [|c line IH]; intros cur H; [reflexivity|].
  cbn [oneLine] in H. apply andb_prop in H. destruct H as [Hc Hl].
  apply negb_true_iff in Hc. cbn [JS.splitLoop].
  assert (String.prefix newline (String c line) = false) as ->.
  { unfold newline. cbn [String.prefix].
    destruct (ascii_dec (ascii_of_nat 10) c) as [<-|_];
      [discriminate Hc|reflexivity]. }
  rewrite IH by exact Hl. reflexivity.
Qed.

Lemma split_line (line rest : string) :
  oneLine line = true ->
  JS.split (line ++ newline ++ rest) newline = line :: JS.split rest newline.
Proof.
  intros H. unfold JS.split. rewrite splitLoop_line by exact H.
  rewrite revString_twice. cbn [JS.revString]. now rewrite append_empty.
Qed.

Lemma split_last (line : string) :
  oneLine line = true -> JS.split line newline = [line].
Proof.
  intros H. unfold JS.split. rewrite splitLoop_last by exact H.
  rewrite revString_twice. cbn [JS.revString]. now rewrite append_empty.
Qed.

Lemma oneLine_append (a b : string) :
  oneLine a = true -> oneLine b = true -> oneLine (a ++ b) = true.
Proof.
  intros Ha Hb. induction a as [|c a IH]; [exact Hb|].
  cbn [oneLine append] in *. apply andb_prop in Ha. destruct Ha as [Hc Ha].
  now rewrite Hc, IH.
Qed.

Lemma trimEnd_append (a b : string) :
  JS.trimEnd b <> "" -> JS.trimEnd (a ++ b) = (a ++ JS.trimEnd b)%string.
Proof.
  intros Hb. induction a as [|c a IH]; [reflexivity|].
  cbn [append JS.trimEnd]. rewrite IH.
  destruct (a ++ JS.trimEnd b)%string eqn:E; [|reflexivity].
  exfalso. destruct a; cbn in E; [auto|discriminate].
Qed.

Lemma trimEnd_append_space (a w : string) :
  JS.trimEnd w = "" -> JS.trimEnd (a ++ w) = JS.trimEnd a.
Proof.
  intros Hw. induction a as [|c a IH]; [exact Hw|].
  cbn [append JS.trimEnd]. now rewrite IH.
Qed.

Lemma clean_trimEnd (s : string) : JS.trim s = s -> JS.trimEnd s = s.
Proof.
  intros H. rewrite <- H at 1. unfold JS.trim.
  rewrite trimEnd_idempotent. exact H.
Qed.

Lemma clean_trimStart (s : string) : JS.trim s = s -> JS.trimStart s = s.
Proof.
  intros H. rewrite <- H at 1. unfold JS.trim.
  rewrite (trimStart_trimEnd _ (trimStart_idempotent s)). exact H.
Qed.

(** A marker followed by a space and a clean text is a line that [trim]
    leaves as it is. *)
Lemma trim_marked (marker text : string) :
  JS.trimStart marker = marker -> marker <> "" ->
  cleanLine text ->
  JS.trim (marker ++ " " ++ text) = (marker ++ " " ++ text)%string.
Proof.
  intros Hm Hne (Ht & _ & Hclean). unfold JS.trim.
  assert (JS.trimStart (marker ++ " " ++ text) = (marker ++ " " ++ text)%string)
    as ->.
  { destruct marker as [|c marker]; [congruence|].
    cbn [append JS.trimStart] in *.
    destruct (JS.isWhiteSpace c) eqn:Hc; [|reflexivity].
    exfalso.
    assert (String.length (JS.trimStart marker) <= String.length marker) as Hlen.
    { clear. induction marker as [|d s IH]; [reflexivity|].
      cbn [JS.trimStart]. destruct (JS.isWhiteSpace d); cbn; lia. }
    rewrite Hm in Hlen. cbn in Hlen. lia. }
  rewrite <- append_assoc. rewrite trimEnd_append.
  - now rewrite (clean_trimEnd text Hclean).
  - now rewrite (clean_trimEnd text Hclean).
Qed.

Lemma trim_after_space (text : string) :
  JS.trim text = text -> JS.trim (String " " text) = text.
Proof. intros H. exact H. Qed.

Lemma trim_line_feed (text : string) :
  cleanLine text -> JS.trim (text ++ newline) = text.
Proof.
  intros (Hne & _ & Hclean). unfold JS.trim.
  assert (JS.trimStart (text ++ newline) = (text ++ newline)%string) as ->.
  { pose proof (clean_trimStart text Hclean) as Hs.
    destruct text as [|c text]; [congruence|].
    cbn [append JS.trimStart] in *.
    destruct (JS.isWhiteSpace c) eqn:Hc; [|reflexivity].
    exfalso.
    assert (String.length (JS.trimStart text) <= String.length text) as Hlen.
    { clear. induction text as [|d s IH]; [reflexivity|].
      cbn [JS.trimStart]. destruct (JS.isWhiteSpace d); cbn; lia. }
    rewrite Hs in Hlen. cbn in Hlen. lia. }
  rewrite trimEnd_append_space by reflexivity.
  now apply clean_trimEnd.
Qed.

Lemma splitLoop_nonempty (sep : string) (skip : nat) (cur s : string) :
  JS.splitLoop sep skip cur s <> [].
Proof.
  revert skip cur; induction s as [|c s IH]; intros skip cur; [discriminate|].
  cbn [JS.splitLoop]. destruct skip; [|apply IH].
  destruct (String.prefix sep (String c s)); [discriminate|apply IH].
Qed.

Ltac decide_chars :=
  repeat match goal with
         | |- context [ascii_dec ?a ?b] =>
             destruct (ascii_dec a b); try congruence; try discriminate
         end.

Lemma parseLine_title (st : ParseState) (text : string) :
  cleanLine text ->
  parseLine st ("TITLE: " ++ text)
  = mkParseState text (psExcerpt st) (psTags st) (psArticleContent st)
                 TitleSection.
Proof.
  intros Hc. pose proof Hc as (_ & _ & Htrim).
  unfold parseLine. cbv zeta.
  change ("TITLE: " ++ text)%string with ("TITLE:" ++ " " ++ text)%string.
  rewrite (trim_marked "TITLE:" text eq_refl ltac:(discriminate) Hc).
  cbn [append JS.startsWith String.prefix JS.replaceFirst JS.dropChars
       String.length].
  decide_chars. cbn [append JS.dropChars].
  now rewrite (trim_after_space text Htrim).
Qed.

Lemma parseLine_excerpt (st : ParseState) (text : string) :
  cleanLine text ->
  parseLine st ("EXCERPT: " ++ text)
  = mkParseState (psTitle st) text (psTags st) (psArticleContent st)
                 ExcerptSection.
Proof.
  intros Hc. pose proof Hc as (_ & _ & Htrim).
  unfold parseLine. cbv zeta.
  change ("EXCERPT: " ++ text)%string with ("EXCERPT:" ++ " " ++ text)%string.
  rewrite (trim_marked "EXCERPT:" text eq_refl ltac:(discriminate) Hc).
  cbn [append JS.startsWith String.prefix JS.replaceFirst JS.dropChars
       String.length].
  decide_chars. cbn [append JS.dropChars].
  now rewrite (trim_after_space text Htrim).
Qed.

Lemma parseLine_tags (st : ParseState) (text : string) :
  cleanLine text ->
  parseLine st ("TAGS: " ++ text)
  = mkParseState (psTitle st) (psExcerpt st)
                 (map (fun tag => JS.toLowerCase (JS.trim tag))
                      (JS.split text ","))
                 (psArticleContent st) TagsSection.
Proof.
  intros Hc. pose proof Hc as (_ & _ & Htrim).
  unfold parseLine. cbv zeta.
  change ("TAGS: " ++ text)%string with ("TAGS:" ++ " " ++ text)%string.
  rewrite (trim_marked "TAGS:" text eq_refl ltac:(discriminate) Hc).
  cbn [append JS.startsWith String.prefix JS.replaceFirst JS.dropChars
       String.length].
  decide_chars. cbn [append JS.dropChars].
  now rewrite (trim_after_space text Htrim).
Qed.

Lemma parseLine_content_marker (st : ParseState) :
  parseLine st "CONTENT:"
  = mkParseState (psTitle st) (psExcerpt st) (psTags st)
                 (psArticleContent st) ContentSection.
Proof.
  unfold parseLine. cbv zeta. change (JS.trim "CONTENT:") with "CONTENT:".
  cbn [JS.startsWith String.prefix]. decide_chars; reflexivity.
Qed.

Lemma parseLine_body (st : ParseState) (text : string) :
  cleanLine text -> unmarked text ->
  psCurrentSection st = ContentSection ->
  parseLine st text
  = mkParseState (psTitle st) (psExcerpt st) (psTags st)
                 (psArticleContent st ++ text ++ newline) ContentSection.
Proof.
  intros (Hne & _ & Htrim) (H1 & H2 & H3 & H4) Hsec.
  unfold parseLine. cbv zeta. rewrite Htrim, H1, H2, H3, H4, Hsec.
  apply nonEmpty_true in Hne. rewrite Hne. reflexivity.
Qed.

(** X19.  A reply in the format of the prompt is read back as written: the
    title, the excerpt and the one-line body are returned as they are, the
    tags are the comma-separated pieces, trimmed and lowercased, and the
    slug is the one of the title. *)
Theorem parseGeneratedContent_formatted_reply
        (title excerpt tags body : string) (trendData : Trend) :
  cleanLine title -> cleanLine excerpt -> cleanLine tags ->
  cleanLine body -> unmarked body ->
  parseGeneratedContent (formattedReply title excerpt tags body) trendData
  = {| adTitle := title;
       adExcerpt := excerpt;
       adContent := body;
       adTags := map (fun tag => JS.toLowerCase (JS.trim tag))
                     (JS.split tags ",");
       adSlug := generateSlug title |}.
Proof.
  intros Ht He Hg Hb Hu.
  assert (parseLines (formattedReply title excerpt tags body)
          = mkParseState title excerpt
              (map (fun tag => JS.toLowerCase (JS.trim tag)) (JS.split tags ","))
              (body ++ newline) ContentSection) as Hparse.
  { unfold parseLines, formattedReply.
    replace ("TITLE: " ++ title ++ newline ++ "EXCERPT: " ++ excerpt ++ newline
             ++ "TAGS: " ++ tags ++ newline ++ "CONTENT:" ++ newline ++ body)%string
      with (("TITLE: " ++ title) ++ newline
            ++ ("EXCERPT: " ++ excerpt) ++ newline
            ++ ("TAGS: " ++ tags) ++ newline
            ++ "CONTENT:" ++ newline ++ body)%string
      by (cbn [append]; rewrite ?append_assoc; reflexivity).
    pose proof Ht as (_ & Htl & _). pose proof He as (_ & Hel & _).
    pose proof Hg as (_ & Hgl & _). pose proof Hb as (_ & Hbl & _).
    rewrite split_line by (apply oneLine_append; [reflexivity|exact Htl]).
    rewrite split_line by (apply oneLine_append; [reflexivity|exact Hel]).
    rewrite split_line by (apply oneLine_append; [reflexivity|exact Hgl]).
    rewrite split_line by reflexivity.
    rewrite split_last by exact Hbl.
    cbn [fold_left].
    rewrite (parseLine_title _ title Ht).
    rewrite (parseLine_excerpt _ excerpt He).
    rewrite (parseLine_tags _ tags Hg).
    rewrite parseLine_content_marker.
    rewrite (parseLine_body _ body Hb Hu) by reflexivity.
    reflexivity. }
  unfold parseGeneratedContent. cbv zeta. rewrite Hparse.
  destruct Ht as (Htne & Htl & Htt), He as (Hene & Hel & Het),
    Hb as (Hbne & Hbl & Hbt).
  assert (needsFallback
            (mkParseState title excerpt
               (map (fun tag => JS.toLowerCase (JS.trim tag)) (JS.split tags ","))
               (body ++ newline) ContentSection) = false) as ->.
  { unfold needsFallback. cbn [psTitle psExcerpt psArticleContent].
    apply nonEmpty_true in Htne, Hene. rewrite Htne, Hene.
    assert (nonEmpty (body ++ newline) = true) as ->; [|reflexivity].
    apply nonEmpty_true. destruct body; discriminate. }
  cbn [psTitle psExcerpt psTags psArticleContent].
  rewrite !(orElse_keeps title) by exact Htne.
  rewrite (orElse_keeps excerpt) by exact Hene.
  rewrite (trim_line_feed body (conj Hbne (conj Hbl Hbt))).
  rewrite (orElse_keeps body) by exact Hbne.
  f_equal. unfold JS.split.
  pose proof (splitLoop_nonempty "," 0 "" tags) as Hsplit.
  destruct (JS.splitLoop "," 0 "" tags); [congruence|reflexivity].
Qed.

Lemma parseGeneratedContent_formatted_reply_witness :
  parseGeneratedContent
    (formattedReply "Why Proofs Matter" "Proofs catch what tests miss."
                    "Proofs, Rocq ,testing" "Testing samples; proof covers.")
    (Inputs.candidate "formal proofs" (90 # 1))
  = {| adTitle := "Why Proofs Matter";
       adExcerpt := "Proofs catch what tests miss.";
       adContent := "Testing samples; proof covers.";
       adTags := map (fun tag => JS.toLowerCase (JS.trim tag))
                     (JS.split "Proofs, Rocq ,testing" ",");
       adSlug := generateSlug "Why Proofs Matter" |}.
Proof.
  apply (parseGeneratedContent_formatted_reply
           "Why Proofs Matter" "Proofs catch what tests miss."
           "Proofs, Rocq ,testing" "Testing samples; proof covers.");
    unfold cleanLine, unmarked; repeat split; try discriminate;
    vm_compute; reflexivity.
Defined.

End ParsingProperties.

Module GenerationProperties.
Import Generation ArticleService Reference Notions PersistenceFacts
       AggregationFacts AggregationProperties SourceProperties.

Lemma generateSEOMetadata_total (parse : string -> result json)
      (articleData : ArticleData) (trendData : Trend)
      (completion : result MessageContent) :
  exists seoData,
    OpenAIService.generateSEOMetadata parse articleData trendData completion
    = Ok seoData.
Proof.
  unfold OpenAIService.generateSEOMetadata.
  destruct completion as [seoContent|e]; cbn [bind tryCatch]; [|eauto].
  destruct (OpenAIService.parseJson parse seoContent) as [seoData|e];
    cbn [bind tryCatch].
  - destruct seoData; cbn [OpenAIService.getProperty bind tryCatch]; eauto.
    destruct seoContent; cbn [OpenAIService.parseSEOContent tryCatch]; eauto.
  - destruct seoContent; cbn [OpenAIService.parseSEOContent tryCatch]; eauto.
Qed.

Lemma generateArticle_hasText (w : World) (trend : Trend) (category : string) :
  match generateArticle w trend category with
  | Ok article =>
      hasText (articleCompletion w trend) = true /\ trendData article = trend
      /\ articleCategory article = category
  | Throw _ => hasText (articleCompletion w trend) = false
  end.
Proof.
  unfold generateArticle.
  destruct (articleCompletion w trend) as [[content| |]|e];
    cbn [bind tryCatch hasText]; try reflexivity.
  destruct (generateSEOMetadata_total
              (JSON_parse w)
              (OpenAIService.parseGeneratedContent content trend) trend
              (seoCompletion w
                 (OpenAIService.parseGeneratedContent content trend) trend))
    as [seoData ->].
  cbn [bind tryCatch trendData articleCategory]. auto.
Qed.

(** What the loop of [generateMultipleArticles] makes of the trends it is
    given. *)
Lemma generated_each (w : World) (l : list Trend) :
  let made :=
    flat_map (fun trend =>
                match generateArticle w trend "general" with
                | Ok article => [article]
                | Throw _ => []
                end) l in
  map trendData made
  = filter (fun trend => hasText (articleCompletion w trend)) l
  /\ List.length made <= List.length l
  /\ forall article, In article made -> articleCategory article = "general".
Proof.
  cbv zeta.
  induction l as [|t l (IH1 & IH2 & IH3)]; [cbn; intuition|].
  cbn [flat_map filter List.length].
  pose proof (generateArticle_hasText w t "general") as H.
  destruct (generateArticle w t "general") as [article|e].
  - destruct H as (-> & Ht & Hc). cbn [app map List.length].
    rewrite Ht, IH1. repeat split; [lia|].
    intros a [<-|Ha]; auto.
  - rewrite H. cbn [app]. repeat split; [exact IH1|lia|exact IH3].
Qed.

(** X20.  An article is generated exactly when the request for the article
    is answered with a text: whatever happens to the request for the SEO
    metadata, the article then carries the parsed reply, the trend and the
    category it was asked for.  Any other outcome of the first request is
    thrown again with the prefix [Failed to generate article: ]. *)
Theorem generateArticle_succeeds_iff_text
        (w : World) (trend : Trend) (category : string) :
  (forall content,
      articleCompletion w trend = Ok (Text content) ->
      exists article,
        generateArticle w trend category = Ok article
        /\ articleData article
           = OpenAIService.parseGeneratedContent content trend
        /\ trendData article = trend
        /\ articleCategory article = category)
  /\ (hasText (articleCompletion w trend) = false ->
      exists e,
        generateArticle w trend category
        = Throw ("Failed to generate article: " ++ e)%string).
Proof.
  unfold generateArticle. split.
  - intros content ->. cbn [bind].
    destruct (generateSEOMetadata_total
                (JSON_parse w)
                (OpenAIService.parseGeneratedContent content trend) trend
                (seoCompletion w
                   (OpenAIService.parseGeneratedContent content trend) trend))
      as [seoData ->].
    cbn [bind tryCatch]. eexists. repeat split.
  - destruct (articleCompletion w trend) as [[c| |]|e]; cbn; intros H;
      try discriminate; eauto.
Qed.

(** X21.  [generateMultipleArticles] works on the first five trends only
    and passes over a trend whose article request fails: the trends of the
    articles it returns are, in order, those of the first five for which
    the backend answered with a text.  Every article has the category
    [general]. *)
Theorem generateMultipleArticles_first_five (w : World) (trends : list Trend) :
  map trendData (generateMultipleArticles w trends)
  = filter (fun trend => hasText (articleCompletion w trend))
           (firstn 5 trends)
  /\ List.length (generateMultipleArticles w trends) <= 5
  /\ (forall article,
         In article (generateMultipleArticles w trends) ->
         articleCategory article = "general").
Proof.
  unfold generateMultipleArticles. cbv zeta.
  change (JS.sliceFrom0 trends 5) with (firstn 5 trends).
  destruct (generated_each w (firstn 5 trends)) as (H1 & H2 & H3).
  split; [exact H1|]. split; [|exact H3].
  rewrite length_firstn in H2. lia.
Qed.

Lemma gathered_general (w : TrendService.Sources)
      (o : TrendService.TrendOptions) (t : Trend) :
  TrendService.includeReddit o = false ->
  TrendService.categoryFilter o = None ->
  In t (gathered w o) -> category t = "general".
Proof.
  intros Hr Hc. unfold gathered, candidatesOf. rewrite Hr, Hc.
  rewrite app_nil_r. intros Hin. apply in_app_or in Hin.
  destruct Hin as [Hin|Hin].
  - destruct (TrendService.includeGoogle o); [|contradiction].
    destruct (TrendService.dailyTrends w (TrendService.geo o) None);
      [|contradiction].
    apply in_map_iff in Hin. destruct Hin as (search & <- & _). reflexivity.
  - destruct (TrendService.includeTwitter o); [|contradiction].
    destruct (twitterReply w) as [elements|e]; [|contradiction].
    unfold TrendService.scrapeTrends in Hin.
    now apply SourceProperties.scrapeLoop_keyword in Hin.
Qed.

Lemma filter_none {A : Type} (f : A -> bool) (l : list A) :
  (forall x, In x l -> f x = false) -> filter f l = [].
Proof.
  induction l as [|a l IH]; intros H; [reflexivity|].
  cbn [filter]. rewrite (H a (or_introl eq_refl)). apply IH.
  intros x Hx. apply H. now right.
Qed.

(** X22.  With the link-aggregator source disabled, every candidate of the
    aggregation of [generateArticlesFromTrends] has the category
    [general], so a list of wanted categories that is not empty and does
    not name [general] removes them all: the call returns no article and
    leaves the collection as it is.  These are the default options. *)
Theorem generateArticlesFromTrends_general_only
        (w : World) (options : GenerationOptions) (env : Env) :
  includeReddit options = false ->
  categories options <> [] ->
  ~ In "general" (categories options) ->
  store (snd (generateArticlesFromTrends w options env)) = store env
  /\ (fst (generateArticlesFromTrends w options env) = Ok []
      \/ exists e, fst (generateArticlesFromTrends w options env) = Throw e).
Proof.
  intros Hreddit Hcats Hgeneral.
  unfold generateArticlesFromTrends, tryCatchE, bindE, aggregate, raise.
  fold (serviceAggregation options).
  set (sources := sourcesAt w (List.length (aggregations env))).
  destruct (getAllTrends_outcome sources (serviceAggregation options))
    as [Hok|(e & Hko & _)].
  2:{ rewrite Hko. cbn [fst snd store]. split; eauto. }
  rewrite Hok.
  destruct (TrendService.rankTrends
              (gathered sources (serviceAggregation options))
              (TrendService.limit (serviceAggregation options)))
    as [|t fetched] eqn:Hrank; [cbn; auto|].
  destruct (categories options) as [|c cs] eqn:Hc; [congruence|].
  rewrite filter_none.
  - assert (JS.sliceFrom0 (@nil Trend) (maxArticles options) = []) as ->.
    { unfold JS.sliceFrom0. destruct (0 <=? maxArticles options)%Z;
        apply firstn_nil. }
    cbn. auto.
  - intros x Hx. rewrite <- Hrank in Hx. apply rankTrends_In in Hx.
    rewrite (gathered_general sources (serviceAggregation options) x
               Hreddit eq_refl Hx).
    change (isCategory (CategoryName "general")) with (String.eqb "general").
    destruct (existsb (String.eqb "general") (c :: cs)) eqn:E; [|reflexivity].
    apply existsb_exists in E. destruct E as (y & Hy & Heq).
    apply String.eqb_eq in Heq. subst y. contradiction.
Qed.

Lemma generateArticlesFromTrends_general_only_witness :
  store (snd (generateArticlesFromTrends MoreInputs.oneArticle
                MoreInputs.defaultGeneration (mkEnv [] [])))
  = store (mkEnv [] [])
  /\ (fst (generateArticlesFromTrends MoreInputs.oneArticle
              MoreInputs.defaultGeneration (mkEnv [] [])) = Ok []
      \/ exists e,
           fst (generateArticlesFromTrends MoreInputs.oneArticle
                  MoreInputs.defaultGeneration (mkEnv [] [])) = Throw e).
Proof.
  apply (generateArticlesFromTrends_general_only
           MoreInputs.oneArticle MoreInputs.defaultGeneration (mkEnv [] [])).
  - reflexivity.
  - discriminate.
  - cbn. intuition discriminate.
Defined.

Lemma saveAll_fold (w : World) (generatedArticles : list Article)
      (saved : Eff (list Article)) (n : nat) :
  (forall env, exists done env',
        saved env = (Ok done, env') /\ List.length done <= n) ->
  forall env, exists done env',
    fold_left
      (fun (saved : Eff (list Article)) (document : Article) =>
         savedArticles <-- saved ;;
         tryCatchE
           (article <-- createArticle w document ;;
            ret (savedArticles ++ [article]))
           (fun _ => ret savedArticles))
      generatedArticles saved env
    = (Ok done, env')
    /\ List.length done <= n + List.length generatedArticles.
Proof.
  revert saved n; induction generatedArticles as [|document rest IH];
    intros saved n Hsaved env.
  - destruct (Hsaved env) as (done & env' & H & Hlen).
    exists done, env'. cbn [fold_left List.length]. split; [exact H|lia].
  - cbn [fold_left List.length].
    replace (n + S (List.length rest)) with (S n + List.length rest) by lia.
    apply IH. clear env. intros env.
    destruct (Hsaved env) as (done & env' & H & Hlen).
    unfold bindE, tryCatchE, ret. rewrite H.
    destruct (createArticle w document env') as [[article|e] env''].
    + exists (done ++ [article]), env''. split; [reflexivity|].
      rewrite length_app. cbn. lia.
    + exists done, env''. split; [reflexivity|lia].
Qed.

Lemma sliceFrom0_bound {A : Type} (l : list A) (stop : Z) :
  (0 <= stop)%Z -> (Z.of_nat (List.length (JS.sliceFrom0 l stop)) <= stop)%Z.
Proof. apply sliceFrom0_length. Qed.

(** X23.  [generateArticlesFromTrends] fails only when the aggregation
    fails: an article that cannot be generated or saved is passed over.
    It returns at most five articles, and at most [maxArticles] when that
    number is not negative. *)
Theorem generateArticlesFromTrends_bounded
        (w : World) (options : GenerationOptions) (env : Env) :
  (exists saved,
      fst (generateArticlesFromTrends w options env) = Ok saved
      /\ List.length saved <= 5
      /\ ((0 <= maxArticles options)%Z ->
          (Z.of_nat (List.length saved) <= maxArticles options)%Z))
  \/ (exists e,
         fst (generateArticlesFromTrends w options env) = Throw e
         /\ TrendService.getAllTrends
              (sourcesAt w (List.length (aggregations env)))
              (serviceAggregation options) = Throw e
         /\ store (snd (generateArticlesFromTrends w options env))
            = store env).
Proof.
  unfold generateArticlesFromTrends, tryCatchE, bindE, aggregate, raise.
  fold (serviceAggregation options).
  destruct (TrendService.getAllTrends
              (sourcesAt w (List.length (aggregations env)))
              (serviceAggregation options)) as [fetched|e];
    [left|right; exists e; repeat split].
  destruct fetched as [|t fetched].
  { exists []. cbn. repeat split; lia. }
  set (selected := JS.sliceFrom0 _ (maxArticles options)).
  assert (List.length (Generation.generateMultipleArticles w selected)
          <= Nat.min 5 (List.length selected)) as Hsel.
  { unfold Generation.generateMultipleArticles. cbv zeta.
    change (JS.sliceFrom0 selected 5) with (firstn 5 selected).
    destruct (generated_each w (firstn 5 selected)) as (_ & Hmade & _).
    rewrite length_firstn in Hmade. exact Hmade. }
  unfold saveAll.
  destruct (saveAll_fold w (Generation.generateMultipleArticles w selected)
              (ret []) 0
              (fun env0 => ex_intro _ [] (ex_intro _ env0
                 (conj eq_refl (Nat.le_refl 0))))
              (mkEnv (store env) (aggregations env ++ [serviceAggregation options])))
    as (done & env' & Hrun & Hlen).
  rewrite Hrun. exists done. cbn [fst]. split; [reflexivity|].
  split; [lia|]. intros Hmax.
  pose proof (sliceFrom0_bound
                (match categories options with
                 | [] => t :: fetched
                 | _ :: _ =>
                     filter (fun trend =>
                               existsb (isCategory (category trend))
                                       (categories options))
                            (t :: fetched)
                 end)
                (maxArticles options) Hmax) as Hbound.
  fold selected in Hbound. lia.
Qed.

End GenerationProperties.

Module PersistenceProperties.
Import ArticleService Reference Notions PersistenceFacts PatternFacts.

Lemma matchLiteral_prefix (s t : string) (atStart : bool) :
  matchLiteral s atStart t (fun _ _ => true)
  = String.prefix (JS.toLowerCase s) (JS.toLowerCase t).
Proof.
  revert t atStart; induction s as [|c s IH]; intros t atStart.
  - destruct t; reflexivity.
  - destruct t as [|d t]; [reflexivity|].
    cbn [matchLiteral JS.toLowerCase String.prefix].
    rewrite IH. unfold RegExp.sameLetter.
    destruct (ascii_dec (JS.toLowerCaseChar c) (JS.toLowerCaseChar d)) as [E|E].
    + rewrite E, Ascii.eqb_refl. reflexivity.
    + apply Ascii.eqb_neq in E. rewrite E. reflexivity.
Qed.

Lemma search_literal (s t : string) (atStart : bool) :
  RegExp.search (literal RegExp.Empty s) atStart t = within s t.
Proof.
  unfold within. revert atStart; induction t as [|d t IH]; intros atStart;
    cbn [RegExp.search JS.toLowerCase JS.includes];
    rewrite matchHere_literal; cbn [RegExp.matchHere];
    rewrite matchLiteral_prefix.
  - reflexivity.
  - rewrite IH. reflexivity.
Qed.

Lemma find_ext {A : Type} (f g : A -> bool) (l : list A) :
  (forall a, f a = g a) -> find f l = find g l.
Proof.
  intros H. induction l as [|a l IH]; [reflexivity|].
  cbn [find]. rewrite H, IH. reflexivity.
Qed.

(** X24.  For a title without pattern characters [createArticle] returns
    the first stored article whose title contains the new title, up to
    the case of the letters, and leaves the collection as it is; the
    document is handed to [save] only when no stored title contains its
    title.  A stored title that merely contains the new one thus keeps
    the article from being created. *)
Theorem createArticle_plain_title
        (w : World) (document : Article) (env : Env) :
  plain (articleTitle document) = true ->
  createArticle w document env
  = match find (fun stored => within (articleTitle document)
                                     (articleTitle stored))
               (store env) with
    | Some existing => (Ok existing, env)
    | None => saveNew w document env
    end.
Proof.
  intros Hplain.
  unfold createArticle, tryCatchE, bindE, findOneByTitle, RegExp.compile.
  rewrite (parsePattern_plain _ Hplain).
  rewrite (find_ext _ (fun stored => within (articleTitle document)
                                            (articleTitle stored)))
    by (intros a; apply search_literal).
  destruct (find _ (store env)) as [existing|]; [reflexivity|].
  unfold saveNew, raise.
  destruct (save w (store env) document) as [[store' saved]|e]; reflexivity.
Qed.

Lemma createArticle_plain_title_witness :
  createArticle Inputs.acceptingStore MoreInputs.short
                (mkEnv [Inputs.groupedTitle; MoreInputs.shouting] [])
  = (Ok MoreInputs.shouting,
     mkEnv [Inputs.groupedTitle; MoreInputs.shouting] []).
Proof.
  rewrite (createArticle_plain_title
             Inputs.acceptingStore MoreInputs.short
             (mkEnv [Inputs.groupedTitle; MoreInputs.shouting] []))
    by (vm_compute; reflexivity).
  vm_compute. reflexivity.
Defined.

(** X25.  An article whose title is not a well-formed pattern cannot be
    created: the constructor of the expression throws before the
    collection is read, [save] is not called and the collection stays as
    it is. *)
Theorem createArticle_rejects_ill_formed_title
        (w : World) (document : Article) (env : Env) :
  RegExp.parsePattern (articleTitle document) = RegExp.SyntaxError ->
  createArticle w document env
  = (Throw "SyntaxError: Invalid regular expression", env).
Proof.
  intros H.
  unfold createArticle, tryCatchE, bindE, findOneByTitle, RegExp.compile.
  now rewrite H.
Qed.

Lemma createArticle_rejects_ill_formed_title_witness :
  createArticle Inputs.acceptingStore MoreInputs.plusPlus (mkEnv [] [])
  = (Throw "SyntaxError: Invalid regular expression", mkEnv [] []).
Proof.
  apply (createArticle_rejects_ill_formed_title
           Inputs.acceptingStore MoreInputs.plusPlus (mkEnv [] [])).
  vm_compute. reflexivity.
Defined.

End PersistenceProperties.

Module CacheProperties.
Import TrendsRouter Reference Notions.

Lemma getTrendsHandler_miss (w : World) (cache : TrendsCache)
      (now later : Z) (q : TrendsQuery) (env : Env) (fetched : list Trend) :
  qFresh q = true \/ freshEntry cache now = None ->
  TrendService.getAllTrends (sourcesAt w (List.length (aggregations env)))
                            (queryAggregation q) = Ok fetched ->
  getTrendsHandler w cache now later q env
  = (Fetched (JS.sliceFrom0 fetched (qLimit q)) (List.length fetched),
     mkCache (Some fetched) (Some later) (ttl cache),
     mkEnv (store env) (aggregations env ++ [queryAggregation q])).
Proof.
  intros Hmiss Hfetch. unfold getTrendsHandler, aggregate.
  assert ((if qFresh q then None else freshEntry cache now) = None) as ->.
  { destruct Hmiss as [->| ->]; [reflexivity|now destruct (qFresh q)]. }
  now rewrite Hfetch.
Qed.

Lemma freshEntry_written (fetched : list Trend) (stamp life now : Z) :
  stamp <> 0%Z -> (now - stamp < life)%Z ->
  freshEntry (mkCache (Some fetched) (Some stamp) life) now
  = Some (fetched, (now - stamp)%Z).
Proof.
  intros Hs Hage. unfold freshEntry. cbn [data timestamp ttl].
  destruct (Z.eqb_spec stamp 0); [contradiction|].
  destruct (Z.ltb_spec (now - stamp) life); [reflexivity|lia].
Qed.

(** X26.  What a request to [GET /] fetched is what the next requests
    get: after a request that went to the sources and wrote the cache at
    the time [written], a request without [fresh] that arrives less than
    the time to live later is answered from the cache, without an
    aggregation, with the first [limit] candidates of those fetched for
    the earlier request, whatever source, category and region it names. *)
Theorem getTrends_answered_from_last_fetch
        (w : World) (cache : TrendsCache) (now written : Z)
        (q : TrendsQuery) (env : Env) (fetched : list Trend)
        (now' written' : Z) (q' : TrendsQuery) :
  qFresh q = true \/ freshEntry cache now = None ->
  TrendService.getAllTrends (sourcesAt w (List.length (aggregations env)))
                            (queryAggregation q) = Ok fetched ->
  written <> 0%Z ->
  qFresh q' = false ->
  (now' - written < ttl cache)%Z ->
  exists cache1 env1,
    getTrendsHandler w cache now written q env
    = (Fetched (JS.sliceFrom0 fetched (qLimit q)) (List.length fetched),
       cache1, env1)
    /\ aggregations env1 = aggregations env ++ [queryAggregation q]
    /\ getTrendsHandler w cache1 now' written' q' env1
       = (FromCache (JS.sliceFrom0 fetched (qLimit q'))
                    ((now' - written) / 1000 / 60)%Z,
          cache1, env1).
Proof.
  intros Hmiss Hfetch Hwritten Hfresh Hage.
  rewrite (getTrendsHandler_miss w cache now written q env fetched Hmiss Hfetch).
  eexists. eexists. split; [reflexivity|]. split; [reflexivity|].
  unfold getTrendsHandler. rewrite Hfresh.
  now rewrite (freshEntry_written fetched written (ttl cache) now' Hwritten Hage).
Qed.

Lemma getTrends_answered_from_last_fetch_witness :
  exists cache1 env1,
    getTrendsHandler MoreInputs.oneArticle MoreInputs.emptyCache
                     1700000000000 1700000000500 MoreInputs.topTwo
                     (mkEnv [] [])
    = (Fetched (JS.sliceFrom0 MoreInputs.googleRanking 2) 3, cache1, env1)
    /\ aggregations env1 = [] ++ [queryAggregation MoreInputs.topTwo]
    /\ getTrendsHandler MoreInputs.oneArticle cache1
                        1700000060500 1700000060900 MoreInputs.redditHealth env1
       = (FromCache (JS.sliceFrom0 MoreInputs.googleRanking 20)
                    ((1700000060500 - 1700000000500) / 1000 / 60)%Z,
          cache1, env1).
Proof.
  apply (getTrends_answered_from_last_fetch
           MoreInputs.oneArticle MoreInputs.emptyCache
           1700000000000 1700000000500 MoreInputs.topTwo (mkEnv [] [])
           MoreInputs.googleRanking
           1700000060500 1700000060900 MoreInputs.redditHealth).
  - right. reflexivity.
  - vm_compute. reflexivity.
  - discriminate.
  - reflexivity.
  - vm_compute. reflexivity.
Defined.

(** X27.  After the cache was cleared, the next request to [GET /] goes
    to the sources, once, with twice its limit, whether or not it asks
    for fresh data.  A request to clear the cache without a bearer token
    is refused and leaves the cache as it is. *)
Theorem getTrends_after_clear_aggregates
        (w : World) (cache : TrendsCache) (now later : Z)
        (q : TrendsQuery) (env : Env) :
  clearCacheHandler cache true = (CacheCleared, mkCache None None (ttl cache))
  /\ clearCacheHandler cache false = (Unauthorized, cache)
  /\ aggregations
       (snd (getTrendsHandler w (snd (clearCacheHandler cache true))
                              now later q env))
     = aggregations env ++ [queryAggregation q]
  /\ TrendService.limit (queryAggregation q) = (qLimit q * 2)%Z.
Proof.
  split; [reflexivity|]. split; [reflexivity|]. split; [|reflexivity].
  unfold getTrendsHandler, clearCacheHandler, aggregate. cbn [snd].
  assert ((if qFresh q then None
           else freshEntry (mkCache None None (ttl cache)) now) = None) as ->
      by (destruct (qFresh q); reflexivity).
  destruct (TrendService.getAllTrends _ _); reflexivity.
Qed.

Lemma filter_categories (wanted : list string) (l : list Trend) (t : Trend) :
  In t (filter (fun trend => existsb (isCategory (category trend)) wanted) l) ->
  In t l /\ In (category t) (map CategoryName wanted).
Proof.
  intros H. apply filter_In in H. destruct H as [Hin Hcat].
  split; [exact Hin|]. apply existsb_exists in Hcat.
  destruct Hcat as (c & Hc & Heq).
  destruct (category t) as [name|member]; [|discriminate].
  apply String.eqb_eq in Heq. subst. now apply in_map.
Qed.

(** X28.  [POST /fetch] caches the candidates it has filtered by its
    categories, so a request to [GET /] that is answered from that cache
    gets candidates of those categories only, whatever category it asks
    for itself, each of them one that the refresh had fetched. *)
Theorem getTrends_after_fetch_serves_filtered
        (w : World) (cache : TrendsCache) (now : Z) (r : FetchRequest)
        (env : Env) (fetched : list Trend)
        (now' later' : Z) (q : TrendsQuery) :
  TrendService.getAllTrends (sourcesAt w (List.length (aggregations env)))
                            (fetchAggregation r) = Ok fetched ->
  fCategories r <> [] ->
  now <> 0%Z ->
  qFresh q = false ->
  (now' - now < ttl cache)%Z ->
  exists refreshed cache1 env1 served age,
    fetchTrendsHandler w cache now true r env
    = (Refreshed refreshed, cache1, env1)
    /\ getTrendsHandler w cache1 now' later' q env1
       = (FromCache served age, cache1, env1)
    /\ served = JS.sliceFrom0 refreshed (qLimit q)
    /\ forall t,
         In t served ->
         In t fetched /\ In (category t) (map CategoryName (fCategories r)).
Proof.
  intros Hfetch Hcats Hnow Hfresh Hage.
  unfold fetchTrendsHandler, aggregate. rewrite Hfetch.
  destruct (fCategories r) as [|c cs] eqn:Hc; [congruence|].
  do 5 eexists. split; [reflexivity|].
  unfold getTrendsHandler. rewrite Hfresh.
  rewrite (freshEntry_written _ now (ttl cache) now' Hnow Hage).
  split; [reflexivity|]. split; [reflexivity|].
  intros t Ht.
  destruct (AggregationProperties.sliceFrom0_firstn
              (filter (fun trend => existsb (isCategory (category trend)) (c :: cs))
                      fetched) (qLimit q)) as [n Hn].
  rewrite Hn in Ht. apply AggregationFacts.In_firstn in Ht.
  now apply filter_categories.
Qed.

Lemma getTrends_after_fetch_serves_filtered_witness :
  exists refreshed cache1 env1 served age,
    fetchTrendsHandler MoreInputs.oneArticle MoreInputs.emptyCache
                       1700000000000 true MoreInputs.generalOnly (mkEnv [] [])
    = (Refreshed refreshed, cache1, env1)
    /\ getTrendsHandler MoreInputs.oneArticle cache1
                        1700000060500 1700000060900 MoreInputs.redditHealth env1
       = (FromCache served age, cache1, env1)
    /\ served = JS.sliceFrom0 refreshed 20
    /\ forall t,
         In t served ->
         In t MoreInputs.googleRanking
         /\ In (category t) (map CategoryName ["general"]).
Proof.
  apply (getTrends_after_fetch_serves_filtered
           MoreInputs.oneArticle MoreInputs.emptyCache 1700000000000
           MoreInputs.generalOnly (mkEnv [] []) MoreInputs.googleRanking
           1700000060500 1700000060900 MoreInputs.redditHealth).
  - vm_compute. reflexivity.
  - discriminate.
  - discriminate.
  - reflexivity.
  - vm_compute. reflexivity.
Defined.

(** X29.  No request changes the time to live of the cache.  [GET /]
    replaces the cached candidates only when it answers with freshly
    fetched ones, and [POST /fetch] only when it answers with refreshed
    ones: a request that is answered from the cache, refused or failed
    leaves the cache as it was.  A request answered from the cache makes
    no aggregation. *)
Theorem handlers_keep_cache
        (w : World) (cache : TrendsCache) (now later : Z)
        (q : TrendsQuery) (authorized : bool) (r : FetchRequest) (env : Env) :
  let got := getTrendsHandler w cache now later q env in
  let refreshed := fetchTrendsHandler w cache now authorized r env in
  ttl (snd (fst got)) = ttl cache
  /\ ttl (snd (fst refreshed)) = ttl cache
  /\ ttl (snd (clearCacheHandler cache authorized)) = ttl cache
  /\ ((exists served total, fst (fst got) = Fetched served total)
      \/ snd (fst got) = cache)
  /\ ((exists served, fst (fst refreshed) = Refreshed served)
      \/ snd (fst refreshed) = cache)
  /\ (forall served age,
         fst (fst got) = FromCache served age -> snd got = env).
Proof.
  unfold getTrendsHandler, fetchTrendsHandler, clearCacheHandler, aggregate.
  destruct (if qFresh q then None else freshEntry cache now)
    as [[cached cacheAge]|];
    destruct (TrendService.getAllTrends
                (sourcesAt w (List.length (aggregations env)))
                (queryAggregation q)) as [f1|e1];
    destruct authorized;
    destruct (TrendService.getAllTrends
                (sourcesAt w (List.length (aggregations env)))
                (fetchAggregation r)) as [f2|e2];
    cbn [fst snd ttl];
    repeat split; try reflexivity; eauto;
    try (intros; discriminate).
Qed.

End CacheProperties.
